(** * brewtils.decorators: the command-schema compiler

    A shallow embedding of [src/brewtils/decorators.py] and the properties
    its specification states about it.

    The file has two layers.

    - The _value layer_ reads every function of the module as a function
      from values to values: a [Parameter] is a finite tree, and a function
      that updates its argument in place and returns it is read as a
      function returning the updated record.  It covers the calls in which
      the parameter list of a Command, and the list attached to a method,
      hold Parameter objects, none of them reachable twice: two
      occurrences of one object are two equal values here, and an update
      of one is not seen through the other.

    - The _object layer_ (module [Store]) keeps the identity of function,
      Command and Parameter objects in an explicit store, and is used for
      the statements that are about in-place mutation and aliasing, and
      for lists that hold something other than a Parameter.

    Both layers share the value-level helpers ([_format_type],
    [_format_choices], [_validate_kwargness], ...). *)

From Stdlib Require Import ZArith Ascii String List Bool Lia.
From stdpp Require Import base option list strings.

Import ListNotations.
Set Warnings "-register-all".
Local Open Scope string_scope.
Local Open Scope list_scope.

(* ===================================================================== *)
(** * Python strings                                                      *)
(* ===================================================================== *)

(** A Python string is held as the bytes of its UTF-8 encoding, so that
    equality, prefixes and the split at a line feed are those of Python.
    The case mappings [lower] and [title] of this module are the rules of
    [str.lower] and [str.title] on ASCII strings; what the two methods do
    to any other string is left to the interpreter's Unicode tables (see
    [str_lower] and [str_title] below). *)
Module PyStr.

(** Every byte is below 128. *)
Definition is_ascii_char (c : ascii) : bool := (nat_of_ascii c <? 128)%nat.

Fixpoint is_ascii (s : string) : bool :=
  match s with
  | EmptyString => true
  | String c s' => is_ascii_char c && is_ascii s'
  end.

(** Character classes of [str.lower] and [str.title] on ASCII. *)
Definition is_upper (c : ascii) : bool :=
  let n := nat_of_ascii c in (65 <=? n)%nat && (n <=? 90)%nat.

Definition is_lower (c : ascii) : bool :=
  let n := nat_of_ascii c in (97 <=? n)%nat && (n <=? 122)%nat.

Definition to_lower (c : ascii) : ascii :=
  if is_upper c then ascii_of_nat (nat_of_ascii c + 32) else c.

Definition to_upper (c : ascii) : ascii :=
  if is_lower c then ascii_of_nat (nat_of_ascii c - 32) else c.

(** [s.lower()] for an ASCII [s] *)
Fixpoint lower (s : string) : string :=
  match s with
  | EmptyString => EmptyString
  | String c s' => String (to_lower c) (lower s')
  end.

(** [s.title()] for an ASCII [s]: CPython walks the string with a flag
    telling whether the previous character was cased; a cased character is
    upper-cased when the flag is off and lower-cased when it is on. *)
Fixpoint title_from (previous_is_cased : bool) (s : string) : string :=
  match s with
  | EmptyString => EmptyString
  | String c s' =>
      if is_lower c then
        String (if previous_is_cased then c else to_upper c) (title_from true s')
      else if is_upper c then
        String (if previous_is_cased then to_lower c else c) (title_from true s')
      else
        String c (title_from false s')
  end.

Definition title (s : string) : string := title_from false s.

(** [s.startswith(p)] *)
Definition startswith (s p : string) : bool := String.prefix p s.

(** [s.split("\n")[0]] *)
Fixpoint first_line (s : string) : string :=
  match s with
  | EmptyString => EmptyString
  | String c s' =>
      if Ascii.eqb c "010"%char then EmptyString else String c (first_line s')
  end.

(** Truth value of a string: non-empty. *)
Definition truthy (s : string) : bool :=
  match s with EmptyString => false | _ => true end.

(** [len(s)]: the bytes of the encoding that start a character. *)
Fixpoint len (s : string) : nat :=
  match s with
  | EmptyString => 0
  | String c s' =>
      let n := nat_of_ascii c in
      if (128 <=? n)%nat && (n <? 192)%nat then len s' else S (len s')
  end.

End PyStr.

(* ===================================================================== *)
(** * Python values                                                       *)
(* ===================================================================== *)

(** The values that travel through the decorators as defaults, choices
    specifications and display definitions.  Dictionaries are keyed by
    strings and keep insertion order. *)
Inductive pyval : Type :=
| VNone
| VBool (b : bool)
| VInt (n : Z)
| VStr (s : string)
| VList (l : list pyval)
| VDict (d : list (string * pyval)).

(** [bool(v)] *)
Definition truthy (v : pyval) : bool :=
  match v with
  | VNone => false
  | VBool b => b
  | VInt n => negb (n =? 0)%Z
  | VStr s => PyStr.truthy s
  | VList l => match l with [] => false | _ => true end
  | VDict d => match d with [] => false | _ => true end
  end.

Definition is_None (v : pyval) : bool :=
  match v with VNone => true | _ => false end.

(** [isinstance(v, six.string_types)] *)
Definition is_string (v : pyval) : bool :=
  match v with VStr _ => true | _ => false end.

Definition is_dict (v : pyval) : bool :=
  match v with VDict _ => true | _ => false end.

Definition is_list (v : pyval) : bool :=
  match v with VList _ => true | _ => false end.

(** [v == s] for a string literal [s] *)
Definition eq_str (v : pyval) (s : string) : bool :=
  match v with VStr s' => String.eqb s' s | _ => false end.

(** [v in t] for a tuple [t] of string literals *)
Definition in_strs (v : pyval) (t : list string) : bool :=
  existsb (eq_str v) t.

Module Dict.

Definition t := list (string * pyval).

(** [d.get(k)], with [None] rendered as an absent option *)
Fixpoint lookup (d : t) (k : string) : option pyval :=
  match d with
  | [] => None
  | (k', v) :: d' => if String.eqb k' k then Some v else lookup d' k
  end.

(** [d.get(k)] *)
Definition get (d : t) (k : string) : pyval :=
  match lookup d k with Some v => v | None => VNone end.

(** [d.get(k, dflt)] *)
Definition get_default (d : t) (k : string) (dflt : pyval) : pyval :=
  match lookup d k with Some v => v | None => dflt end.

(** [d[k] = v]: an existing key keeps its position *)
Fixpoint set (d : t) (k : string) (v : pyval) : t :=
  match d with
  | [] => [(k, v)]
  | (k', v') :: d' =>
      if String.eqb k' k then (k', v) :: d' else (k', v') :: set d' k v
  end.

End Dict.

(* ===================================================================== *)
(** * Exceptions                                                          *)
(* ===================================================================== *)

(** [PluginParamError] is the module's own error; the others are the
    built-in exceptions the code lets escape. *)
Inductive exn : Type :=
| PluginParamError (msg : string)
| TypeError
| KeyError (k : string)
| AttributeError (attr : string)
| RecursionError.

Inductive result (A : Type) : Type :=
| Ok (a : A)
| Raise (e : exn).
Arguments Ok {A} a.
Arguments Raise {A} e.

Definition rbind {A B} (m : result A) (k : A -> result B) : result B :=
  match m with
  | Ok a => k a
  | Raise e => Raise e
  end.

Declare Scope py_scope.
Delimit Scope py_scope with py.
Notation "'let*' x ':=' m 'in' k" := (rbind m (fun x => k))
  (at level 10, x pattern, m at level 100, k at level 200) : py_scope.
Local Open Scope py_scope.

(** A [for] loop whose body may raise and yields one value per element. *)
Fixpoint for_each {A B} (f : A -> result B) (l : list A) : result (list B) :=
  match l with
  | [] => Ok []
  | a :: l' =>
      let* b := f a in
      let* bs := for_each f l' in
      Ok (b :: bs)
  end.

(* ===================================================================== *)
(** * Data model ([brewtils.models])                                      *)
(* ===================================================================== *)

(** What the [type] argument of a Parameter may hold: nothing, a Python
    type object, or a string. *)
Inductive pyclass : Type :=
| Cstr | Cint | Cfloat | Cbool | Cdict
| Cother (name : string).

Inductive pytype : Type :=
| TNone
| TClass (c : pyclass)
| TStr (s : string).

Definition class_name (c : pyclass) : string :=
  match c with
  | Cstr => "str" | Cint => "int" | Cfloat => "float"
  | Cbool => "bool" | Cdict => "dict"
  | Cother name => name
  end.

(** [str(param_type)] *)
Definition str_of_type (t : pytype) : string :=
  match t with
  | TNone => "None"
  | TClass c => "<class '" ++ class_name c ++ "'>"
  | TStr s => s
  end.

(** [bool(param_type)] *)
Definition type_truthy (t : pytype) : bool :=
  match t with
  | TNone => false
  | TClass _ => true
  | TStr s => PyStr.truthy s
  end.

(** [param_type == str], [param_type == int], ... against a type object *)
Definition is_class (t : pytype) (c : pyclass) : bool :=
  match t, c with
  | TClass Cstr, Cstr | TClass Cint, Cint | TClass Cfloat, Cfloat
  | TClass Cbool, Cbool | TClass Cdict, Cdict => true
  | _, _ => false
  end.

(** [param.type == "..."] against a string literal *)
Definition type_is (t : pytype) (s : string) : bool :=
  match t with TStr s' => String.eqb s' s | _ => false end.

(** Modelled from the spec: the [Choices] class of [brewtils.models], which
    is not among the sources.  Its five fields are those of the data model
    and of the call [Choices(type=, display=, value=, strict=, details=)]
    that ends [_format_choices]; it is a plain object, neither a mapping,
    a string nor an iterable. *)
Record Choices : Type := mkChoices {
  choices_type : pyval;
  choices_display : pyval;
  choices_value : pyval;
  choices_strict : pyval;
  choices_details : pyval;
}.

(** The [choices] attribute of a Parameter holds the raw specification
    before normalization and a [Choices] object after it.  A raw
    specification is a value or another iterable (a tuple, a set, an
    iterator, a generator), given by its truth value and by the elements
    [list(choices)] collects. *)
Inductive choices_attr : Type :=
| RawChoices (v : pyval)
| IterableChoices (truth : bool) (elements : list pyval)
| ResolvedChoices (c : Choices).

(** Modelled from the spec: the [Parameter] class of [brewtils.models],
    which is not among the sources.  Its attributes are the seventeen
    keyword arguments the decorators pass to its constructor.  The record is
    parameterised by the representation of the [parameters] list ([PL]) and
    of the [model] reference ([MR]), so that the value layer and the object
    layer share it. *)
Record ParameterRec (PL MR : Type) : Type := mkParameter {
  key : option string;
  type : pytype;
  multi : option bool;
  display_name : option string;
  optional : option bool;
  default : pyval;
  description : option string;
  choices : choices_attr;
  parameters : PL;
  nullable : option bool;
  maximum : option Z;
  minimum : option Z;
  regex : option string;
  form_input_type : option string;
  type_info : pyval;
  is_kwarg : option bool;
  model : MR;
}.
Arguments mkParameter {PL MR}.
Arguments key {PL MR}. Arguments type {PL MR}. Arguments multi {PL MR}.
Arguments display_name {PL MR}. Arguments optional {PL MR}.
Arguments default {PL MR}. Arguments description {PL MR}.
Arguments choices {PL MR}. Arguments parameters {PL MR}.
Arguments nullable {PL MR}. Arguments maximum {PL MR}.
Arguments minimum {PL MR}. Arguments regex {PL MR}.
Arguments form_input_type {PL MR}. Arguments type_info {PL MR}.
Arguments is_kwarg {PL MR}. Arguments model {PL MR}.

(** [Parameter(key=k, optional=opt)], every other argument being [None];
    [nil] and [none] are the empty parameter list and the absent model. *)
Definition new_ParameterRec {PL MR} (nil : PL) (none : MR)
           (k : option string) (opt : option bool) : ParameterRec PL MR :=
  mkParameter k TNone None None opt VNone None (RawChoices VNone) nil None
    None None None None VNone None none.

(** Attribute assignments [param.x = v]. *)
Section Setters.
Context {PL MR : Type}.
Implicit Type p : ParameterRec PL MR.

Definition set_type (v : pytype) p : ParameterRec PL MR :=
  mkParameter (key p) v (multi p) (display_name p) (optional p) (default p)
    (description p) (choices p) (parameters p) (nullable p) (maximum p)
    (minimum p) (regex p) (form_input_type p) (type_info p) (is_kwarg p)
    (model p).

Definition set_optional (v : option bool) p : ParameterRec PL MR :=
  mkParameter (key p) (type p) (multi p) (display_name p) v (default p)
    (description p) (choices p) (parameters p) (nullable p) (maximum p)
    (minimum p) (regex p) (form_input_type p) (type_info p) (is_kwarg p)
    (model p).

Definition set_default (v : pyval) p : ParameterRec PL MR :=
  mkParameter (key p) (type p) (multi p) (display_name p) (optional p) v
    (description p) (choices p) (parameters p) (nullable p) (maximum p)
    (minimum p) (regex p) (form_input_type p) (type_info p) (is_kwarg p)
    (model p).

Definition set_choices (v : choices_attr) p : ParameterRec PL MR :=
  mkParameter (key p) (type p) (multi p) (display_name p) (optional p)
    (default p) (description p) v (parameters p) (nullable p) (maximum p)
    (minimum p) (regex p) (form_input_type p) (type_info p) (is_kwarg p)
    (model p).

Definition set_type_info (v : pyval) p : ParameterRec PL MR :=
  mkParameter (key p) (type p) (multi p) (display_name p) (optional p)
    (default p) (description p) (choices p) (parameters p) (nullable p)
    (maximum p) (minimum p) (regex p) (form_input_type p) v (is_kwarg p)
    (model p).

Definition set_model (v : MR) p : ParameterRec PL MR :=
  mkParameter (key p) (type p) (multi p) (display_name p) (optional p)
    (default p) (description p) (choices p) (parameters p) (nullable p)
    (maximum p) (minimum p) (regex p) (form_input_type p) (type_info p)
    (is_kwarg p) v.

Definition set_parameters (v : PL) p : ParameterRec PL MR :=
  mkParameter (key p) (type p) (multi p) (display_name p) (optional p)
    (default p) (description p) (choices p) v (nullable p) (maximum p)
    (minimum p) (regex p) (form_input_type p) (type_info p) (is_kwarg p)
    (model p).
End Setters.

(** Modelled from the spec: the [Command] class of [brewtils.models], which
    is not among the sources.  Its attributes are the name and the nine
    keyword arguments [command] passes to its constructor; the record is
    parameterised by the representation of the parameter list. *)
Record CommandRec (PL : Type) : Type := mkCommand {
  cmd_name : option string;
  cmd_description : option string;
  cmd_parameters : PL;
  cmd_command_type : option string;
  cmd_output_type : option string;
  cmd_schema : pyval;
  cmd_form : pyval;
  cmd_template : pyval;
  cmd_icon_name : option string;
  cmd_hidden : bool;
}.
Arguments mkCommand {PL}.
Arguments cmd_name {PL}. Arguments cmd_description {PL}.
Arguments cmd_parameters {PL}. Arguments cmd_command_type {PL}.
Arguments cmd_output_type {PL}. Arguments cmd_schema {PL}.
Arguments cmd_form {PL}. Arguments cmd_template {PL}.
Arguments cmd_icon_name {PL}. Arguments cmd_hidden {PL}.

(** Attribute assignments [cmd.x = v]. *)
Section CommandSetters.
Context {PL : Type}.
Implicit Type c : CommandRec PL.

Definition set_cmd_name (v : option string) c : CommandRec PL :=
  mkCommand v (cmd_description c) (cmd_parameters c) (cmd_command_type c)
    (cmd_output_type c) (cmd_schema c) (cmd_form c) (cmd_template c)
    (cmd_icon_name c) (cmd_hidden c).

Definition set_cmd_description (v : option string) c : CommandRec PL :=
  mkCommand (cmd_name c) v (cmd_parameters c) (cmd_command_type c)
    (cmd_output_type c) (cmd_schema c) (cmd_form c) (cmd_template c)
    (cmd_icon_name c) (cmd_hidden c).

Definition set_cmd_parameters (v : PL) c : CommandRec PL :=
  mkCommand (cmd_name c) (cmd_description c) v (cmd_command_type c)
    (cmd_output_type c) (cmd_schema c) (cmd_form c) (cmd_template c)
    (cmd_icon_name c) (cmd_hidden c).

Definition set_cmd_schema (v : pyval) c : CommandRec PL :=
  mkCommand (cmd_name c) (cmd_description c) (cmd_parameters c)
    (cmd_command_type c) (cmd_output_type c) v (cmd_form c)
    (cmd_template c) (cmd_icon_name c) (cmd_hidden c).

Definition set_cmd_form (v : pyval) c : CommandRec PL :=
  mkCommand (cmd_name c) (cmd_description c) (cmd_parameters c)
    (cmd_command_type c) (cmd_output_type c) (cmd_schema c) v
    (cmd_template c) (cmd_icon_name c) (cmd_hidden c).

Definition set_cmd_template (v : pyval) c : CommandRec PL :=
  mkCommand (cmd_name c) (cmd_description c) (cmd_parameters c)
    (cmd_command_type c) (cmd_output_type c) (cmd_schema c) (cmd_form c)
    v (cmd_icon_name c) (cmd_hidden c).
End CommandSetters.

(** ** Signatures ([inspect.signature]) *)

Inductive param_kind : Type :=
| POSITIONAL_ONLY
| POSITIONAL_OR_KEYWORD
| VAR_POSITIONAL
| KEYWORD_ONLY
| VAR_KEYWORD.

(** [inspect.Parameter]: [sig_default = None] stands for
    [InspectParameter.empty]. *)
Record InspectParameter : Type := mkSig {
  sig_name : string;
  sig_kind : param_kind;
  sig_default : option pyval;
}.

(** [signature(method).parameters.values()], the receiver already bound. *)
Definition signature := list InspectParameter.

Definition is_var_keyword (k : param_kind) : bool :=
  match k with VAR_KEYWORD => true | _ => false end.

Definition is_positional_only (k : param_kind) : bool :=
  match k with POSITIONAL_ONLY => true | _ => false end.

(* ===================================================================== *)
(** * External collaborators                                              *)
(* ===================================================================== *)

(** [brewtils.choices.parse(..., parse_as=...)] *)
Inductive parse_as : Type := as_func | as_url | as_reference.

Inductive parse_outcome : Type :=
| Parsed (details : pyval)
| ParseError
| ParseRaises (e : exn).

(** What the module uses and does not define: the choices grammar, the
    tag tuples of [Choices], the file and network reads of the display
    resolver (an absent result stands for any exception), and what
    [str.lower] and [str.title] make of a string that is not ASCII. *)
Class External : Type := {
  parse : pyval -> parse_as -> parse_outcome;
  Choices_TYPES : list string;
  Choices_DISPLAYS : list string;
  _load_from_url : string -> option pyval;
  _load_from_path : string -> option string;
  json_loads : string -> option pyval;
  unicode_lower : string -> string;
  unicode_title : string -> string;
}.

(** [s.lower()] and [s.title()] *)
Definition str_lower {E : External} (s : string) : string :=
  if PyStr.is_ascii s then PyStr.lower s else unicode_lower s.

Definition str_title {E : External} (s : string) : string :=
  if PyStr.is_ascii s then PyStr.title s else unicode_title s.

(* ===================================================================== *)
(** * [_format_type]                                                      *)
(* ===================================================================== *)

Definition _format_type {E : External} (param_type : pytype) : string :=
  if is_class param_type Cstr then "String"
  else if is_class param_type Cint then "Integer"
  else if is_class param_type Cfloat then "Float"
  else if is_class param_type Cbool then "Boolean"
  else if is_class param_type Cdict then "Dictionary"
  else if String.eqb (str_lower (str_of_type param_type)) "file" then "Bytes"
  else if String.eqb (str_lower (str_of_type param_type)) "datetime"
       then "DateTime"
  else if negb (type_truthy param_type) then "Any"
  else str_title (str_of_type param_type).

(* ===================================================================== *)
(** * [_format_choices]                                                   *)
(* ===================================================================== *)

(** [len(v)] *)
Definition len (v : pyval) : result nat :=
  match v with
  | VStr s => Ok (PyStr.len s)
  | VList l => Ok (length l)
  | VDict d => Ok (length d)
  | _ => Raise TypeError
  end.

(** [v[k]] for a string literal [k] *)
Definition getitem (v : pyval) (k : string) : result pyval :=
  match v with
  | VDict d =>
      match Dict.lookup d k with
      | Some x => Ok x
      | None => Raise (KeyError k)
      end
  | _ => Raise TypeError
  end.

(** [v.get(k)] *)
Definition dot_get (v : pyval) (k : string) : result pyval :=
  match v with
  | VDict d => Ok (Dict.get d k)
  | _ => Raise (AttributeError "get")
  end.

Definition determine_display (display_value : pyval) : result pyval :=
  if is_string display_value then Ok (VStr "typeahead")
  else
    let* n := len display_value in
    Ok (VStr (if (n <=? 50)%nat then "select" else "typeahead")).

Definition determine_type (type_value : pyval) : pyval :=
  match type_value with
  | VStr s => VStr (if PyStr.startswith s "http" then "url" else "command")
  | _ => VStr "static"
  end.

Section FormatChoices.
Context {E : External}.

(** One call of [parse] inside the [try ... except ParseError] block. *)
Definition try_parse (unparsed_value : pyval) (how : parse_as)
  : result pyval :=
  match parse unparsed_value how with
  | Parsed details => Ok details
  | ParseError =>
      Raise (PluginParamError
               "Invalid choices definition - Unable to parse")
  | ParseRaises e => Raise e
  end.

(** The [isinstance(choices, dict)] branch. *)
Definition choices_of_dict (d : Dict.t)
  : result (pyval * pyval * pyval * pyval) :=
  if negb (truthy (Dict.get d "value")) then
    Raise (PluginParamError "No 'value' provided for choices")
  else
    let value := Dict.get d "value" in
    let* inferred_display := determine_display value in
    let display := Dict.get_default d "display" inferred_display in
    let choice_type := Dict.get d "type" in
    let strict := Dict.get_default d "strict" (VBool true) in
    let* choice_type :=
      if is_None choice_type then Ok (determine_type value)
      else if negb (in_strs choice_type Choices_TYPES) then
        Raise (PluginParamError "Invalid choices type")
      else if (eq_str choice_type "command"
                 && negb (is_string value || is_dict value))
              || (eq_str choice_type "url" && negb (is_string value))
              || (eq_str choice_type "static"
                    && negb (is_list value || is_dict value))
      then Raise (PluginParamError "Invalid choices value type")
      else Ok choice_type in
    if negb (in_strs display Choices_DISPLAYS) then
      Raise (PluginParamError "Invalid choices display")
    else Ok (value, display, choice_type, strict).

(** The type-specific part: [details]. *)
Definition choices_details_of (choices value choice_type : pyval)
  : result pyval :=
  if eq_str choice_type "command" then
    let* unparsed_value :=
      if is_string value then Ok value else getitem value "command" in
    try_parse unparsed_value as_func
  else if eq_str choice_type "url" then
    try_parse value as_url
  else if is_dict value then
    let* unparsed_value := dot_get choices "key_reference" in
    if is_None unparsed_value then
      Raise (PluginParamError
               "Specifying a static choices dictionary requires a key_reference field")
    else
      let* reference := try_parse unparsed_value as_reference in
      Ok (VDict [("key_reference", reference)])
  else Ok (VDict []).

(** [_format_choices(choices)], on the content of a Parameter's [choices]
    attribute.  A [Choices] object is truthy, is neither a [dict] nor a
    [str], and is not iterable, so it reaches the last branch and fails
    there. *)
Definition _format_choices (choices : choices_attr)
  : result (option Choices) :=
  match choices with
  | ResolvedChoices _ =>
      Raise (PluginParamError
               "Invalid 'choices': must be a string, dictionary, or iterable.")
  | IterableChoices truth elements =>
      if negb truth then Ok None
      else
        let value := VList elements in
        let* display := determine_display value in
        let choice_type := determine_type value in
        let* details := choices_details_of value value choice_type in
        Ok (Some (mkChoices choice_type display value (VBool true) details))
  | RawChoices choices =>
      if negb (truthy choices) then Ok None
      else
        let* (value, display, choice_type, strict) :=
          match choices with
          | VDict d => choices_of_dict d
          | VStr _ =>
              let value := choices in
              let* display := determine_display value in
              Ok (value, display, determine_type value, VBool true)
          | VList l =>
              let value := VList l in
              let* display := determine_display value in
              Ok (value, display, determine_type value, VBool true)
          | _ =>
              Raise (PluginParamError
                       "Invalid 'choices': must be a string, dictionary, or iterable.")
          end in
        let* details := choices_details_of choices value choice_type in
        Ok (Some (mkChoices choice_type display value strict details))
  end.

End FormatChoices.

(* ===================================================================== *)
(** * [_validate_kwargness]                                               *)
(* ===================================================================== *)

(** The loop over the signature: the formal parameter named like the
    Parameter (the last one, were there several) and whether a [**kwargs]
    is declared. *)
Fixpoint scan_signature (sig : signature) (k : option string)
         (sig_param : option InspectParameter) (has_kwargs : bool)
  : option InspectParameter * bool :=
  match sig with
  | [] => (sig_param, has_kwargs)
  | p :: sig' =>
      let sig_param :=
        match k with
        | Some k' => if String.eqb (sig_name p) k' then Some p else sig_param
        | None => sig_param
        end in
      let has_kwargs :=
        if is_var_keyword (sig_kind p) then true else has_kwargs in
      scan_signature sig' k sig_param has_kwargs
  end.

(** Returns the default of the matching formal parameter, [None] when it
    has none or when nothing matches. *)
Definition _validate_kwargness {PL MR} (_wrapped : signature)
           (param : ParameterRec PL MR) : result pyval :=
  let '(sig_param, has_kwargs) :=
    scan_signature _wrapped (key param) None false in
  match sig_param with
  | None =>
      if match is_kwarg param with Some false => true | _ => false end then
        Raise (PluginParamError
                 "Parameter was not not marked as part of kwargs and wasn't found in the method signature (should is_kwarg be True?)")
      else if negb has_kwargs then
        Raise (PluginParamError
                 "Parameter was declared as a kwarg (is_kwarg=True) but the method signature does not declare a **kwargs parameter")
      else Ok VNone
  | Some sig_param =>
      if match is_kwarg param with Some true => true | _ => false end then
        Raise (PluginParamError
                 "Parameter was marked as part of kwargs but was found in the method signature (should is_kwarg be False?)")
      else if is_positional_only (sig_kind sig_param) then
        Raise (PluginParamError
                 "Sorry, positional-only type parameters are not supported")
      else
        match sig_default sig_param with
        | Some d => Ok d
        | None => Ok VNone
        end
  end.

(* ===================================================================== *)
(** * Value layer: [_initialize_parameter], [_generate_nested_params]     *)
(* ===================================================================== *)

(** What a parameter list may contain: a [Parameter], a legacy model class
    object (anything with a [parameters] attribute), or something else.  A
    Parameter's [model] is given by the parameter list of the model. *)
Inductive pitem : Type :=
| ItemParameter (p : ParameterRec (list pitem) (option (list pitem)))
| ItemModel (parameters : list pitem)
| ItemOther (v : pyval).

Definition Param : Type :=
  ParameterRec (list pitem) (option (list pitem)).

(** [Parameter(key=..., optional=...)] with every other argument left at
    [None]; the constructor stores [parameters or []]. *)
Definition new_Parameter (k : option string) (opt : option bool) : Param :=
  new_ParameterRec [] None k opt.

(** [hasattr(obj, name)] *)
Definition is_Some_b {A} (o : option A) : bool :=
  match o with Some _ => true | None => false end.

(** [not param.nullable] etc. on a tri-state flag *)
Definition flag_truthy (f : option bool) : bool :=
  match f with Some true => true | _ => false end.

Definition choices_attr_of (c : option Choices) : choices_attr :=
  match c with
  | Some c => ResolvedChoices c
  | None => RawChoices VNone
  end.

(** The loop that synthesizes the default of a model-backed Parameter. *)
Definition model_default (nested : list Param) : pyval :=
  VDict
    (fold_left
       (fun d nested_param =>
          if truthy (default nested_param) then
            match key nested_param with
            | Some k => Dict.set d k (default nested_param)
            | None => d  (* a normalized Parameter always has a key *)
            end
          else d)
       nested []).

(** A loop whose body contributes a list of results per element. *)
Fixpoint flat_for_each {A B} (f : A -> result (list B)) (l : list A)
  : result (list B) :=
  match l with
  | [] => Ok []
  | a :: l' =>
      let* bs := f a in
      let* rest := flat_for_each f l' in
      Ok (bs ++ rest)
  end.

Section Normalizer.
Context {E : External}.

(** The body of [_initialize_parameter], with the recursive call to
    [_generate_nested_params] abstracted as [generate].  The branch on
    [param.parameters] and [param.model] reads them off the incoming
    [param]: none of the assignments before it touches them. *)
Definition initialize_body
           (generate : list pitem -> result (list Param))
           (param : Param) (func : option signature)
  : result Param :=
  let nested := parameters param in
  let nested_model := model param in
  (* Every parameter needs a key, so stop that right here *)
  match key param with
  | None =>
      Raise (PluginParamError "Attempted to create a parameter without a key")
  | Some _ =>
    let param := set_type (TStr (_format_type (type param))) param in
    let* formatted := _format_choices (choices param) in
    let param := set_choices (choices_attr_of formatted) param in
    let* param :=
      match func with
      | Some func =>
          let* func_default := _validate_kwargness func param in
          if truthy func_default && is_None (default param)
          then Ok (set_default func_default param)
          else Ok param
      | None => Ok param
      end in
    let param :=
      if type_is (type param) "Bytes"
      then set_type_info (VDict [("storage", VStr "gridfs")]) param
      else param in
    (* Nullifying default file parameters for safety *)
    let param :=
      if type_is (type param) "Base64" then set_default VNone param
      else param in
    (* Now deal with nested parameters *)
    match nested, nested_model with
    | _ :: _, _ =>
        let param := set_type (TStr "Dictionary") param in
        let* children := generate nested in
        Ok (set_parameters (map ItemParameter children) param)
    | [], Some model_parameters =>
        let param := set_type (TStr "Dictionary") param in
        let* children := generate model_parameters in
        let param := set_parameters (map ItemParameter children) param in
        if negb (flag_truthy (nullable param)) && negb (truthy (default param))
        then Ok (set_default (model_default children) param)
        else Ok param
    | [], None => Ok param
    end
  end.

(** One turn of the loop of [_generate_nested_params]. *)
Fixpoint generate_from (param : pitem) : result (list Param) :=
  match param with
  | ItemParameter p =>
      let* initialized :=
        initialize_body (flat_for_each generate_from) p None in
      Ok [initialized]
  | ItemModel parameters => flat_for_each generate_from parameters
  | ItemOther _ =>
      Raise (PluginParamError "Unable to generate parameter")
  end.

Definition _generate_nested_params (parameter_list : list pitem)
  : result (list Param) :=
  flat_for_each generate_from parameter_list.

Definition _initialize_parameter (param : Param)
           (func : option signature) : result Param :=
  initialize_body _generate_nested_params param func.

End Normalizer.

(* ===================================================================== *)
(** * Value layer: methods, [_initialize_command], [parse_client]         *)
(* ===================================================================== *)

(** What the compiler reads off a bound method: its name, docstring and
    signature, an opaque token for its code, and the two attributes the
    decorators attach ([hasattr] is [is_Some]).  [CR] is the representation
    of the attached Command and [PL] that of the attached parameter list. *)
Record MethodRec (CR PL : Type) : Type := mkMethod {
  fn_name : string;
  fn_doc : option string;
  fn_signature : signature;
  fn_code : nat;
  fn_command : option CR;
  fn_parameters : option PL;
}.
Arguments mkMethod {CR PL}.
Arguments fn_name {CR PL}. Arguments fn_doc {CR PL}.
Arguments fn_signature {CR PL}. Arguments fn_code {CR PL}.
Arguments fn_command {CR PL}. Arguments fn_parameters {CR PL}.

(** Attribute assignments [_wrapped._command = v], [_wrapped.parameters = v]. *)
Definition set_fn_command {CR PL} (v : option CR) (f : MethodRec CR PL)
  : MethodRec CR PL :=
  mkMethod (fn_name f) (fn_doc f) (fn_signature f) (fn_code f) v
           (fn_parameters f).

Definition set_fn_parameters {CR PL} (v : option PL) (f : MethodRec CR PL)
  : MethodRec CR PL :=
  mkMethod (fn_name f) (fn_doc f) (fn_signature f) (fn_code f)
           (fn_command f) v.

Definition Command : Type := CommandRec (list Param).
Definition Method : Type := MethodRec Command (list Param).

(** [Command()]: every attribute absent, [hidden] false and, the
    constructor storing [parameters or []], an empty parameter list. *)
Definition new_Command {PL} (no_parameters : PL) : CommandRec PL :=
  mkCommand None None no_parameters None None VNone VNone VNone None false.

Definition _function_name {CR PL} (func : MethodRec CR PL) : string :=
  fn_name func.

Definition _function_docstring {CR PL} (func : MethodRec CR PL)
  : option string :=
  match fn_doc func with
  | Some docstring =>
      if PyStr.truthy docstring then Some (PyStr.first_line docstring)
      else None
  | None => None
  end.

(** [a or b] on optional strings *)
Definition or_else (a b : option string) : option string :=
  match a with
  | Some s => if PyStr.truthy s then a else b
  | None => b
  end.

Inductive display_key : Type := schema_key | form_key | template_key.

Definition is_template (k : display_key) : bool :=
  match k with template_key => true | _ => false end.

Definition is_form (k : display_key) : bool :=
  match k with form_key => true | _ => false end.

Section DisplayModifiers.
Context {E : External}.

(** What the [try] block of [_resolve_display_modifiers] computes for a
    string; an absent result is any exception raised inside it. *)
Definition resolve_string (k : display_key) (value : string)
  : option pyval :=
  if PyStr.startswith value "http" then _load_from_url value
  else if PyStr.startswith value "/" || PyStr.startswith value "." then
    match _load_from_path value with
    | Some loaded_value =>
        if is_template k then Some (VStr loaded_value)
        else json_loads loaded_value
    | None => None
    end
  else if is_template k then Some (VStr value)
  else None.

(** One turn of the loop of [_resolve_display_modifiers]. *)
Definition resolve_one (k : display_key) (value : pyval) : result pyval :=
  match value with
  | VStr s =>
      match resolve_string k s with
      | Some resolved => Ok resolved
      | None => Raise (PluginParamError "Error reading definition")
      end
  | VNone => Ok value
  | VDict _ =>
      if negb (is_template k) then Ok value
      else Raise (PluginParamError
                    "was not a definition, file path, or URL")
  | VList _ =>
      if is_form k then
        Ok (VDict [("type", VStr "fieldset"); ("items", value)])
      else Raise (PluginParamError
                    "was not a definition, file path, or URL")
  | _ => Raise (PluginParamError "was not a definition, file path, or URL")
  end.

(** Returns the resolved [schema], [form] and [template], in that order. *)
Definition _resolve_display_modifiers (schema form template : pyval)
  : result (pyval * pyval * pyval) :=
  let* s := resolve_one schema_key schema in
  let* f := resolve_one form_key form in
  let* t := resolve_one template_key template in
  Ok (s, f, t).

End DisplayModifiers.

(** Modelled from the spec: the methods [parameter_keys] and
    [get_parameter_by_key] of [brewtils.models.Command], which are not among
    the sources.  The keys are those of the top-level list, in order, and
    the lookup returns the first Parameter with the key. *)
Definition has_key {PL MR} (name : string) (p : ParameterRec PL MR) : bool :=
  match key p with
  | Some k => String.eqb k name
  | None => false
  end.

Definition parameter_keys {PL MR} (ps : list (ParameterRec PL MR))
  : list (option string) :=
  map key ps.

Definition in_parameter_keys {PL MR} (name : string)
           (ps : list (ParameterRec PL MR)) : bool :=
  existsb (has_key name) ps.

(** [param = cmd.get_parameter_by_key(name)] followed by
    [if param.optional is None: param.optional = False], on the list. *)
Fixpoint mark_required (name : string) (ps : list Param) : list Param :=
  match ps with
  | [] => []
  | param :: ps' =>
      if has_key name param then
        match optional param with
        | None => set_optional (Some false) param :: ps'
        | Some _ => param :: ps'
        end
      else param :: mark_required name ps'
  end.

(** One turn of the loop over [signature(method).parameters.values()]. *)
Definition merge_formal (ps : list Param) (arg : InspectParameter)
  : list Param :=
  if negb (in_parameter_keys (sig_name arg) ps) then
    ps ++ [new_Parameter (Some (sig_name arg)) (Some false)]
  else mark_required (sig_name arg) ps.

Definition merge_signature (ps : list Param) (sig : signature) : list Param :=
  fold_left merge_formal sig ps.

(** [getattr(method, "parameters", [])] *)
Definition attached_parameters {CR A} (method : MethodRec CR (list A))
  : list A :=
  match fn_parameters method with
  | Some ps => ps
  | None => []
  end.

(** The attributes [dir(client)] walks through, in its order: bound methods
    and everything else. *)
Inductive attribute : Type :=
| a_method (m : Method)
| a_other.

Section Compiler.
Context {E : External}.

(** The Command is read as a value and its list holds Parameters: the
    Parameter that [get_parameter_by_key] looks up is then always found,
    and the [AttributeError] of [param.optional] on a missing one, or on
    a list element without a key, does not arise.  [Store._initialize_command]
    is the same function on objects, where it does. *)
Definition _initialize_command (method : Method) : result Command :=
  let cmd :=
    match fn_command method with
    | Some cmd => cmd
    | None => new_Command []
    end in
  let cmd := set_cmd_name (Some (_function_name method)) cmd in
  let cmd :=
    set_cmd_description
      (or_else (cmd_description cmd) (_function_docstring method)) cmd in
  let* (schema, form, template) :=
    _resolve_display_modifiers (cmd_schema cmd) (cmd_form cmd)
                               (cmd_template cmd) in
  let cmd := set_cmd_schema schema cmd in
  let cmd := set_cmd_form form cmd in
  let cmd := set_cmd_template template cmd in
  let cmd :=
    set_cmd_parameters
      (cmd_parameters cmd ++ attached_parameters method) cmd in
  Ok (set_cmd_parameters
        (merge_signature (cmd_parameters cmd) (fn_signature method)) cmd).

(** The body of the loop of [parse_client] for one attribute.  The
    Parameters are normalized in place in Python, and the results of
    [_initialize_parameter] dropped; here the normalized values are put
    back into the list of the Command.  The two agree when no Parameter
    object of the method is shared ([Store.parse_client] has no such
    condition). *)
Definition parse_attribute (attr : attribute) : result (list Command) :=
  match attr with
  | a_method method =>
      if is_Some_b (fn_command method) || is_Some_b (fn_parameters method)
      then
        let* method_command := _initialize_command method in
        let* ps :=
          for_each
            (fun p => _initialize_parameter p (Some (fn_signature method)))
            (cmd_parameters method_command) in
        Ok [set_cmd_parameters ps method_command]
      else Ok []
  | a_other => Ok []
  end.

Definition parse_client (client : list attribute) : result (list Command) :=
  flat_for_each parse_attribute client.

End Compiler.

(* ===================================================================== *)
(** * Object layer: the same functions over a store of objects           *)
(* ===================================================================== *)

(** Function, Command, Parameter and model class objects have an identity,
    a location in the store; an attribute holding one of them holds its
    location.  Lists, strings and dictionaries are kept by value inside the
    object that holds them.  An assignment [obj.x = v] rewrites the object
    at its location, and is seen through every reference to it. *)
Module Store.

Abbreviation loc := nat (only parsing).

Definition ParameterObj : Type := ParameterRec (list loc) (option loc).
Definition CommandObj : Type := CommandRec (list loc).
Definition FunctionObj : Type := MethodRec loc (list loc).

Inductive object : Type :=
  | OFunction (f : FunctionObj)
  | OCommand (c : CommandObj)
  | OParameter (p : ParameterObj)
  | OModel (parameters : list loc)
  | OOther (v : pyval).

Abbreviation store := (list object) (only parsing).

(** A computation reads and updates the store and returns or raises; the
    updates made before an exception stay. *)
Definition M (A : Type) : Type := store -> result A * store.

Definition ret {A} (a : A) : M A := fun h => (Ok a, h).

Definition raise {A} (e : exn) : M A := fun h => (Raise e, h).

Definition bind {A B} (m : M A) (k : A -> M B) : M B :=
  fun h =>
    match m h with
    | (Ok a, h') => k a h'
    | (Raise e, h') => (Raise e, h')
    end.

Definition lift {A} (r : result A) : M A := fun h => (r, h).

Declare Scope store_scope.
Delimit Scope store_scope with store.
Notation "'let*' x ':=' m 'in' k" := (bind m (fun x => k))
    (at level 10, x pattern, m at level 100, k at level 200) : store_scope.
Local Open Scope store_scope.

(** Object creation: the new object gets the next free location. *)
Definition alloc (o : object) : M loc :=
  fun h => (Ok (length h), h ++ [o]).

Definition read (l : loc) : M object :=
  fun h =>
    match h !! l with
    | Some o => (Ok o, h)
    | None => (Raise (AttributeError "no such object"), h)
    end.

Definition write (l : loc) (o : object) : M unit :=
  fun h => (Ok tt, <[l := o]> h).

Definition get_function (l : loc) : M FunctionObj :=
  let* o := read l in
  match o with
  | OFunction f => ret f
  | _ => raise (AttributeError "not a function")
  end.

Definition get_command (l : loc) : M CommandObj :=
  let* o := read l in
  match o with
  | OCommand c => ret c
  | _ => raise (AttributeError "not a Command")
  end.

Definition get_parameter (l : loc) : M ParameterObj :=
  let* o := read l in
  match o with
  | OParameter p => ret p
  | _ => raise (AttributeError "not a Parameter")
  end.

(** [obj.x = v], as an update of the object at [l]. *)
Definition update_function (l : loc) (f : FunctionObj -> FunctionObj)
  : M unit :=
  let* o := get_function l in write l (OFunction (f o)).

Definition update_command (l : loc) (f : CommandObj -> CommandObj)
  : M unit :=
  let* o := get_command l in write l (OCommand (f o)).

Definition update_parameter (l : loc) (f : ParameterObj -> ParameterObj)
  : M unit :=
  let* o := get_parameter l in write l (OParameter (f o)).

(** A [for] loop over a list, for its effects. *)
Fixpoint for_ {A} (l : list A) (body : A -> M unit) : M unit :=
  match l with
  | [] => ret tt
  | a :: l' => let* _ := body a in for_ l' body
  end.

(** A [for] loop collecting the lists its body yields. *)
Fixpoint collect {A B} (l : list A) (body : A -> M (list B)) : M (list B) :=
  match l with
  | [] => ret []
  | a :: l' =>
      let* bs := body a in
      let* rest := collect l' body in
      ret (bs ++ rest)
  end.

(** ** The decorators, applied to a function object *)

(** [command(_wrapped, description=..., ...)] with [_wrapped] given; the
    call without it returns a partial application that ends here.
    [Command(...)] stores [parameters or []]. *)
Definition command (_wrapped : loc) (description : option string)
           (parameters : list loc) (command_type output_type : option string)
           (schema form template : pyval) (icon_name : option string)
           (hidden : bool) : M loc :=
  let* cmd :=
    alloc (OCommand (mkCommand None description parameters command_type
                               output_type schema form template icon_name
                               hidden)) in
  let* _ := update_function _wrapped (set_fn_command (Some cmd)) in
  ret _wrapped.

(** [parameter(_wrapped, key=..., ...)] with [_wrapped] given; [kwargs] is
    the Parameter the seventeen keyword arguments describe. *)
Definition parameter (_wrapped : loc) (kwargs : ParameterObj) : M loc :=
  let* _ :=
    update_function _wrapped
      (fun f => set_fn_parameters (Some (attached_parameters f)) f) in
  let* new_parameter := alloc (OParameter kwargs) in
  let* _ :=
    update_function _wrapped
      (fun f =>
         set_fn_parameters
           (Some (attached_parameters f ++ [new_parameter])) f) in
  ret _wrapped.

(** ** [_initialize_command] *)

(** [cmd.parameter_keys()] *)
Fixpoint parameter_keys (ps : list loc) : M (list (option string)) :=
  match ps with
  | [] => ret []
  | p :: ps' =>
      let* o := get_parameter p in
      let* ks := parameter_keys ps' in
      ret (key o :: ks)
  end.

(** [cmd.get_parameter_by_key(name)] *)
Fixpoint get_parameter_by_key (ps : list loc) (name : string)
  : M (option loc) :=
  match ps with
  | [] => ret None
  | p :: ps' =>
      let* o := get_parameter p in
      if has_key name o then ret (Some p)
      else get_parameter_by_key ps' name
  end.

Definition key_in (name : string) (ks : list (option string)) : bool :=
  existsb (fun k => match k with
                    | Some k' => String.eqb k' name
                    | None => false
                    end) ks.

(** One turn of the loop over the signature. *)
Definition merge_formal (cmd : loc) (arg : InspectParameter) : M unit :=
  let* c := get_command cmd in
  let* ks := parameter_keys (cmd_parameters c) in
  if negb (key_in (sig_name arg) ks) then
    let* synthesized :=
      alloc (OParameter
               (new_ParameterRec [] None (Some (sig_name arg)) (Some false))) in
    update_command cmd
      (fun c => set_cmd_parameters (cmd_parameters c ++ [synthesized]) c)
  else
    let* found := get_parameter_by_key (cmd_parameters c) (sig_name arg) in
    match found with
    | Some param =>
        let* p := get_parameter param in
        match optional p with
        | None => update_parameter param (set_optional (Some false))
        | Some _ => ret tt
        end
    | None => raise (AttributeError "optional")
    end.

Section Compiler.
Context {E : External}.

Definition _initialize_command (method : loc) : M loc :=
  let* m := get_function method in
  let* cmd :=
    match fn_command m with
    | Some cmd => ret cmd
    | None => alloc (OCommand (new_Command []))
    end in
  let* _ := update_command cmd (set_cmd_name (Some (_function_name m))) in
  let* _ :=
    update_command cmd
      (fun c =>
         set_cmd_description
           (or_else (cmd_description c) (_function_docstring m)) c) in
  let* c := get_command cmd in
  let* (schema, form, template) :=
    lift (_resolve_display_modifiers (cmd_schema c) (cmd_form c)
                                     (cmd_template c)) in
  let* _ := update_command cmd (set_cmd_schema schema) in
  let* _ := update_command cmd (set_cmd_form form) in
  let* _ := update_command cmd (set_cmd_template template) in
  let* _ :=
    update_command cmd
      (fun c =>
         set_cmd_parameters
           (cmd_parameters c ++ attached_parameters m) c) in
  let* _ := for_ (fn_signature m) (merge_formal cmd) in
  ret cmd.

(** ** [_initialize_parameter] and [_generate_nested_params] *)

(** [param.model.parameters] *)
Definition model_parameters (mdl : loc) : M (list loc) :=
  let* o := read mdl in
  match o with
  | OModel ps => ret ps
  | OCommand c => ret (cmd_parameters c)
  | OParameter p => ret (parameters p)
  | OFunction f =>
      match fn_parameters f with
      | Some ps => ret ps
      | None => raise (AttributeError "parameters")
      end
  | OOther _ => raise (AttributeError "parameters")
  end.

(** [param.default[nested_param.key] = nested_param.default] *)
Definition default_setitem (k : option string) (v : pyval)
           (p : ParameterObj) : ParameterObj :=
  match default p, k with
  | VDict d, Some k' => set_default (VDict (Dict.set d k' v)) p
  | _, _ => p
  end.

(** The two functions call each other; [depth] bounds the nesting of
    their calls, as the interpreter's recursion limit does. *)
Fixpoint _initialize_parameter (depth : nat) (param : loc)
           (func : option loc) {struct depth} : M loc :=
    match depth with
    | O => raise RecursionError
    | S depth =>
      let* p := get_parameter param in
      match key p with
      | None =>
          raise (PluginParamError
                   "Attempted to create a parameter without a key")
      | Some _ =>
        let* _ :=
          update_parameter param
            (fun p => set_type (TStr (_format_type (type p))) p) in
        let* p := get_parameter param in
        let* formatted := lift (_format_choices (choices p)) in
        let* _ :=
          update_parameter param (set_choices (choices_attr_of formatted)) in
        let* _ :=
          match func with
          | Some func =>
              let* f := get_function func in
              let* p := get_parameter param in
              let* func_default :=
                lift (_validate_kwargness (fn_signature f) p) in
              if truthy func_default && is_None (default p)
              then update_parameter param (set_default func_default)
              else ret tt
          | None => ret tt
          end in
        let* p := get_parameter param in
        let* _ :=
          if type_is (type p) "Bytes"
          then update_parameter param
                 (set_type_info (VDict [("storage", VStr "gridfs")]))
          else ret tt in
        let* p := get_parameter param in
        let* _ :=
          if type_is (type p) "Base64"
          then update_parameter param (set_default VNone)
          else ret tt in
        let* p := get_parameter param in
        match parameters p, model p with
        | _ :: _, _ =>
            let* _ := update_parameter param (set_type (TStr "Dictionary")) in
            let* children := _generate_nested_params depth (parameters p) in
            let* _ := update_parameter param (set_parameters children) in
            ret param
        | [], Some mdl =>
            let* _ := update_parameter param (set_type (TStr "Dictionary")) in
            let* model_list := model_parameters mdl in
            let* children := _generate_nested_params depth model_list in
            let* _ := update_parameter param (set_parameters children) in
            let* p := get_parameter param in
            let* _ :=
              if negb (flag_truthy (nullable p)) && negb (truthy (default p))
              then
                let* _ := update_parameter param (set_default (VDict [])) in
                let* p := get_parameter param in
                for_ (parameters p)
                     (fun nested_param =>
                        let* np := get_parameter nested_param in
                        if truthy (default np)
                        then update_parameter param
                               (default_setitem (key np) (default np))
                        else ret tt)
              else ret tt in
            ret param
        | [], None => ret param
        end
      end
    end

  with _generate_nested_params (depth : nat) (parameter_list : list loc)
       {struct depth} : M (list loc) :=
    match depth with
    | O => raise RecursionError
    | S depth =>
        collect parameter_list
          (fun param =>
             let* o := read param in
             match o with
             | OParameter _ =>
                 let* initialized :=
                   _initialize_parameter depth param None in
                 ret [initialized]
             | OModel ps => _generate_nested_params depth ps
             | OCommand c => _generate_nested_params depth (cmd_parameters c)
             | OFunction f =>
                 match fn_parameters f with
                 | Some ps => _generate_nested_params depth ps
                 | None =>
                     raise (PluginParamError "Unable to generate parameter")
                 end
             | OOther _ =>
                 raise (PluginParamError "Unable to generate parameter")
             end)
    end.

(** ** [parse_client] *)

Definition has_metadata (f : FunctionObj) : bool :=
  is_Some_b (fn_command f) || is_Some_b (fn_parameters f).

(** [client] lists the attributes of [dir(client)]; [depth] is the
    recursion limit. *)
Definition parse_client (depth : nat) (client : list loc) : M (list loc) :=
  collect client
    (fun method =>
       let* o := read method in
       match o with
       | OFunction f =>
           if has_metadata f then
             let* method_command := _initialize_command method in
             let* c := get_command method_command in
             let* _ :=
               for_ (cmd_parameters c)
                    (fun p =>
                       let* _ :=
                         _initialize_parameter depth p (Some method) in
                       ret tt) in
             ret [method_command]
           else ret []
       | _ => ret []
       end).

End Compiler.

(** ** Predicates on stores and computations *)











(** The object at [l] is a Parameter, or a Command, of which [P] holds. *)
Definition parameter_at (P : ParameterObj -> Prop) (l : loc) (h : store)
  : Prop :=
  exists q, h !! l = Some (OParameter q) /\ P q.






End Store.

(* ===================================================================== *)
(** * Predicates used in the statements                                   *)
(* ===================================================================== *)

(** Every Parameter of a tree: the Parameter itself and, through the
    [parameters] lists, everything below it. *)
Fixpoint parameters_below (it : pitem) : list Param :=
  match it with
  | ItemParameter p => p :: flat_map parameters_below (parameters p)
  | ItemModel ps => flat_map parameters_below ps
  | ItemOther _ => []
  end.

Definition parameter_tree (p : Param) : list Param :=
  parameters_below (ItemParameter p).

(** The invariant of the data model: nested parameters only under type
    [Dictionary]. *)
Definition dictionary_if_nested (p : Param) : Prop :=
  parameters p <> [] -> type p = TStr "Dictionary".

(** [bool(param.choices)] *)
Definition choices_truthy (c : choices_attr) : bool :=
  match c with
  | RawChoices v => truthy v
  | IterableChoices truth _ => truth
  | ResolvedChoices _ => true
  end.

(** The Parameters a method declares before its signature is merged:
    those of the attached Command, then those attached by [@parameter]. *)
Definition declared_parameters (method : Method) : list Param :=
  match fn_command method with
  | Some cmd => cmd_parameters cmd
  | None => []
  end ++ attached_parameters method.

(** [name] is the name of a formal parameter of the signature. *)
Definition is_formal (sig : signature) (name : string) : bool :=
  existsb (fun arg => String.eqb (sig_name arg) name) sig.

(** The [i]-th declared Parameter is the one [get_parameter_by_key] finds
    for its key: it has a key, and no Parameter before it has the same. *)
Definition found_by_key (declared : list Param) (i : nat) (p : Param) : bool :=
  match key p with
  | Some k => negb (in_parameter_keys k (take i declared))
  | None => false
  end.

Definition names_a_formal (sig : signature) (p : Param) : bool :=
  match key p with
  | Some k => is_formal sig k
  | None => false
  end.

(** The two halves of [_initialize_parameter], for reasoning: the
    assignments up to the [Base64] fix-up, and the nested expansion. *)
Definition scalar_steps {E : External} (param : Param)
           (func : option signature) : result Param :=
  match key param with
  | None =>
      Raise (PluginParamError "Attempted to create a parameter without a key")
  | Some _ =>
      let param := set_type (TStr (_format_type (type param))) param in
      let* formatted := _format_choices (choices param) in
      let param := set_choices (choices_attr_of formatted) param in
      let* param :=
        match func with
        | Some func =>
            let* func_default := _validate_kwargness func param in
            if truthy func_default && is_None (default param)
            then Ok (set_default func_default param)
            else Ok param
        | None => Ok param
        end in
      let param :=
        if type_is (type param) "Bytes"
        then set_type_info (VDict [("storage", VStr "gridfs")]) param
        else param in
      Ok (if type_is (type param) "Base64" then set_default VNone param
          else param)
  end.

Definition nested_steps (generate : list pitem -> result (list Param))
           (nested : list pitem) (nested_model : option (list pitem))
           (param : Param) : result Param :=
  match nested, nested_model with
  | _ :: _, _ =>
      let param := set_type (TStr "Dictionary") param in
      let* children := generate nested in
      Ok (set_parameters (map ItemParameter children) param)
  | [], Some model_parameters =>
      let param := set_type (TStr "Dictionary") param in
      let* children := generate model_parameters in
      let param := set_parameters (map ItemParameter children) param in
      if negb (flag_truthy (nullable param)) && negb (truthy (default param))
      then Ok (set_default (model_default children) param)
      else Ok param
  | [], None => Ok param
  end.

(** The type the claim C2 describes, in its words: url for a string with
    an HTTP(S) scheme, command for any other string and for a mapping with
    the key [command], static otherwise. *)
Definition claimed_choices_type (value : pyval) : pyval :=
  match value with
  | VStr s =>
      VStr (if PyStr.startswith s "http://" || PyStr.startswith s "https://"
            then "url" else "command")
  | VDict d =>
      VStr (if is_Some_b (Dict.lookup d "command") then "command"
            else "static")
  | _ => VStr "static"
  end.

(** Every Parameter of the tree satisfies the invariant. *)
Definition well_nested (p : Param) : Prop :=
  Forall dictionary_if_nested (parameter_tree p).

(** [param.optional = False] when it is [None]. *)
Definition require (p : Param) : Param :=
  match optional p with
  | None => set_optional (Some false) p
  | Some _ => p
  end.

(** The storage marker of [Bytes] parameters. *)
Definition gridfs : pyval := VDict [("storage", VStr "gridfs")].

(** [v == {}] *)
Definition is_empty_dict (v : pyval) : bool :=
  match v with VDict [] => true | _ => false end.

(** What a second normalization needs of one Parameter of a normalized
    tree, read off that Parameter alone: it holds no Choices; formatting
    leaves its type tag as it is; and, when it has a model and an empty
    parameter list, the model expands to no Parameter and the Parameter is
    nullable or has a truthy default or the default [{}]. *)
Definition settled {E : External} (q : Param) : bool :=
  negb (choices_truthy (choices q))
  && match type q with
     | TStr T => String.eqb (_format_type (TStr T)) T
     | _ => false
     end
  && match parameters q, model q with
     | [], Some model_parameters =>
         match _generate_nested_params model_parameters with
         | Ok [] =>
             flag_truthy (nullable q) || truthy (default q)
             || is_empty_dict (default q)
         | _ => false
         end
     | _, _ => true
     end.

(** The callable has no default to hand to the normalized Parameter: the
    formal parameter's default is falsy, or the Parameter has a default, or
    its type is Base64 (and the default is dropped at once). *)
Definition offers_no_default (func : option signature) (n : Param) : bool :=
  match func with
  | Some sig =>
      match _validate_kwargness sig n with
      | Ok func_default =>
          negb (truthy func_default && is_None (default n))
          || type_is (type n) "Base64"
      | Raise _ => false
      end
  | None => true
  end.

(* ===================================================================== *)
(** * Induction on parameter trees                                        *)
(* ===================================================================== *)

Section PitemInduction.
Variable P : pitem -> Prop.
Hypothesis P_parameter :
  forall p : Param,
    Forall P (parameters p) ->
    (forall m, model p = Some m -> Forall P m) ->
    P (ItemParameter p).
Hypothesis P_model : forall ps, Forall P ps -> P (ItemModel ps).
Hypothesis P_other : forall v, P (ItemOther v).

Definition Forall_of (rec : forall it, P it) : forall l, Forall P l :=
  fix go l :=
    match l with
    | [] => @List.Forall_nil _ P
    | x :: l0 => @List.Forall_cons _ P x l0 (rec x) (go l0)
    end.

Fixpoint pitem_tree_ind (it : pitem) : P it :=
  match it with
  | ItemParameter p =>
      P_parameter p
        (Forall_of pitem_tree_ind (parameters p))
        (match model p as o
               return forall m, o = Some m -> Forall P m with
         | Some m' =>
             fun m Hm =>
               eq_ind m' (Forall P) (Forall_of pitem_tree_ind m') m
                      (f_equal (fun o => match o with
                                         | Some x => x
                                         | None => m'
                                         end) Hm)
         | None => fun m Hm =>
             False_ind _ (eq_ind None (fun o => match o with
                                               | None => True
                                               | Some _ => False
                                               end) I (Some m) Hm)
         end)
  | ItemModel ps => P_model ps (Forall_of pitem_tree_ind ps)
  | ItemOther v => P_other v
  end.

End PitemInduction.

(* ===================================================================== *)
(** * Sample collaborators and inputs                                     *)
(* ===================================================================== *)

(** A stand-in for the choices grammar: a non-empty string parses to a
    descriptor holding it, an empty one is a parse error, anything else is
    not a string to parse. *)
Definition sample_parse (v : pyval) (how : parse_as) : parse_outcome :=
  match v with
  | VStr s =>
      if PyStr.truthy s then Parsed (VDict [("raw", VStr s)]) else ParseError
  | _ => ParseRaises TypeError
  end.

(** Modelled from the spec: the tag tuples [Choices.TYPES] and
    [Choices.DISPLAYS] of [brewtils.models], which are not among the
    sources (section 3: type is static, url, command or reference; display
    is select or typeahead).  No file and no URL can be read, and the
    sample inputs are ASCII, so that the two Unicode mappings are never
    consulted. *)
Definition sample_external : External :=
  {| parse := sample_parse;
     Choices_TYPES := ["static"; "url"; "command"; "reference"];
     Choices_DISPLAYS := ["select"; "typeahead"];
     _load_from_url := fun _ => None;
     _load_from_path := fun _ => None;
     json_loads := fun _ => None;
     unicode_lower := fun s => s;
     unicode_title := fun s => s |}.

(** A model whose parameters are [x] with default [1], [z] with default
    [0] and [y] without a default, and a Parameter backed by it. *)
Definition sample_model : list pitem :=
  [ItemParameter (set_default (VInt 1) (new_Parameter (Some "x") None));
   ItemParameter (set_default (VInt 0) (new_Parameter (Some "z") None));
   ItemParameter (new_Parameter (Some "y") None)].

Definition sample_model_parameter : Param :=
  set_model (Some sample_model) (new_Parameter (Some "p") None).

(** [def f(self, b=0)] and [def f(self, a, b=5)] *)
Definition sample_signature_b0 : signature :=
  [mkSig "b" POSITIONAL_OR_KEYWORD (Some (VInt 0))].

Definition sample_signature_a_b5 : signature :=
  [mkSig "a" POSITIONAL_OR_KEYWORD None;
   mkSig "b" POSITIONAL_OR_KEYWORD (Some (VInt 5))].

(** [{"value": {"command": "f"}, "key_reference": "${x}"}] and
    [{"value": "f(x)"}] *)
Definition sample_choices_mapping : Dict.t :=
  [("value", VDict [("command", VStr "f")]);
   ("key_reference", VStr "${x}")].

Definition sample_choices_string : Dict.t :=
  [("value", VStr "f(x)")].

(** A method [def cmd(self, a, b=5)] carrying [@parameter(key="b")], and a
    method [def twice(self, x)] carrying [@parameter(key="x")] two times. *)
Definition sample_method : Method :=
  mkMethod "cmd" (Some "Say something") sample_signature_a_b5 0 None
           (Some [new_Parameter (Some "b") None]).


(** A client whose one method [def nested(self, outer)] declares a
    Parameter [outer] with a nested Parameter [inner] that is itself backed
    by the sample model. *)
Definition sample_nested_parameter : Param :=
  set_parameters
    [ItemParameter
       (set_model (Some sample_model) (new_Parameter (Some "inner") None))]
    (set_type (TStr "string") (new_Parameter (Some "outer") None)).

Definition sample_nested_client : list attribute :=
  [a_other;
   a_method (mkMethod "nested" None
                      [mkSig "outer" POSITIONAL_OR_KEYWORD None] 2 None
                      (Some [sample_nested_parameter]))].

(** A Parameter with the choices [["a", "b"]]; a Parameter whose nested
    list holds one empty legacy model and which is also backed by the sample
    model; and a [base64] Parameter [b] with one nested Parameter, for a
    callable [def f(self, b=7)]. *)
Definition sample_choices_parameter : Param :=
  set_choices (RawChoices (VList [VStr "a"; VStr "b"]))
              (new_Parameter (Some "c") None).

Definition sample_shadowed_model_parameter : Param :=
  set_parameters [ItemModel []] sample_model_parameter.

Definition sample_base64_parameter : Param :=
  set_parameters [ItemParameter (new_Parameter (Some "y") None)]
    (set_type (TStr "base64") (new_Parameter (Some "b") None)).

Definition sample_signature_b7 : signature :=
  [mkSig "b" POSITIONAL_OR_KEYWORD (Some (VInt 7))].

(** A function [def echo(self, x)] annotated with [@parameter(key="x")]
    and then [@command]: the store holds the function at 0, the Parameter
    at 1 and the attached Command at 2. *)
Definition sample_function : Store.FunctionObj :=
  mkMethod "echo" None [mkSig "x" POSITIONAL_OR_KEYWORD None] 7 None None.

Definition sample_annotation : Store.M nat :=
  Store.bind
    (Store.parameter 0 (new_ParameterRec [] None (Some "x") None))
    (fun f => Store.command f None [] (Some "ACTION") (Some "STRING")
                            VNone VNone VNone None false).

Definition sample_store : list Store.object :=
  snd (sample_annotation [Store.OFunction sample_function]).




(** The value-layer reading of the annotated [echo] of [sample_store]. *)
Definition sample_echo : Method :=
  mkMethod "echo" None [mkSig "x" POSITIONAL_OR_KEYWORD None] 7
           (Some (mkCommand None None [] (Some "ACTION") (Some "STRING")
                            VNone VNone VNone None false))
           (Some [new_Parameter (Some "x") None]).

(** What both layers can be compared on: the attributes of a Parameter
    that are values. *)
Definition scalar_view {PL MR} (p : ParameterRec PL MR)
  : option string * pytype * option bool * pyval * choices_attr * pyval :=
  (key p, type p, optional p, default p, choices p, type_info p).


(* ===================================================================== *)
(** * Further predicates and inputs                                       *)
(* ===================================================================== *)

(** The outcome is a result or a [PluginParamError]: no other exception
    escapes. *)
Definition only_schema_errors {A} (r : result A) : Prop :=
  match r with
  | Ok _ => True
  | Raise (PluginParamError _) => True
  | Raise _ => False
  end.

(** [{"value": 5, "display": "select"}] and [{"type": "command", "value":
    {"x": 1}}] *)
Definition sample_choices_unsized : Dict.t :=
  [("value", VInt 5); ("display", VStr "select")].

Definition sample_choices_command_mapping : Dict.t :=
  [("type", VStr "command"); ("value", VDict [("x", VInt 1)])].

(** [arg.default], with [None] for [InspectParameter.empty] *)
Definition default_or_None (arg : InspectParameter) : pyval :=
  match sig_default arg with
  | Some d => d
  | None => VNone
  end.

(** [def f(self, a, b=5, **kwargs)] *)
Definition sample_signature_kwargs : signature :=
  [mkSig "a" POSITIONAL_OR_KEYWORD None;
   mkSig "b" POSITIONAL_OR_KEYWORD (Some (VInt 5));
   mkSig "kwargs" VAR_KEYWORD None].

(** What normalization settles in every Parameter it returns: the key is
    present, the type is a tag, a string, and the choices are absent or
    resolved. *)
Definition resolved_node (p : Param) : Prop :=
  is_Some_b (key p) = true
  /\ (exists T, type p = TStr T)
  /\ (choices p = RawChoices VNone \/ exists c, choices p = ResolvedChoices c).

(** The type of a normalized Parameter is a tag that [_format_type]
    produced. *)
Definition formatted_tag {E : External} (p : Param) : Prop :=
  exists t, type p = TStr (_format_type t).

(** The fix-ups for file types: a [Bytes] Parameter carries the storage
    marker and a [Base64] Parameter has no default. *)
Definition file_safe_node (p : Param) : Prop :=
  (type p = TStr "Bytes" -> type_info p = gridfs)
  /\ (type p = TStr "Base64" -> default p = VNone).

(** The attributes normalization never assigns. *)
Definition same_declaration (p q : Param) : Prop :=
  key q = key p /\ multi q = multi p /\ display_name q = display_name p
  /\ optional q = optional p /\ description q = description p
  /\ nullable q = nullable p /\ maximum q = maximum p
  /\ minimum q = minimum p /\ regex q = regex p
  /\ form_input_type q = form_input_type p /\ is_kwarg q = is_kwarg p
  /\ model q = model p.

(** The Parameters of a nested list in the order the expansion visits
    them, the contents of legacy model objects spliced in place. *)
Fixpoint spliced (it : pitem) : list Param :=
  match it with
  | ItemParameter p => [p]
  | ItemModel ps => flat_map spliced ps
  | ItemOther _ => []
  end.

(** A Parameter [outer] of type [file] with two nested Parameters, the
    second inside a legacy model object. *)
Definition sample_spliced_parameter : Param :=
  set_parameters
    [ItemParameter (set_type (TStr "file") (new_Parameter (Some "f") None));
     ItemModel
       [ItemParameter
          (set_default (VStr "x")
             (set_type (TStr "base64") (new_Parameter (Some "g") None)))]]
    (new_Parameter (Some "outer") None).

(** A Parameter [n] of [def f(self, n=3)] declared without a default, and
    one declared with the default [9]. *)
Definition sample_signature_n3 : signature :=
  [mkSig "n" POSITIONAL_OR_KEYWORD (Some (VInt 3))].

Definition sample_parameter_n : Param := new_Parameter (Some "n") None.

Definition sample_parameter_n9 : Param :=
  set_default (VInt 9) (new_Parameter (Some "n") None).

(** How the merge leaves a declared Parameter: as declared, or with its
    unset [optional] set to false. *)
Definition marked_from (p q : Param) : Prop := q = p \/ q = require p.

(** [Parameter(key=arg.name, optional=False)] *)
Definition synthesized (name : string) : Param :=
  new_Parameter (Some name) (Some false).

(** The names of the formal parameters no declared Parameter has as key. *)
Definition uncovered (ps : list Param) (sig : signature) : list string :=
  List.filter (fun name => negb (in_parameter_keys name ps))
              (map sig_name sig).

(** What compilation makes of a formal parameter no Parameter was declared
    for: type Any, not optional, with the default of the formal parameter
    when that default is truthy. *)
Definition compiled_formal (arg : InspectParameter) : Param :=
  set_default (if truthy (default_or_None arg) then default_or_None arg
               else VNone)
    (set_type (TStr "Any") (synthesized (sig_name arg))).

(** The attached Command, or the one [Command()] builds. *)
Definition attached_command (method : Method) : Command :=
  match fn_command method with
  | Some cmd => cmd
  | None => new_Command []
  end.

(** The string has none of the prefixes that make a display definition a
    URL or a file path. *)
Definition inline_text (s : string) : bool :=
  negb (PyStr.startswith s "http") && negb (PyStr.startswith s "/")
  && negb (PyStr.startswith s ".").

(** [def run(self, a, b=5, *args, **kwargs)] carrying a bare [@command]. *)
Definition sample_bare_method : Method :=
  mkMethod "run" (Some "Run it.
Second line.")
    [mkSig "a" POSITIONAL_OR_KEYWORD None;
     mkSig "b" POSITIONAL_OR_KEYWORD (Some (VInt 5));
     mkSig "args" VAR_POSITIONAL None;
     mkSig "kwargs" VAR_KEYWORD None] 3
    (Some (mkCommand None None [] (Some "ACTION") (Some "STRING")
                     VNone VNone VNone None false))
    None.

(* ===================================================================== *)
(** * Object layer: the [parameters] decorator                            *)
(* ===================================================================== *)

Module StoreDecorators.
Import Store.
Local Open Scope store_scope.

(** An element of the list given to [@parameters]: a mapping of keyword
    arguments of [parameter], given as the Parameter they describe, or
    anything else, for which [parameter(f, **param)] raises a TypeError. *)
Inductive annotation : Type :=
| mapping (kwargs : ParameterObj)
| unusable (v : pyval).

(** [try: m except TypeError: raise e]: every other exception escapes as it
    is, and what [m] did before raising stays done. *)
Definition except_TypeError {A} (m : M A) (e : exn) : M A :=
  fun h =>
    match m h with
    | (Raise TypeError, h') => (Raise e, h')
    | outcome => outcome
    end.

(** [parameters(args[0], args[1])]; the call with the list alone returns a
    partial application that ends here.  [None] is an [args[0]] that cannot
    be iterated.  [wrapper] is built with [enabled=_wrap_functions], which
    the module sets to [False], so that [wrapper(args[1])] is [args[1]]. *)
Definition parameters (args0 : option (list annotation)) (args1 : loc)
  : M loc :=
  let* _ :=
    except_TypeError
      match args0 with
      | Some params =>
          for_ params
               (fun param =>
                  match param with
                  | mapping kwargs =>
                      let* _ := parameter args1 kwargs in ret tt
                  | unusable _ => raise TypeError
                  end)
      | None => raise TypeError
      end
      (PluginParamError
         "@parameters arg must be an iterable of dictionaries") in
  ret args1.

(** [@parameter] decorators stacked on a function, the topmost first: the
    one next to the function is applied first. *)
Fixpoint stacked (annotations : list ParameterObj) (f : loc) : M loc :=
  match annotations with
  | [] => ret f
  | kwargs :: below => let* g := stacked below f in parameter g kwargs
  end.

(** The store [h] after the Parameters [l] have been created and attached,
    in this order, to the function object [fo] at [f]. *)
Definition annotated_with (h : store) (f : loc) (fo : FunctionObj)
           (l : list ParameterObj) : store :=
  <[f := OFunction
           (set_fn_parameters
              (Some (attached_parameters fo ++ seq (length h) (length l)))
              fo)]> h
  ++ map OParameter l.

End StoreDecorators.

(* ===================================================================== *)
(** * Object layer: Parameters that contain themselves                    *)
(* ===================================================================== *)

Module StoreCycles.
Import Store.

(** The Parameter object at [param] has a key and no choices, and is a
    member of its own expansion: the first element of its nested parameter
    list, or, that list being empty, of the parameter list of its model. *)
Definition refers_to_itself (h : store) (param : loc) : Prop :=
  exists p,
    h !! param = Some (OParameter p)
    /\ key p <> None
    /\ choices p = RawChoices VNone
    /\ ((exists rest, parameters p = param :: rest)
        \/ (parameters p = []
            /\ exists mdl rest,
                model p = Some mdl
                /\ h !! mdl = Some (OModel (param :: rest)))).

(** A model whose one Parameter, [child], has that same model as its
    model. *)
Definition sample_recursive_model_store : store :=
  [OModel [1];
   OParameter
     (set_model (Some 0) (new_ParameterRec [] None (Some "child") None))].

End StoreCycles.

(* ===================================================================== *)
(** * Strings: facts about [lower] and [title]                            *)
(* ===================================================================== *)

Module PyStrFacts.
Import PyStr.

Ltac by_cases_on_char c :=
    destruct c as [[] [] [] [] [] [] [] []]; vm_compute; try reflexivity;
    try discriminate; auto.

Lemma lower_not_upper c : is_lower c = true -> is_upper c = false.
Proof. by_cases_on_char c. Qed.

Lemma to_upper_is_upper c :
  is_lower c = true ->
  is_lower (to_upper c) = false /\ is_upper (to_upper c) = true.
Proof. by_cases_on_char c. Qed.

Lemma to_lower_is_lower c :
  is_upper c = true -> is_lower (to_lower c) = true.
Proof. by_cases_on_char c. Qed.

Lemma to_lower_to_upper c : to_lower (to_upper c) = to_lower c.
Proof. by_cases_on_char c. Qed.

Lemma to_lower_involutive c : to_lower (to_lower c) = to_lower c.
Proof. by_cases_on_char c. Qed.

(** Lower-casing forgets what [title] did. *)
Lemma lower_title_from b s : lower (title_from b s) = lower s.
Proof.
    revert b; induction s as [|c s IH]; intros b; simpl; [reflexivity|].
    destruct (is_lower c) eqn:Hl; [|destruct (is_upper c) eqn:Hu];
      simpl; rewrite IH; f_equal.
    - destruct b; [reflexivity | apply to_lower_to_upper].
    - destruct b; [apply to_lower_involutive | reflexivity].
Qed.

(** A title-cased string is its own title. *)
Lemma title_from_idempotent b s :
  title_from b (title_from b s) = title_from b s.
Proof.
    revert b; induction s as [|c s IH]; intros b; simpl; [reflexivity|].
    destruct (is_lower c) eqn:Hl; [|destruct (is_upper c) eqn:Hu].
    - destruct b; simpl.
      + rewrite Hl, IH. reflexivity.
      + destruct (to_upper_is_upper c Hl) as [Hl' Hu'].
        rewrite Hl', Hu', IH. reflexivity.
    - destruct b; simpl.
      + rewrite (to_lower_is_lower c Hu), IH. reflexivity.
      + rewrite Hl, Hu, IH. reflexivity.
    - simpl. rewrite Hl, Hu, IH. reflexivity.
Qed.

Lemma title_from_truthy b s : truthy (title_from b s) = truthy s.
Proof.
    destruct s as [|c s]; simpl; [reflexivity|].
    destruct (is_lower c); [|destruct (is_upper c)]; reflexivity.
Qed.

(** The ASCII rules stay within ASCII. *)
Lemma to_lower_ascii c : is_ascii_char c = true -> is_ascii_char (to_lower c) = true.
Proof. by_cases_on_char c. Qed.

Lemma to_upper_ascii c : is_ascii_char c = true -> is_ascii_char (to_upper c) = true.
Proof. by_cases_on_char c. Qed.

Lemma is_ascii_title_from b s :
  is_ascii s = true -> is_ascii (title_from b s) = true.
Proof.
    revert b; induction s as [|c s IH]; intros b; simpl; [reflexivity|].
    intros [Hc Hs]%andb_true_iff.
    destruct (is_lower c); [|destruct (is_upper c)]; simpl;
      rewrite (IH _ Hs), ?andb_true_r; destruct b;
      auto using to_lower_ascii, to_upper_ascii.
Qed.

Lemma is_ascii_title s : is_ascii s = true -> is_ascii (title s) = true.
Proof. apply is_ascii_title_from. Qed.

Lemma lower_title s : lower (title s) = lower s.
Proof. apply lower_title_from. Qed.

Lemma title_idempotent s : title (title s) = title s.
Proof. apply title_from_idempotent. Qed.

Lemma title_truthy s : truthy (title s) = truthy s.
Proof. apply title_from_truthy. Qed.

End PyStrFacts.

(* ===================================================================== *)
(** * [_format_type] on ASCII type names                               *)
(* ===================================================================== *)

Lemma is_class_TStr s c : is_class (TStr s) c = false.
Proof. destruct c; reflexivity. Qed.

Section FormatTypeFacts.
Context {E : External}.

Lemma str_lower_ascii s :
  PyStr.is_ascii s = true -> str_lower s = PyStr.lower s.
Proof. unfold str_lower. intros ->. reflexivity. Qed.

Lemma str_title_ascii s :
  PyStr.is_ascii s = true -> str_title s = PyStr.title s.
Proof. unfold str_title. intros ->. reflexivity. Qed.

(** On an ASCII type name, [_format_type] follows the ASCII rules. *)
Lemma _format_type_on_ascii (t : pytype) :
  PyStr.is_ascii (str_of_type t) = true ->
  _format_type t
  = if is_class t Cstr then "String"
    else if is_class t Cint then "Integer"
    else if is_class t Cfloat then "Float"
    else if is_class t Cbool then "Boolean"
    else if is_class t Cdict then "Dictionary"
    else if String.eqb (PyStr.lower (str_of_type t)) "file" then "Bytes"
    else if String.eqb (PyStr.lower (str_of_type t)) "datetime"
         then "DateTime"
    else if negb (type_truthy t) then "Any"
    else PyStr.title (str_of_type t).
Proof.
  intros Ha. unfold _format_type.
  rewrite (str_lower_ascii _ Ha), (str_title_ascii _ Ha). reflexivity.
Qed.

(** The tag of an ASCII type name is ASCII. *)
Lemma _format_type_is_ascii (t : pytype) :
  PyStr.is_ascii (str_of_type t) = true ->
  PyStr.is_ascii (_format_type t) = true.
Proof.
  intros Ha. rewrite (_format_type_on_ascii t Ha).
  repeat match goal with
         | |- context [if ?b then _ else _] => destruct b; [reflexivity|]
         end.
  apply PyStrFacts.is_ascii_title, Ha.
Qed.

(** Formatting the tag of an ASCII type name changes nothing. *)
Lemma _format_type_idempotent (t : pytype) :
  PyStr.is_ascii (str_of_type t) = true ->
  _format_type (TStr (_format_type t)) = _format_type t.
Proof.
  intros Ha.
  rewrite (_format_type_on_ascii (TStr (_format_type t)))
    by (apply _format_type_is_ascii, Ha).
  remember (_format_type t) as r eqn:Hr.
  rewrite (_format_type_on_ascii t Ha) in Hr.
  repeat match type of Hr with
         | context [if is_class ?x ?c then _ else _] =>
             destruct (is_class x c); [subst r; reflexivity|]
         end.
  destruct (String.eqb (PyStr.lower (str_of_type t)) "file") eqn:Hfile;
    [subst r; reflexivity|].
  destruct (String.eqb (PyStr.lower (str_of_type t)) "datetime") eqn:Hdate;
    [subst r; reflexivity|].
  destruct (type_truthy t) eqn:Htruthy; simpl in Hr; subst r; [|reflexivity].
  rewrite !is_class_TStr. simpl str_of_type.
  rewrite PyStrFacts.lower_title, Hfile, Hdate.
  simpl type_truthy. rewrite PyStrFacts.title_truthy.
  assert (PyStr.truthy (str_of_type t) = true) as ->.
  { destruct t as [|c|s]; [discriminate| |exact Htruthy]. reflexivity. }
  simpl. apply PyStrFacts.title_idempotent.
Qed.

(** The tag [Dictionary] of a Parameter with nested parameters is one of
    them. *)
Lemma _format_type_Dictionary :
  _format_type (TStr "Dictionary") = "Dictionary".
Proof. reflexivity. Qed.

End FormatTypeFacts.

(* ===================================================================== *)
(** * The normalizer, step by step                                        *)
(* ===================================================================== *)

(** Reduce attribute reads of attribute assignments. *)
Ltac fields :=
  cbn [key type multi display_name optional default description choices
       parameters nullable maximum minimum regex form_input_type type_info
       is_kwarg model set_type set_optional set_default set_choices
       set_type_info set_parameters set_model] in *.

Section NormalizerFacts.
Context {E : External}.

Lemma initialize_body_steps generate (param : Param) func :
  initialize_body generate param func =
  let* q := scalar_steps param func in
  nested_steps generate (parameters param) (model param) q.
Proof.
  unfold initialize_body, scalar_steps.
  destruct (key param); [|reflexivity]. fields.
  destruct (_format_choices (choices param)) as [formatted|]; [|reflexivity].
  cbn [rbind].
  destruct func as [func|]; cbn [rbind]; [|reflexivity].
  destruct (_validate_kwargness _ _) as [func_default|]; [|reflexivity].
  cbn [rbind]. destruct (_ && _); reflexivity.
Qed.

(** [_validate_kwargness] only reads the key and the [is_kwarg] flag. *)
Lemma _validate_kwargness_reads {PL MR} sig (p q : ParameterRec PL MR) :
  key p = key q -> is_kwarg p = is_kwarg q ->
  _validate_kwargness sig p = _validate_kwargness sig q.
Proof. unfold _validate_kwargness. intros -> ->. reflexivity. Qed.

(** What the scalar steps leave alone. *)
Lemma scalar_steps_frame (p q : Param) func :
  scalar_steps p func = Ok q ->
  key q = key p /\ parameters q = parameters p /\ model q = model p
  /\ nullable q = nullable p /\ optional q = optional p
  /\ is_kwarg q = is_kwarg p.
Proof.
  unfold scalar_steps.
  destruct (key p) eqn:Hkey; [|discriminate]. fields.
  destruct (_format_choices (choices p)) as [formatted|]; [|discriminate].
  cbn [rbind].
  destruct func as [func|]; cbn [rbind].
  - destruct (_validate_kwargness _ _) as [func_default|]; [|discriminate].
    cbn [rbind].
    destruct (_ && _); cbn [rbind];
      repeat match goal with
             | |- context [if ?b then _ else _] => destruct b
             end;
      intros [= <-]; cbn; rewrite ?Hkey; auto 10.
  - repeat match goal with
           | |- context [if ?b then _ else _] => destruct b
           end;
      intros [= <-]; cbn; rewrite ?Hkey; auto 10.
Qed.

(** What the nested steps leave alone. *)
Lemma nested_steps_frame generate nested nested_model (q n : Param) :
  nested_steps generate nested nested_model q = Ok n ->
  key n = key q /\ model n = model q /\ nullable n = nullable q
  /\ optional n = optional q /\ is_kwarg n = is_kwarg q
  /\ choices n = choices q /\ type_info n = type_info q.
Proof.
  unfold nested_steps.
  destruct nested as [|it nested]; [destruct nested_model as [m|]|].
  - cbn [rbind]. destruct (generate m) as [children|]; [|discriminate].
    cbn [rbind]. destruct (_ && _); intros [= <-]; cbn; auto 10.
  - intros [= <-]; auto 10.
  - cbn [rbind]. destruct (generate _) as [children|]; [|discriminate].
    intros [= <-]; cbn; auto 10.
Qed.

(** Normalization keeps the key and the model of a Parameter. *)
Lemma initialize_body_frame generate (p n : Param) func :
  initialize_body generate p func = Ok n ->
  key n = key p /\ model n = model p /\ is_Some_b (key n) = true.
Proof.
  rewrite initialize_body_steps.
  destruct (scalar_steps p func) as [q|] eqn:Hq; [|discriminate].
  cbn [rbind]. intros Hn.
  apply scalar_steps_frame in Hq as Hq'.
  apply nested_steps_frame in Hn as Hn'.
  destruct Hq' as (Hk & _ & Hm & _), Hn' as (Hk' & Hm' & _).
  rewrite Hk', Hm', Hk, Hm. repeat split.
  unfold scalar_steps in Hq. destruct (key p); [reflexivity|discriminate].
Qed.

End NormalizerFacts.

(* ===================================================================== *)
(** * Dictionaries                                                        *)
(* ===================================================================== *)

Lemma Dict_lookup_set_eq d k v : Dict.lookup (Dict.set d k v) k = Some v.
Proof.
  induction d as [|[k' v'] d IH]; cbn.
  - rewrite String.eqb_refl. reflexivity.
  - destruct (String.eqb k' k) eqn:Hk; cbn; rewrite Hk; [reflexivity|exact IH].
Qed.

Lemma Dict_lookup_set_ne d k k' v :
  k <> k' -> Dict.lookup (Dict.set d k v) k' = Dict.lookup d k'.
Proof.
  intros Hne. induction d as [|[k0 v0] d IH]; cbn.
  - destruct (String.eqb k k') eqn:Hk; [|reflexivity].
    apply String.eqb_eq in Hk. contradiction.
  - destruct (String.eqb k0 k) eqn:Hk; cbn.
    + apply String.eqb_eq in Hk. subst k0.
      destruct (String.eqb k k') eqn:Hk'; [|reflexivity].
      apply String.eqb_eq in Hk'. contradiction.
    + rewrite IH. reflexivity.
Qed.

(* ===================================================================== *)
(** * Synthesized defaults of model-backed Parameters                     *)
(* ===================================================================== *)

Lemma default_entries_lookup (cs : list Param) (k : string) :
  Dict.lookup
    (fold_right
       (fun (c : Param) (d : Dict.t) =>
          if truthy (default c) then
            match key c with
            | Some kc => Dict.set d kc (default c)
            | None => d
            end
          else d) [] cs) k
  = default <$> find (fun c => has_key k c && truthy (default c)) cs.
Proof.
  induction cs as [|c cs IH]; cbn; [reflexivity|].
  unfold has_key at 1.
  destruct (truthy (default c)) eqn:Ht.
  - destruct (key c) as [kc|]; cbn.
    + destruct (String.eqb kc k) eqn:Hk; cbn.
      * apply String.eqb_eq in Hk. subst kc. apply Dict_lookup_set_eq.
      * rewrite Dict_lookup_set_ne; [exact IH|].
        intros ->. rewrite String.eqb_refl in Hk. discriminate.
    + exact IH.
  - rewrite andb_false_r. exact IH.
Qed.

(** The entry the loop leaves under [k]: the default of the last child
    with that key whose default is truthy; a child whose default is falsy
    contributes nothing. *)
Lemma model_default_lookup (children : list Param) (k : string) :
  exists d, model_default children = VDict d /\
    Dict.lookup d k =
    default <$> find (fun c => has_key k c && truthy (default c))
                     (rev children).
Proof.
  unfold model_default. eexists; split; [reflexivity|].
  rewrite <- fold_left_rev_right. apply default_entries_lookup.
Qed.

(** C1, at the failing input: the model's child [z] declares the default
    [0]; the synthesized default of the Parameter is [{x: 1}], from which
    [z] is missing although its default is not absent. *)
Theorem synthesized_default_drops_falsy_child :
  exists n z,
    _initialize_parameter (E := sample_external) sample_model_parameter None
    = Ok n
    /\ In (ItemParameter z) (parameters n)
    /\ key z = Some "z" /\ default z = VInt 0
    /\ default n = VDict [("x", VInt 1)]
    /\ Dict.lookup [("x", VInt 1)] "z" = None.
Proof.
  eexists; eexists. split; [vm_compute; reflexivity|].
  split; [right; left; reflexivity|].
  repeat split; reflexivity.
Qed.

(* ===================================================================== *)
(** * Defaults adopted from the signature                                 *)
(* ===================================================================== *)

Section AdoptedDefaults.
Context {E : External}.

(** A truthy default of the matching formal parameter is adopted by a
    Parameter without a default that has no nested parameters, no model and
    is not of type [Base64]. *)
Lemma truthy_signature_default_adopted (p n : Param) sig d :
  _validate_kwargness sig p = Ok d -> truthy d = true ->
  default p = VNone -> parameters p = [] -> model p = None ->
  _format_type (type p) <> "Base64" ->
  _initialize_parameter p (Some sig) = Ok n ->
  default n = d.
Proof.
  intros Hd Ht Hdef Hps Hm Htype.
  unfold _initialize_parameter. rewrite initialize_body_steps.
  unfold scalar_steps.
  destruct (key p) eqn:Hkey; [|discriminate]. fields.
  destruct (_format_choices (choices p)) as [formatted|]; [|discriminate].
  cbn [rbind].
  erewrite _validate_kwargness_reads by (fields; reflexivity).
  rewrite Hd. cbn [rbind]. rewrite Ht, Hdef. cbn [is_None andb]. fields.
  rewrite Hps, Hm. cbn [nested_steps rbind]. fields. cbn [type_is].
  assert (String.eqb (_format_type (type p)) "Base64" = false) as Hb64
      by (apply String.eqb_neq; exact Htype).
  destruct (String.eqb _ "Bytes"); fields; cbn [type_is]; rewrite Hb64;
    intros [= <-]; reflexivity.
Qed.

End AdoptedDefaults.

(** C3, at the failing input: for [def f(self, b=0)] and a Parameter [b]
    without a default, normalization succeeds and leaves the default unset;
    the default [0] of the formal parameter is not adopted. *)
Theorem falsy_signature_default_not_adopted :
  _validate_kwargness sample_signature_b0 (new_Parameter (Some "b") None)
  = Ok (VInt 0)
  /\ exists n,
      _initialize_parameter (E := sample_external)
        (new_Parameter (Some "b") None) (Some sample_signature_b0) = Ok n
      /\ default n = VNone.
Proof. split; [reflexivity|]. eexists. split; reflexivity. Qed.

(* ===================================================================== *)
(** * The model of a normalized Parameter                                 *)
(* ===================================================================== *)

(** C9, as stated, fails: the Parameter backed by the sample model still
    carries the model after normalization. *)
Lemma model_retained_after_normalization :
  exists n,
    _initialize_parameter (E := sample_external) sample_model_parameter None
    = Ok n
    /\ model n = Some sample_model
    /\ model n <> None.
Proof.
  eexists. split; [vm_compute; reflexivity|].
  split; [reflexivity|discriminate].
Qed.

(** C9, amended: normalization leaves the model of a model-backed
    Parameter in place; the result has type Dictionary and, when the
    Parameter had no nested parameters of its own, its parameters are the
    normalized parameters of the model. *)
Theorem normalization_keeps_model {E : External} (p n : Param) func m :
  model p = Some m ->
  _initialize_parameter p func = Ok n ->
  model n = Some m
  /\ type n = TStr "Dictionary"
  /\ (parameters p = [] ->
      exists children,
        _generate_nested_params m = Ok children
        /\ parameters n = map ItemParameter children).
Proof.
  intros Hm Hn. unfold _initialize_parameter in Hn.
  pose proof (initialize_body_frame _ _ _ _ Hn) as (_ & Hmodel & _).
  rewrite initialize_body_steps in Hn.
  destruct (scalar_steps p func) as [q|] eqn:Hq; [|discriminate].
  cbn [rbind] in Hn. unfold nested_steps in Hn. rewrite Hm in Hn.
  split; [congruence|].
  destruct (parameters p) as [|it nested].
  - destruct (_generate_nested_params m) as [children|]; [|discriminate].
    cbn [rbind] in Hn.
    destruct (_ && _); injection Hn as <-; split; try reflexivity;
      intros _; exists children; split; reflexivity.
  - destruct (_generate_nested_params (it :: nested)) as [children|];
      [|discriminate].
    injection Hn as <-. split; [reflexivity|discriminate].
Qed.

Lemma normalization_keeps_model_witness :
  exists n,
    _initialize_parameter (E := sample_external) sample_model_parameter None
    = Ok n
    /\ model n = Some sample_model /\ type n = TStr "Dictionary".
Proof.
  eexists. split; [vm_compute; reflexivity|].
  pose proof (normalization_keeps_model (E := sample_external)
                sample_model_parameter _ None sample_model eq_refl eq_refl)
    as (H1 & H2 & _).
  split; [exact H1|exact H2].
Defined.

(* ===================================================================== *)
(** * The inferred type of a choices mapping                              *)
(* ===================================================================== *)

(** C2, as stated, fails: a mapping value with the key [command] and no
    explicit type resolves to type static, not command. *)
Lemma choices_mapping_with_command_is_static :
  Dict.get sample_choices_mapping "type" = VNone
  /\ truthy (Dict.get sample_choices_mapping "value") = true
  /\ claimed_choices_type (Dict.get sample_choices_mapping "value")
     = VStr "command"
  /\ exists c,
      _format_choices (E := sample_external)
        (RawChoices (VDict sample_choices_mapping)) = Ok (Some c)
      /\ choices_type c = VStr "static"
      /\ choices_type c
         <> claimed_choices_type (Dict.get sample_choices_mapping "value").
Proof.
  repeat split. eexists. split; [reflexivity|].
  split; [reflexivity|discriminate].
Qed.

(** C2, amended: for a choices mapping with a non-empty value and no type
    entry, resolution never yields an absent result, and whenever it yields
    a Choices its type is url for a string value starting with [http],
    command for any other string value, and static for every value that is
    not a string, a mapping with the key [command] included. *)
Theorem choices_type_inferred_from_value {E : External} (d : Dict.t) :
  Dict.get d "type" = VNone ->
  truthy (Dict.get d "value") = true ->
  match _format_choices (RawChoices (VDict d)) with
  | Ok (Some c) =>
      choices_type c =
      match Dict.get d "value" with
      | VStr s => VStr (if PyStr.startswith s "http" then "url" else "command")
      | _ => VStr "static"
      end
  | Ok None => False
  | Raise _ => True
  end.
Proof.
  intros Htype Hvalue. unfold _format_choices.
  assert (truthy (VDict d) = true) as ->.
  { destruct d; [discriminate Hvalue|reflexivity]. }
  cbn [negb]. unfold choices_of_dict. rewrite Hvalue, Htype. cbn [negb is_None].
  destruct (determine_display _) as [inferred|]; cbn [rbind]; [|exact I].
  destruct (negb (in_strs _ Choices_DISPLAYS)); cbn [rbind]; [exact I|].
  destruct (choices_details_of _ _ _); cbn [rbind]; [|exact I].
  cbn [choices_type]. unfold determine_type.
  destruct (Dict.get d "value"); reflexivity.
Qed.

Lemma choices_type_inferred_from_value_witness :
  _format_choices (E := sample_external)
    (RawChoices (VDict sample_choices_string))
  = Ok (Some (mkChoices (VStr "command") (VStr "typeahead") (VStr "f(x)")
                        (VBool true) (VDict [("raw", VStr "f(x)")])))
  /\ match _format_choices (E := sample_external)
             (RawChoices (VDict sample_choices_string)) with
     | Ok (Some c) => choices_type c = VStr "command"
     | Ok None => False
     | Raise _ => True
     end.
Proof.
  split; [reflexivity|].
  exact (choices_type_inferred_from_value (E := sample_external)
           sample_choices_string eq_refl eq_refl).
Defined.

(* ===================================================================== *)
(** * Merging the signature into the declared parameters                  *)
(* ===================================================================== *)

Lemma require_key (p : Param) : key (require p) = key p.
Proof. unfold require. destruct (optional p); reflexivity. Qed.

Lemma require_twice (p : Param) : require (require p) = require p.
Proof. unfold require. destruct (optional p) eqn:H; fields; rewrite ?H; reflexivity. Qed.

Lemma has_key_require name (p : Param) :
  has_key name (require p) = has_key name p.
Proof. unfold has_key. rewrite require_key. reflexivity. Qed.

(** Membership in [parameter_keys] only looks at the keys. *)
Lemma in_parameter_keys_map_key name (ps qs : list Param) :
  map key ps = map key qs ->
  in_parameter_keys name ps = in_parameter_keys name qs.
Proof.
  revert qs. induction ps as [|p ps IH]; intros [|q qs]; try discriminate;
    [reflexivity|].
  cbn. intros [= Hk Hks]. unfold has_key at 1 3. rewrite Hk.
  f_equal. apply IH, Hks.
Qed.

Lemma in_parameter_keys_In name (ps : list Param) :
  in_parameter_keys name ps = true <-> In (Some name) (parameter_keys ps).
Proof.
  unfold in_parameter_keys, parameter_keys.
  rewrite existsb_exists, in_map_iff. unfold has_key.
  split.
  - intros (p & Hin & Hk). exists p.
    destruct (key p) as [k|]; [|discriminate].
    apply String.eqb_eq in Hk. subst. auto.
  - intros (p & Hk & Hin). exists p.
    rewrite Hk, String.eqb_refl. auto.
Qed.

Lemma mark_required_keys name (ps : list Param) :
  map key (mark_required name ps) = map key ps.
Proof.
  induction ps as [|p ps IH]; cbn; [reflexivity|].
  destruct (has_key name p).
  - destruct (optional p); reflexivity.
  - cbn. rewrite IH. reflexivity.
Qed.

(** What [mark_required] does to the Parameter at position [i]. *)
Lemma mark_required_lookup name (ps : list Param) i p :
  ps !! i = Some p ->
  mark_required name ps !! i =
  Some (if has_key name p && negb (in_parameter_keys name (take i ps))
        then require p else p).
Proof.
  revert i. induction ps as [|q ps IH]; intros i Hi; [destruct i; discriminate|].
  destruct i as [|i]; cbn in Hi.
  - injection Hi as ->. cbn. rewrite andb_true_r.
    destruct (has_key name p) eqn:Hk; [|reflexivity].
    unfold require. destruct (optional p); reflexivity.
  - cbn. destruct (has_key name q) eqn:Hq.
    + rewrite andb_false_r.
      destruct (optional q); cbn; exact Hi.
    + cbn. apply IH, Hi.
Qed.

Lemma merge_formal_keys (ps : list Param) arg :
  parameter_keys (merge_formal ps arg) =
  parameter_keys ps ++
  (if in_parameter_keys (sig_name arg) ps then [] else [Some (sig_name arg)]).
Proof.
  unfold merge_formal, parameter_keys.
  destruct (in_parameter_keys _ ps); cbn [negb].
  - rewrite mark_required_keys, app_nil_r. reflexivity.
  - rewrite map_app. reflexivity.
Qed.

Lemma merge_formal_lookup (ps : list Param) arg i p :
  ps !! i = Some p ->
  merge_formal ps arg !! i =
  Some (if has_key (sig_name arg) p
           && negb (in_parameter_keys (sig_name arg) (take i ps))
        then require p else p).
Proof.
  intros Hi. unfold merge_formal.
  destruct (in_parameter_keys (sig_name arg) ps) eqn:Hin; cbn [negb].
  - apply mark_required_lookup, Hi.
  - rewrite lookup_app_l by (eapply lookup_lt_Some; exact Hi).
    transitivity (Some p); [exact Hi|]. f_equal.
    destruct (has_key (sig_name arg) p) eqn:Hk; [|reflexivity].
    exfalso. unfold in_parameter_keys in Hin.
    apply not_true_iff_false in Hin. apply Hin.
    apply existsb_exists. exists p. split; [|exact Hk].
    apply list_elem_of_In, list_elem_of_lookup. eauto.
Qed.

Lemma merge_formal_take_keys (ps : list Param) arg i :
  i <= length ps ->
  map key (take i (merge_formal ps arg)) = map key (take i ps).
Proof.
  intros Hi. rewrite <- !firstn_map.
  change (map key (merge_formal ps arg))
    with (parameter_keys (merge_formal ps arg)).
  rewrite merge_formal_keys. unfold parameter_keys.
  rewrite take_app_le by (rewrite length_map; exact Hi). reflexivity.
Qed.

Lemma has_key_formal name (p : Param) k :
  key p = Some k -> has_key name p = String.eqb name k.
Proof. unfold has_key. intros ->. apply String.eqb_sym. Qed.

(** What the loop over the signature does to the Parameter declared at
    position [i]. *)
Lemma merge_signature_lookup sig (ps : list Param) i p :
  ps !! i = Some p ->
  merge_signature ps sig !! i =
  Some (if names_a_formal sig p && found_by_key ps i p
        then require p else p).
Proof.
  revert ps p. induction sig as [|arg sig IH]; intros ps p Hi.
  - cbn. rewrite Hi. f_equal.
    unfold names_a_formal. destruct (key p); reflexivity.
  - cbn [merge_signature fold_left].
    pose proof (merge_formal_lookup ps arg i p Hi) as H1.
    change (fold_left merge_formal sig (merge_formal ps arg))
      with (merge_signature (merge_formal ps arg) sig).
    rewrite (IH _ _ H1).
    assert (Hlen : i <= length ps)
      by (apply Nat.lt_le_incl; eapply lookup_lt_Some; exact Hi).
    assert (Hfound : forall q, key q = key p ->
              found_by_key (merge_formal ps arg) i q = found_by_key ps i p).
    { intros q Hq. unfold found_by_key. rewrite Hq.
      destruct (key p) as [k|]; [|reflexivity]. f_equal.
      apply in_parameter_keys_map_key, merge_formal_take_keys, Hlen. }
    f_equal. unfold names_a_formal.
    destruct (has_key (sig_name arg) p
                && negb (in_parameter_keys (sig_name arg) (take i ps)))
      eqn:Hc.
    + rewrite require_key, require_twice, (Hfound _ (require_key p)).
      apply andb_true_iff in Hc as [Hk Hnot].
      unfold has_key in Hk. unfold found_by_key.
      destruct (key p) as [k|]; [|discriminate].
      apply String.eqb_eq in Hk. subst k.
      cbn [is_formal existsb]. rewrite String.eqb_refl, Hnot. cbn.
      destruct (_ && _); reflexivity.
    + rewrite (Hfound _ eq_refl).
      unfold found_by_key in *.
      destruct (key p) as [k|] eqn:Hkey; [|reflexivity].
      cbn [is_formal existsb].
      destruct (String.eqb (sig_name arg) k) eqn:Hk; [|reflexivity].
      apply String.eqb_eq in Hk. subst k.
      rewrite (has_key_formal _ _ _ Hkey), String.eqb_refl in Hc.
      cbn in Hc. rewrite Hc. cbn. rewrite andb_false_r. reflexivity.
Qed.


Section CommandFacts.
Context {E : External}.

(** The parameter list of the initialized Command. *)
Lemma _initialize_command_parameters method cmd :
  _initialize_command method = Ok cmd ->
  cmd_parameters cmd =
  merge_signature (declared_parameters method) (fn_signature method).
Proof.
  unfold _initialize_command, declared_parameters.
  destruct (_resolve_display_modifiers _ _ _) as [[[s f] t]|]; [|discriminate].
  cbn [rbind]. intros [= <-]. cbn.
  destruct (fn_command method); reflexivity.
Qed.

End CommandFacts.

(** C4, as stated, fails: the declared Parameter [b] of
    [def cmd(self, a, b=5)] has its unset [optional] set to false although
    the formal parameter [b] declares a default. *)
Lemma defaulted_formal_marks_required :
  declared_parameters sample_method = [new_Parameter (Some "b") None]
  /\ optional (new_Parameter (Some "b") None) = None
  /\ fn_signature sample_method = sample_signature_a_b5
  /\ exists cmd,
      _initialize_command (E := sample_external) sample_method = Ok cmd
      /\ optional <$> cmd_parameters cmd !! 0 = Some (Some false)
      /\ optional <$> cmd_parameters cmd !! 0 <> Some None.
Proof.
  repeat split. eexists. split; [reflexivity|].
  split; [reflexivity|discriminate].
Qed.

(** C4, amended: during signature merging, a declared Parameter whose
    [optional] flag is unset gets [optional = false] exactly when its key
    names a formal parameter of the callable (required or defaulted) and
    it is the first declared Parameter with that key; otherwise it is left
    as declared. *)
Theorem declared_optional_after_merge {E : External}
        (method : Method) (cmd : Command) (i : nat) (p : Param) :
  _initialize_command method = Ok cmd ->
  declared_parameters method !! i = Some p ->
  optional p = None ->
  cmd_parameters cmd !! i =
  Some (if names_a_formal (fn_signature method) p
           && found_by_key (declared_parameters method) i p
        then set_optional (Some false) p
        else p).
Proof.
  intros Hcmd Hi Hopt.
  rewrite (_initialize_command_parameters _ _ Hcmd).
  rewrite (merge_signature_lookup _ _ _ _ Hi).
  unfold require. rewrite Hopt. reflexivity.
Qed.

Lemma declared_optional_after_merge_witness :
  exists cmd,
    _initialize_command (E := sample_external) sample_method = Ok cmd
    /\ cmd_parameters cmd !! 0
       = Some (set_optional (Some false) (new_Parameter (Some "b") None)).
Proof.
  eexists. split; [reflexivity|].
  exact (declared_optional_after_merge (E := sample_external)
           sample_method _ 0 (new_Parameter (Some "b") None)
           eq_refl eq_refl eq_refl).
Defined.

(* ===================================================================== *)
(** * Keys of the emitted Commands                                        *)
(* ===================================================================== *)

(** What holds of every result of every turn holds of every result of the
    loop. *)
Lemma flat_for_each_Forall {A B} (f : A -> result (list B)) (P : B -> Prop)
      (l : list A) (r : list B) :
  (forall a bs, In a l -> f a = Ok bs -> Forall P bs) ->
  flat_for_each f l = Ok r -> Forall P r.
Proof.
  revert r. induction l as [|a l IH]; intros r Hf; cbn.
  - intros [= <-]. constructor.
  - destruct (f a) as [bs|] eqn:Ha; [|discriminate]. cbn [rbind].
    destruct (flat_for_each f l) as [rest|]; [|discriminate].
    intros [= <-]. apply Forall_app. split.
    + apply (Hf a); [left; reflexivity|exact Ha].
    + apply IH; [|reflexivity]. intros a' bs' Hin. apply Hf. right. exact Hin.
Qed.

Section EmittedKeys.
Context {E : External}.



End EmittedKeys.




(* ===================================================================== *)
(** * Nested parameters live under type Dictionary                        *)
(* ===================================================================== *)

Lemma parameter_tree_children (n : Param) (children : list Param) :
  parameters n = map ItemParameter children ->
  parameter_tree n = n :: flat_map parameter_tree children.
Proof.
  intros Hps. unfold parameter_tree at 1. cbn [parameters_below].
  rewrite Hps. f_equal. clear Hps.
  induction children as [|c cs IH]; [reflexivity|].
  cbn [map flat_map]. rewrite IH. reflexivity.
Qed.

Lemma well_nested_intro (n : Param) (children : list Param) :
  parameters n = map ItemParameter children ->
  dictionary_if_nested n ->
  Forall well_nested children ->
  well_nested n.
Proof.
  intros Hps Hn Hchildren. unfold well_nested.
  rewrite (parameter_tree_children _ _ Hps). constructor; [exact Hn|].
  clear Hps Hn.
  induction Hchildren as [|c cs Hc _ IH]; cbn [flat_map]; [constructor|].
  apply Forall_app. split; assumption.
Qed.

Section Invariant.
Context {E : External}.

(** One call of the normalizer establishes the invariant, given that its
    recursive calls do. *)
Lemma initialize_body_well_nested generate (p n : Param) func :
  (forall qs, generate (parameters p) = Ok qs -> Forall well_nested qs) ->
  (forall m qs, model p = Some m -> generate m = Ok qs ->
                Forall well_nested qs) ->
  initialize_body generate p func = Ok n ->
  well_nested n.
Proof.
  intros Hnested Hmodel. rewrite initialize_body_steps.
  destruct (scalar_steps p func) as [q|] eqn:Hq; [|discriminate].
  cbn [rbind]. apply scalar_steps_frame in Hq as (_ & Hps & Hm & _).
  unfold nested_steps.
  destruct (parameters p) as [|it nested] eqn:Hp.
  - destruct (model p) as [m|] eqn:Hmp.
    + destruct (generate m) as [children|] eqn:Hgen; [|discriminate].
      cbn [rbind]. specialize (Hmodel m children eq_refl Hgen).
      destruct (_ && _); intros [= <-];
        (apply (well_nested_intro _ children);
         [reflexivity|intros _; reflexivity|exact Hmodel]).
    + intros [= <-]. apply (well_nested_intro _ []); [exact Hps| |constructor].
      intros Hne. rewrite Hps in Hne. contradiction.
  - destruct (generate (it :: nested)) as [children|] eqn:Hgen; [|discriminate].
    cbn [rbind]. specialize (Hnested children eq_refl).
    intros [= <-].
    apply (well_nested_intro _ children);
      [reflexivity|intros _; reflexivity|exact Hnested].
Qed.

Lemma flat_for_each_generate_well_nested (l : list pitem) :
  Forall (fun it => forall qs, generate_from it = Ok qs ->
                               Forall well_nested qs) l ->
  forall qs, flat_for_each generate_from l = Ok qs -> Forall well_nested qs.
Proof.
  intros Hl qs. apply flat_for_each_Forall.
  intros a bs Hin. rewrite List.Forall_forall in Hl. apply Hl, Hin.
Qed.

(** Everything [_generate_nested_params] returns satisfies the invariant. *)
Lemma generate_from_well_nested (it : pitem) :
  forall qs, generate_from it = Ok qs -> Forall well_nested qs.
Proof.
  induction it as [p IHnested IHmodel|ps IH|v] using pitem_tree_ind;
    intros qs; cbn [generate_from].
  - destruct (initialize_body _ p None) as [n|] eqn:Hn; [|discriminate].
    intros [= <-]. constructor; [|constructor].
    eapply initialize_body_well_nested; [| |exact Hn].
    + apply flat_for_each_generate_well_nested, IHnested.
    + intros m qs Hm. apply flat_for_each_generate_well_nested.
      apply (IHmodel m Hm).
  - apply flat_for_each_generate_well_nested, IH.
  - discriminate.
Qed.

Lemma _generate_nested_params_well_nested (l : list pitem) qs :
  _generate_nested_params l = Ok qs -> Forall well_nested qs.
Proof.
  apply flat_for_each_Forall. intros it bs _. apply generate_from_well_nested.
Qed.

Lemma _initialize_parameter_well_nested (p n : Param) func :
  _initialize_parameter p func = Ok n -> well_nested n.
Proof.
  apply initialize_body_well_nested.
  - intros qs. apply _generate_nested_params_well_nested.
  - intros m qs _. apply _generate_nested_params_well_nested.
Qed.

Lemma for_each_initialize_well_nested func (ps qs : list Param) :
  for_each (fun p => _initialize_parameter p func) ps = Ok qs ->
  Forall well_nested qs.
Proof.
  revert qs. induction ps as [|p ps IH]; intros qs; cbn.
  - intros [= <-]. constructor.
  - destruct (_initialize_parameter p func) as [q|] eqn:Hq; [|discriminate].
    cbn [rbind]. destruct (for_each _ ps) as [qs'|]; [|discriminate].
    intros [= <-]. constructor.
    + eapply _initialize_parameter_well_nested, Hq.
    + apply IH. reflexivity.
Qed.

End Invariant.

(** C8: in every Command the compiler emits, every Parameter of the
    parameter tree (top-level, nested, or expanded from a model) that has a
    non-empty parameters list has type Dictionary. *)
Theorem nested_parameters_have_type_dictionary {E : External}
        (client : list attribute) (cmds : list Command) :
  parse_client client = Ok cmds ->
  forall cmd top p,
    In cmd cmds -> In top (cmd_parameters cmd) -> In p (parameter_tree top) ->
    parameters p <> [] -> type p = TStr "Dictionary".
Proof.
  intros Hparse cmd top p Hcmd Htop Hp.
  assert (Forall (fun cmd => Forall well_nested (cmd_parameters cmd)) cmds)
    as Hall.
  { revert Hparse. unfold parse_client. apply flat_for_each_Forall.
    intros [method|] bs _; cbn [parse_attribute];
      [|intros [= <-]; constructor].
    destruct (_ || _); [|intros [= <-]; constructor].
    destruct (_initialize_command method) as [c|]; [|discriminate].
    cbn [rbind]. destruct (for_each _ _) as [ps|] eqn:Hps; [|discriminate].
    intros [= <-]. constructor; [|constructor].
    cbn [cmd_parameters set_cmd_parameters].
    eapply for_each_initialize_well_nested, Hps. }
  rewrite List.Forall_forall in Hall. specialize (Hall cmd Hcmd).
  rewrite List.Forall_forall in Hall. specialize (Hall top Htop).
  unfold well_nested in Hall. rewrite List.Forall_forall in Hall.
  exact (Hall p Hp).
Qed.

Lemma nested_parameters_have_type_dictionary_witness :
  exists cmd outer inner,
    parse_client (E := sample_external) sample_nested_client = Ok [cmd]
    /\ cmd_parameters cmd = [outer]
    /\ parameters outer = [ItemParameter inner]
    /\ length (parameters inner) = 3
    /\ type outer = TStr "Dictionary"
    /\ type inner = TStr "Dictionary".
Proof.
  eexists; eexists; eexists.
  split; [vm_compute; reflexivity|].
  split; [reflexivity|]. split; [reflexivity|]. split; [reflexivity|].
  split.
  - eapply (nested_parameters_have_type_dictionary (E := sample_external)
              sample_nested_client _ eq_refl).
    + left. reflexivity.
    + left. reflexivity.
    + left. reflexivity.
    + discriminate.
  - eapply (nested_parameters_have_type_dictionary (E := sample_external)
              sample_nested_client _ eq_refl).
    + left. reflexivity.
    + left. reflexivity.
    + right. left. reflexivity.
    + discriminate.
Defined.

(* ===================================================================== *)
(** * The normalizer on one Parameter                                     *)
(* ===================================================================== *)

Ltac expose :=
  cbn [key type multi display_name optional default description choices
       parameters nullable maximum minimum regex form_input_type type_info
       is_kwarg model set_type set_optional set_default set_choices
       set_type_info set_parameters set_model
       type_is andb negb rbind choices_attr_of].

Section NormalizerSteps.
Context {E : External}.

Lemma truthy_not_None d : truthy d = true -> is_None d = false.
Proof. destruct d; (discriminate || reflexivity). Qed.

(** Assigning to an attribute the value it has changes nothing. *)
Lemma set_type_same (n : Param) t : type n = t -> set_type t n = n.
Proof. intros <-. destruct n; reflexivity. Qed.
Lemma set_choices_same (n : Param) c : choices n = c -> set_choices c n = n.
Proof. intros <-. destruct n; reflexivity. Qed.
Lemma set_default_same (n : Param) d : default n = d -> set_default d n = n.
Proof. intros <-. destruct n; reflexivity. Qed.
Lemma set_type_info_same (n : Param) v :
  type_info n = v -> set_type_info v n = n.
Proof. intros <-. destruct n; reflexivity. Qed.
Lemma set_parameters_same (n : Param) ps :
  parameters n = ps -> set_parameters ps n = n.
Proof. intros <-. destruct n; reflexivity. Qed.

Lemma scalar_steps_type (p q : Param) func :
  scalar_steps p func = Ok q ->
  type q = TStr (_format_type (type p)).
Proof.
  unfold scalar_steps.
  destruct (key p); [|discriminate]. expose.
  destruct (_format_choices (choices p)); [|discriminate]. expose.
  destruct func as [sig|]; expose.
  - destruct (_validate_kwargness sig _); [|discriminate]. expose.
    destruct (_ && _); expose;
      destruct (String.eqb _ "Bytes"); expose;
      destruct (String.eqb _ "Base64"); intros [= <-]; reflexivity.
  - destruct (String.eqb _ "Bytes"); expose;
      destruct (String.eqb _ "Base64"); intros [= <-]; reflexivity.
Qed.

(** The default the scalar steps leave: none for a Base64 type, otherwise
    the default of the formal parameter when that is truthy and the
    Parameter has none, otherwise the Parameter's own. *)
Lemma scalar_steps_outcome (p q : Param) func :
  scalar_steps p func = Ok q ->
  exists d,
    match func with
    | Some sig => _validate_kwargness sig p = Ok d
    | None => d = VNone
    end
    /\ default q
       = if String.eqb (_format_type (type p)) "Base64" then VNone
         else if truthy d && is_None (default p) then d else default p.
Proof.
  unfold scalar_steps.
  destruct (key p) eqn:Hkey; [|discriminate]. expose.
  destruct (_format_choices (choices p)) as [formatted|]; [|discriminate].
  expose. destruct func as [sig|]; expose.
  - erewrite _validate_kwargness_reads by (fields; reflexivity).
    destruct (_validate_kwargness sig p) as [d|] eqn:Hd; [|discriminate].
    expose.
    destruct (truthy d && is_None (default p)) eqn:Had; expose;
      destruct (String.eqb (_format_type (type p)) "Bytes"); expose;
      destruct (String.eqb (_format_type (type p)) "Base64");
      intros [= <-]; exists d; rewrite ?Had; split; reflexivity.
  - destruct (String.eqb (_format_type (type p)) "Bytes"); expose;
      destruct (String.eqb (_format_type (type p)) "Base64");
      intros [= <-]; exists VNone; split; reflexivity.
Qed.

(** The default the nested steps leave: the one they found, unless that
    one is falsy. *)
Lemma nested_steps_default generate nested nested_model (q n : Param) :
  nested_steps generate nested nested_model q = Ok n ->
  default n = default q \/ truthy (default q) = false.
Proof.
  unfold nested_steps.
  destruct nested as [|it nested]; [destruct nested_model as [m|]|].
  - destruct (generate m) as [children|]; [|discriminate]. cbn [rbind].
    fields. destruct (truthy (default q)); [|auto].
    rewrite andb_false_r. intros [= <-]. left. reflexivity.
  - intros [= <-]. left. reflexivity.
  - destruct (generate _) as [children|]; [|discriminate].
    intros [= <-]. left. reflexivity.
Qed.

End NormalizerSteps.

(* ===================================================================== *)
(** * What normalization settles in every Parameter of the tree           *)
(* ===================================================================== *)

Section NodeFacts.
Context {E : External}.

(** Everything the scalar steps do, by cases. *)
Ltac scalar_cases p func :=
  unfold scalar_steps;
  destruct (key p) eqn:?Hkey; [|discriminate]; expose;
  destruct (_format_choices (choices p)) as [formatted|] eqn:?Hformat;
    [|discriminate]; expose;
  destruct func as [sig|]; expose;
  [ destruct (_validate_kwargness sig _) as [func_default|]; [|discriminate];
    expose; destruct (truthy func_default && is_None (default p)); expose
  | ];
  (destruct (String.eqb (_format_type (type p)) "Bytes") eqn:?HB; expose;
   destruct (String.eqb (_format_type (type p)) "Base64") eqn:?H64;
   intros [= <-]; expose).

Lemma scalar_steps_declaration (p q : Param) func :
  scalar_steps p func = Ok q -> same_declaration p q.
Proof.
  scalar_cases p func; unfold same_declaration; fields;
    rewrite ?Hkey; repeat split; reflexivity.
Qed.

Lemma scalar_steps_choices (p q : Param) func :
  scalar_steps p func = Ok q ->
  exists formatted,
    _format_choices (choices p) = Ok formatted
    /\ choices q = choices_attr_of formatted.
Proof.
  scalar_cases p func; eexists; split; reflexivity.
Qed.

Lemma scalar_steps_file_safe (p q : Param) func :
  scalar_steps p func = Ok q -> file_safe_node q.
Proof.
  scalar_cases p func; unfold file_safe_node; fields;
    (split; intros [= Heq]; try reflexivity;
     rewrite Heq in *; discriminate).
Qed.

Lemma nested_steps_declaration generate nested nested_model (q n : Param) :
  nested_steps generate nested nested_model q = Ok n -> same_declaration q n.
Proof.
  unfold nested_steps.
  destruct nested as [|it nested]; [destruct nested_model as [m|]|].
  - destruct (generate m) as [children|]; [|discriminate]. cbn [rbind].
    destruct (_ && _); intros [= <-]; unfold same_declaration; fields;
      repeat split; reflexivity.
  - intros [= <-]. unfold same_declaration. repeat split; reflexivity.
  - destruct (generate _) as [children|]; [|discriminate].
    intros [= <-]. unfold same_declaration. fields. repeat split; reflexivity.
Qed.

(** The nested steps either leave the Parameter as it is, without nested
    parameters, or make it a Dictionary over generated children. *)
Lemma nested_steps_shape generate nested nested_model (q n : Param) :
  nested_steps generate nested nested_model q = Ok n ->
  (nested = [] /\ nested_model = None /\ n = q)
  \/ (type n = TStr "Dictionary"
      /\ exists children,
          parameters n = map ItemParameter children
          /\ (generate nested = Ok children
              \/ exists m, nested_model = Some m
                           /\ generate m = Ok children)).
Proof.
  unfold nested_steps.
  destruct nested as [|it nested]; [destruct nested_model as [m|]|].
  - destruct (generate m) as [children|] eqn:Hgen; [|discriminate].
    cbn [rbind].
    destruct (_ && _); intros [= <-]; right; (split; [reflexivity|]);
      exists children; (split; [reflexivity|]); right; exists m; auto.
  - intros [= <-]. left. auto.
  - destruct (generate _) as [children|] eqn:Hgen; [|discriminate].
    intros [= <-]. right. split; [reflexivity|].
    exists children. split; [reflexivity|]. left. reflexivity.
Qed.

Lemma initialize_body_resolved_node generate (p n : Param) func :
  initialize_body generate p func = Ok n -> resolved_node n.
Proof.
  intros Hn. pose proof (initialize_body_frame _ _ _ _ Hn) as (_ & _ & Hkey).
  rewrite initialize_body_steps in Hn.
  destruct (scalar_steps p func) as [q|] eqn:Hq; [|discriminate].
  cbn [rbind] in Hn.
  destruct (scalar_steps_choices _ _ _ Hq) as (formatted & _ & Hchoices).
  pose proof (scalar_steps_type _ _ _ Hq) as Htype.
  destruct (nested_steps_frame _ _ _ _ _ Hn) as (_ & _ & _ & _ & _ & Hch & _).
  split; [exact Hkey|]. split.
  - destruct (nested_steps_shape _ _ _ _ _ Hn) as [(_ & _ & ->) | (Hd & _)].
    + eexists. exact Htype.
    + exists "Dictionary". exact Hd.
  - rewrite Hch, Hchoices. destruct formatted as [c|]; cbn; eauto.
Qed.

Lemma initialize_body_formatted_tag generate (p n : Param) func :
  initialize_body generate p func = Ok n -> formatted_tag n.
Proof.
  rewrite initialize_body_steps.
  destruct (scalar_steps p func) as [q|] eqn:Hq; [|discriminate].
  cbn [rbind]. intros Hn.
  destruct (nested_steps_shape _ _ _ _ _ Hn) as [(_ & _ & ->) | (Hd & _)].
  - exists (type p). eapply scalar_steps_type, Hq.
  - exists (TStr "Dictionary"). rewrite Hd. reflexivity.
Qed.

Lemma initialize_body_file_safe_node generate (p n : Param) func :
  initialize_body generate p func = Ok n -> file_safe_node n.
Proof.
  rewrite initialize_body_steps.
  destruct (scalar_steps p func) as [q|] eqn:Hq; [|discriminate].
  cbn [rbind]. intros Hn.
  destruct (nested_steps_shape _ _ _ _ _ Hn) as [(_ & _ & ->) | (Hd & _)].
  - eapply scalar_steps_file_safe, Hq.
  - split; rewrite Hd; discriminate.
Qed.

Lemma initialize_body_declaration generate (p n : Param) func :
  initialize_body generate p func = Ok n -> same_declaration p n.
Proof.
  rewrite initialize_body_steps.
  destruct (scalar_steps p func) as [q|] eqn:Hq; [|discriminate].
  cbn [rbind]. intros Hn.
  apply scalar_steps_declaration in Hq. apply nested_steps_declaration in Hn.
  unfold same_declaration in *.
  destruct Hq as (? & ? & ? & ? & ? & ? & ? & ? & ? & ? & ? & ?).
  destruct Hn as (? & ? & ? & ? & ? & ? & ? & ? & ? & ? & ? & ?).
  repeat split; congruence.
Qed.

(** The children of a normalized Parameter are Parameters that the
    expansion generated. *)
Lemma initialize_body_children generate (p n : Param) func :
  initialize_body generate p func = Ok n ->
  exists children,
    parameters n = map ItemParameter children
    /\ (children = []
        \/ generate (parameters p) = Ok children
        \/ exists m, model p = Some m /\ generate m = Ok children).
Proof.
  rewrite initialize_body_steps.
  destruct (scalar_steps p func) as [q|] eqn:Hq; [|discriminate].
  cbn [rbind]. intros Hn.
  destruct (scalar_steps_frame _ _ _ Hq) as (_ & Hps & _).
  destruct (nested_steps_shape _ _ _ _ _ Hn)
    as [(Hnil & _ & ->) | (_ & children & Hc & Hgen)].
  - exists []. split; [rewrite Hps; exact Hnil|left; reflexivity].
  - exists children. split; [exact Hc|]. right. exact Hgen.
Qed.

(** A property that every call of the normalizer establishes for the
    Parameter it returns holds of every Parameter of the returned tree. *)
Section TreeWide.
Variable Q : Param -> Prop.
Hypothesis Q_established :
  forall generate p func n, initialize_body generate p func = Ok n -> Q n.

Lemma tree_wide_intro (n : Param) (children : list Param) :
  parameters n = map ItemParameter children ->
  Q n ->
  Forall (fun c => Forall Q (parameter_tree c)) children ->
  Forall Q (parameter_tree n).
Proof.
  intros Hps Hn Hchildren.
  rewrite (parameter_tree_children _ _ Hps). constructor; [exact Hn|].
  clear Hps Hn.
  induction Hchildren as [|c cs Hc _ IH]; cbn [flat_map]; [constructor|].
  apply Forall_app. split; assumption.
Qed.

Lemma initialize_body_tree_wide generate (p n : Param) func :
  (forall qs, generate (parameters p) = Ok qs ->
              Forall (fun c => Forall Q (parameter_tree c)) qs) ->
  (forall m qs, model p = Some m -> generate m = Ok qs ->
                Forall (fun c => Forall Q (parameter_tree c)) qs) ->
  initialize_body generate p func = Ok n ->
  Forall Q (parameter_tree n).
Proof.
  intros Hnested Hmodel Hn.
  destruct (initialize_body_children _ _ _ _ Hn)
    as (children & Hps & [-> | [Hgen | (m & Hm & Hgen)]]).
  - apply (tree_wide_intro n []); [exact Hps| |constructor].
    eapply Q_established, Hn.
  - apply (tree_wide_intro n children); [exact Hps| |apply Hnested, Hgen].
    eapply Q_established, Hn.
  - apply (tree_wide_intro n children);
      [exact Hps| |apply (Hmodel m), Hgen; exact Hm].
    eapply Q_established, Hn.
Qed.

Lemma generate_from_tree_wide (it : pitem) :
  forall qs, generate_from it = Ok qs ->
             Forall (fun c => Forall Q (parameter_tree c)) qs.
Proof.
  induction it as [p IHnested IHmodel|ps IH|v] using pitem_tree_ind;
    intros qs; cbn [generate_from].
  - destruct (initialize_body _ p None) as [n|] eqn:Hn; [|discriminate].
    intros [= <-]. constructor; [|constructor].
    eapply initialize_body_tree_wide; [| |exact Hn].
    + intros qs. apply flat_for_each_Forall. intros a bs Hin.
      rewrite List.Forall_forall in IHnested. apply IHnested, Hin.
    + intros m qs Hm. apply flat_for_each_Forall. intros a bs Hin.
      specialize (IHmodel m Hm). rewrite List.Forall_forall in IHmodel.
      apply IHmodel, Hin.
  - apply flat_for_each_Forall. intros a bs Hin.
    rewrite List.Forall_forall in IH. apply IH, Hin.
  - discriminate.
Qed.

Lemma _initialize_parameter_tree_wide (p n : Param) func :
  _initialize_parameter p func = Ok n -> Forall Q (parameter_tree n).
Proof.
  apply initialize_body_tree_wide.
  - intros qs. apply flat_for_each_Forall. intros a bs _.
    apply generate_from_tree_wide.
  - intros m qs _. apply flat_for_each_Forall. intros a bs _.
    apply generate_from_tree_wide.
Qed.

End TreeWide.

End NodeFacts.

(* ===================================================================== *)
(** * Normalizing a normalized Parameter                                  *)
(* ===================================================================== *)

Lemma map_ItemParameter_inj (qs rs : list Param) :
  map ItemParameter qs = map ItemParameter rs -> qs = rs.
Proof.
  revert rs. induction qs as [|q qs IH]; intros [|r rs]; cbn;
    try discriminate; [reflexivity|].
  intros [= -> H]. f_equal. apply IH, H.
Qed.

Lemma Forall2_same {A} (R : A -> A -> Prop) (l : list A) :
  Forall2 R l l -> Forall (fun x => R x x) l.
Proof.
  induction l as [|x l IH]; intros H; [constructor|].
  inversion H; subst. constructor; auto.
Qed.

Section Idempotence.
Context {E : External}.

(** Parameters that a nested normalization returns unchanged are returned
    unchanged by [_generate_nested_params]. *)
Lemma _generate_nested_params_stable (qs : list Param) :
  Forall (fun q => _initialize_parameter q None = Ok q) qs ->
  _generate_nested_params (map ItemParameter qs) = Ok qs.
Proof.
  induction 1 as [|q qs Hq _ IH]; [reflexivity|].
  unfold _generate_nested_params in *. cbn [map flat_for_each generate_from].
  change (initialize_body (flat_for_each generate_from) q None)
    with (_initialize_parameter q None).
  rewrite Hq. cbn [rbind]. rewrite IH. reflexivity.
Qed.

(** On a list of Parameters, [_generate_nested_params] normalizes each
    one. *)
Lemma _generate_nested_params_pointwise (qs rs : list Param) :
  _generate_nested_params (map ItemParameter qs) = Ok rs ->
  Forall2 (fun q r => _initialize_parameter q None = Ok r) qs rs.
Proof.
  unfold _generate_nested_params. revert rs.
  induction qs as [|q qs IH]; intros rs;
    cbn [map flat_for_each generate_from].
  - intros [= <-]. constructor.
  - change (initialize_body (flat_for_each generate_from) q None)
      with (_initialize_parameter q None).
    destruct (_initialize_parameter q None) as [r|] eqn:Hr; [|discriminate].
    cbn [rbind].
    destruct (flat_for_each generate_from (map ItemParameter qs))
      as [rest|] eqn:Hrest; [|discriminate].
    cbn [rbind]. intros [= <-]. cbn [app].
    constructor; [exact Hr|apply IH; reflexivity].
Qed.

(** The Parameter a normalization returns has Parameters only in its
    list, and is a Dictionary as soon as it has nested parameters or a
    model. *)
Lemma initialize_body_shape generate (p n : Param) func :
  initialize_body generate p func = Ok n ->
  exists children,
    parameters n = map ItemParameter children
    /\ (parameters n <> [] \/ model n <> None -> type n = TStr "Dictionary").
Proof.
  intros Hn. pose proof Hn as Hn'. rewrite initialize_body_steps in Hn'.
  destruct (scalar_steps p func) as [q|] eqn:Hq; [|discriminate].
  cbn [rbind] in Hn'.
  destruct (scalar_steps_frame _ _ _ Hq) as (_ & Hps & Hm & _).
  destruct (nested_steps_shape _ _ _ _ _ Hn')
    as [(Hnil & Hnone & ->) | (Hd & children & Hc & _)].
  - exists []. rewrite Hps, Hm. split; [exact Hnil|].
    intros [H | H]; contradiction.
  - exists children. split; [exact Hc|]. intros _. exact Hd.
Qed.

(** A second run of the scalar steps returns its argument. *)
Lemma scalar_steps_fixed (n : Param) func :
  resolved_node n -> file_safe_node n ->
  settled n = true -> offers_no_default func n = true ->
  scalar_steps n func = Ok n.
Proof.
  intros (Hkey & [T HT] & Hch) (Hbytes & Hb64) Hs Ho.
  unfold settled in Hs.
  apply andb_true_iff in Hs as [Hs _].
  apply andb_true_iff in Hs as [Hc Htype].
  apply negb_true_iff in Hc. rewrite HT in Htype.
  apply String.eqb_eq in Htype.
  assert (Hraw : choices n = RawChoices VNone).
  { destruct Hch as [H | [c H]]; [exact H|]. rewrite H in Hc. discriminate. }
  unfold scalar_steps.
  destruct (key n) as [k|]; [|discriminate].
  rewrite HT, Htype, (set_type_same _ _ HT).
  rewrite Hraw. cbn [_format_choices truthy negb rbind choices_attr_of].
  rewrite (set_choices_same _ _ Hraw).
  assert (Hfix :
    Ok (if type_is
             (type (if type_is (type n) "Bytes"
                    then set_type_info gridfs n else n)) "Base64"
        then set_default VNone
               (if type_is (type n) "Bytes" then set_type_info gridfs n else n)
        else if type_is (type n) "Bytes" then set_type_info gridfs n else n)
    = Ok n).
  { rewrite HT. cbn [type_is].
    destruct (String.eqb T "Bytes") eqn:HB.
    - apply String.eqb_eq in HB. subst T.
      rewrite (set_type_info_same _ _ (Hbytes HT)).
      rewrite HT. reflexivity.
    - rewrite HT. cbn [type_is].
      destruct (String.eqb T "Base64") eqn:H64; [|reflexivity].
      apply String.eqb_eq in H64. subst T.
      rewrite (set_default_same _ _ (Hb64 HT)). reflexivity. }
  destruct func as [sig|]; cbn [rbind]; [|exact Hfix].
  unfold offers_no_default in Ho.
  destruct (_validate_kwargness sig n) as [d|]; [|discriminate].
  cbn [rbind].
  destruct (truthy d && is_None (default n)) eqn:Had; [|exact Hfix].
  cbn [negb orb] in Ho. rewrite HT in Ho. cbn [type_is] in Ho.
  apply String.eqb_eq in Ho. subst T.
  apply andb_true_iff in Had as [_ Hnone].
  expose. rewrite HT. cbn [type_is String.eqb Ascii.eqb Bool.eqb].
  expose. rewrite HT. cbn [type_is String.eqb Ascii.eqb Bool.eqb].
  destruct n; cbn in *. destruct default0; try discriminate. reflexivity.
Qed.

(** A second normalization returns its argument when the Parameter is
    settled and a second expansion of its children returns them. *)
Lemma second_pass_fixed (n : Param) func children :
  resolved_node n -> file_safe_node n ->
  parameters n = map ItemParameter children ->
  (parameters n <> [] \/ model n <> None -> type n = TStr "Dictionary") ->
  settled n = true -> offers_no_default func n = true ->
  (children <> [] ->
   _generate_nested_params (map ItemParameter children) = Ok children) ->
  _initialize_parameter n func = Ok n.
Proof.
  intros Hres Hsafe Hps Hdict Hs Ho Hgen.
  unfold _initialize_parameter.
  rewrite initialize_body_steps, (scalar_steps_fixed _ _ Hres Hsafe Hs Ho).
  cbn [rbind]. unfold nested_steps, settled in *.
  apply andb_true_iff in Hs as [_ Hshadow].
  destruct (parameters n) as [|it l] eqn:Hpn.
  - destruct (model n) as [m|] eqn:Hm; [|reflexivity].
    destruct (_generate_nested_params m) as [[|c cs]|]; try discriminate.
    cbn [rbind map].
    assert (Hd : type n = TStr "Dictionary")
      by (apply Hdict; right; discriminate).
    destruct n; cbn in *. subst.
    destruct (flag_truthy nullable0); [reflexivity|].
    destruct (truthy default0); [reflexivity|]. cbn in *.
    destruct default0 as [| | | | |[|]]; try discriminate. reflexivity.
  - assert (Hd : type n = TStr "Dictionary")
      by (apply Hdict; left; discriminate).
    rewrite Hps, Hgen by (destruct children; discriminate).
    cbn [rbind]. rewrite <- Hps. destruct n; cbn in *. subst. reflexivity.
Qed.

(** What a second normalization that returns its argument tells about
    that argument. *)
Lemma second_pass_only_if (n : Param) func children :
  resolved_node n ->
  parameters n = map ItemParameter children ->
  _initialize_parameter n func = Ok n ->
  settled n = true /\ offers_no_default func n = true
  /\ (children <> [] ->
      _generate_nested_params (map ItemParameter children) = Ok children).
Proof.
  intros (Hkey & [T HT] & Hch) Hps Hn.
  unfold _initialize_parameter in Hn. rewrite initialize_body_steps in Hn.
  destruct (scalar_steps n func) as [q|] eqn:Hq; [|discriminate].
  cbn [rbind] in Hn.
  pose proof (scalar_steps_type _ _ _ Hq) as Htq.
  destruct (scalar_steps_choices _ _ _ Hq) as (formatted & Hformat & Hcq).
  destruct (scalar_steps_outcome _ _ _ Hq) as (d & Hd & Hdq).
  destruct (scalar_steps_frame _ _ _ Hq) as (_ & Hpq & Hmq & Hnq & _).
  destruct (nested_steps_frame _ _ _ _ _ Hn)
    as (_ & _ & Hnn & _ & _ & Hcn & _).
  pose proof (nested_steps_default _ _ _ _ _ Hn) as Hdn.
  pose proof (nested_steps_shape _ _ _ _ _ Hn) as Hshape.
  (* the type tag is a fixed point *)
  assert (Htype : _format_type (TStr T) = T
                  /\ (String.eqb (_format_type (TStr T)) "Base64" = true ->
                      type_is (type n) "Base64" = true)).
  { destruct Hshape as [(_ & _ & Heq) | (Hdict & _)].
    - rewrite <- Heq, HT in Htq. injection Htq as Htq.
      split; [symmetry; exact Htq|]. intros H. rewrite HT. cbn [type_is].
      rewrite Htq. exact H.
    - rewrite HT in Hdict. injection Hdict as ->.
      split; [reflexivity|discriminate]. }
  destruct Htype as [Htype H64].
  (* no Choices *)
  assert (Hraw : choices n = RawChoices VNone).
  { destruct Hch as [H | [c H]]; [exact H|].
    rewrite H in Hformat. discriminate. }
  split; [|split].
  - unfold settled. rewrite Hraw, HT, Htype, String.eqb_refl.
    cbn [choices_truthy truthy negb andb].
    destruct (parameters n) as [|it l] eqn:Hpn; [|reflexivity].
    destruct (model n) as [m|] eqn:Hm; [|reflexivity].
    unfold nested_steps in Hn.
    destruct (_generate_nested_params m) as [ch|]; [|discriminate].
    cbn [rbind] in Hn. fields.
    destruct (negb (flag_truthy (nullable q)) && negb (truthy (default q)))
      eqn:Hcond; injection Hn as Hn.
    + pose proof (f_equal parameters Hn) as H1.
      pose proof (f_equal default Hn) as H2. fields.
      rewrite Hpn in H1. destruct ch; [|discriminate].
      rewrite <- H2. rewrite !orb_true_r. reflexivity.
    + pose proof (f_equal parameters Hn) as H1.
      pose proof (f_equal default Hn) as H2.
      pose proof (f_equal nullable Hn) as H3. fields.
      rewrite Hpn in H1. destruct ch; [|discriminate].
      rewrite <- H2, <- H3.
      destruct (flag_truthy (nullable q)); [reflexivity|].
      destruct (truthy (default q)); [reflexivity|discriminate].
  - unfold offers_no_default. destruct func as [sig|]; [|reflexivity].
    rewrite Hd.
    destruct (truthy d && is_None (default n)) eqn:Had; [|reflexivity].
    cbn [negb orb].
    destruct (type_is (type n) "Base64") eqn:Hnot; [reflexivity|exfalso].
    rewrite HT in Hdq.
    destruct (String.eqb (_format_type (TStr T)) "Base64") eqn:Hb.
    { discriminate (H64 eq_refl). }
    try rewrite Had in Hdq.
    apply andb_true_iff in Had as [Ht Hnone].
    destruct Hdn as [Hdn | Hdn].
    + rewrite Hdq in Hdn. rewrite Hdn in Hnone.
      rewrite (truthy_not_None _ Ht) in Hnone. discriminate.
    + rewrite Hdq, Ht in Hdn. discriminate.
  - intros Hne. unfold nested_steps in Hn.
    destruct (parameters n) as [|it l] eqn:Hpn;
      [destruct children; [contradiction|discriminate]|].
    destruct (_generate_nested_params (it :: l)) as [ch|] eqn:Hgen;
      [|discriminate].
    injection Hn as Hn. pose proof (f_equal parameters Hn) as H1. fields.
    rewrite Hpn, Hps in H1. apply map_ItemParameter_inj in H1. subst ch.
    rewrite <- Hps. exact Hgen.
Qed.

(** The two directions together, for a Parameter whose children the
    equivalence is known of. *)
Lemma renormalization_at_node (p n : Param) func :
  _initialize_parameter p func = Ok n ->
  (forall l children,
      l = parameters p \/ model p = Some l ->
      _generate_nested_params l = Ok children ->
      Forall (fun c => _initialize_parameter c None = Ok c
                       <-> Forall (fun q => settled q = true)
                                  (parameter_tree c)) children) ->
  _initialize_parameter n func = Ok n
  <-> Forall (fun q => settled q = true) (parameter_tree n)
      /\ offers_no_default func n = true.
Proof.
  intros Hn Hbelow.
  pose proof (initialize_body_resolved_node _ _ _ _ Hn) as Hres.
  pose proof (initialize_body_file_safe_node _ _ _ _ Hn) as Hsafe.
  destruct (initialize_body_shape _ _ _ _ Hn) as (children_ & Hps_ & Hdict).
  destruct (initialize_body_children _ _ _ _ Hn)
    as (children & Hps & Hfrom).
  assert (Hiff : Forall (fun c => _initialize_parameter c None = Ok c
                                  <-> Forall (fun q => settled q = true)
                                             (parameter_tree c)) children).
  { destruct Hfrom as [-> | [Hgen | (m & Hm & Hgen)]]; [constructor| |].
    - eapply Hbelow; [left; reflexivity|exact Hgen].
    - eapply Hbelow; [right; exact Hm|exact Hgen]. }
  clear Hbelow Hfrom children_ Hps_.
  rewrite (parameter_tree_children _ _ Hps).
  split.
  - intros Hfixed.
    destruct (second_pass_only_if _ _ _ Hres Hps Hfixed)
      as (Hs & Ho & Hgen).
    split; [|exact Ho]. constructor; [exact Hs|].
    destruct children as [|c cs]; [constructor|].
    specialize (Hgen ltac:(discriminate)).
    apply _generate_nested_params_pointwise, Forall2_same in Hgen.
    revert Hiff Hgen. generalize (c :: cs). clear.
    induction l as [|x l IH]; intros Hiff Hgen; cbn [flat_map];
      [constructor|].
    apply Forall_cons in Hiff as [Hx Hiff].
    apply Forall_cons in Hgen as [Hgx Hgen].
    apply Forall_app. split; [apply Hx, Hgx|apply IH; assumption].
  - intros [Hall Ho]. apply Forall_cons in Hall as [Hs Hall].
    apply (second_pass_fixed n func children); try assumption.
    intros _. apply _generate_nested_params_stable.
    revert Hiff Hall. clear.
    induction children as [|x l IH]; intros Hiff Hall; [constructor|].
    cbn [flat_map] in Hall. apply Forall_app in Hall as [Hx Hall].
    apply Forall_cons in Hiff as [Hix Hiff].
    constructor; [apply Hix, Hx|apply IH; assumption].
Qed.

(** The equivalence for every Parameter a nested expansion generates. *)
Lemma generate_from_renormalization (it : pitem) :
  forall qs, generate_from it = Ok qs ->
             Forall (fun c => _initialize_parameter c None = Ok c
                              <-> Forall (fun q => settled q = true)
                                         (parameter_tree c)) qs.
Proof.
  induction it as [p IHnested IHmodel|ps IH|v] using pitem_tree_ind;
    intros qs; cbn [generate_from].
  - destruct (initialize_body _ p None) as [n|] eqn:Hn; [|discriminate].
    intros [= <-]. constructor; [|constructor].
    assert (Hiff := renormalization_at_node p n None Hn).
    cbn [offers_no_default] in Hiff.
    rewrite Hiff.
    + split; [intros [H _]; exact H|intros H; split; [exact H|reflexivity]].
    + intros l children [-> | Hm].
      * apply flat_for_each_Forall. intros a bs Hin.
        rewrite List.Forall_forall in IHnested. apply IHnested, Hin.
      * apply flat_for_each_Forall. intros a bs Hin.
        specialize (IHmodel l Hm). rewrite List.Forall_forall in IHmodel.
        apply IHmodel, Hin.
  - apply flat_for_each_Forall. intros a bs Hin.
    rewrite List.Forall_forall in IH. apply IH, Hin.
  - discriminate.
Qed.

End Idempotence.

(** C5, as stated, fails: the Parameter with choices [["a", "b"]]
    normalizes to a Parameter holding resolved Choices, and normalizing
    that result raises an error. *)
Lemma resolved_choices_rejected_on_renormalization :
  exists n c,
    _initialize_parameter (E := sample_external) sample_choices_parameter None
    = Ok n
    /\ choices n = ResolvedChoices c
    /\ _initialize_parameter (E := sample_external) n None
       = Raise (PluginParamError
                  "Invalid 'choices': must be a string, dictionary, or iterable.")
    /\ _initialize_parameter (E := sample_external) n None <> Ok n.
Proof.
  eexists; eexists. split; [reflexivity|]. split; [reflexivity|].
  split; [reflexivity|discriminate].
Qed.

(** A model shadowed by a nested list that expands to nothing is expanded
    by the second normalization. *)
Lemma shadowed_model_expanded_on_renormalization :
  exists n n',
    _initialize_parameter (E := sample_external)
      sample_shadowed_model_parameter None = Ok n
    /\ parameters n = []
    /\ _initialize_parameter (E := sample_external) n None = Ok n'
    /\ length (parameters n') = 3.
Proof.
  eexists; eexists. split; [vm_compute; reflexivity|].
  split; [reflexivity|]. split; [vm_compute; reflexivity|reflexivity].
Qed.

(** A nested Base64 Parameter loses the default of its formal parameter in
    the first normalization and adopts it in the second. *)
Lemma nested_base64_default_adopted_on_renormalization :
  exists n n',
    _initialize_parameter (E := sample_external) sample_base64_parameter
      (Some sample_signature_b7) = Ok n
    /\ default n = VNone
    /\ _initialize_parameter (E := sample_external) n
         (Some sample_signature_b7) = Ok n'
    /\ default n' = VInt 7.
Proof.
  eexists; eexists. split; [vm_compute; reflexivity|].
  split; [reflexivity|]. split; [vm_compute; reflexivity|reflexivity].
Qed.

(** C5, amended: normalization is idempotent exactly on settled results.
    If normalizing a raw Parameter, against a callable or none, yields [n],
    then normalizing [n] again against the same callable succeeds and
    yields [n] unchanged if and only if every Parameter of [n] is settled
    and the callable offers [n] no default.  A Parameter is settled when it
    holds no Choices, when formatting leaves its type tag as it is (as it
    does every tag formatted from an ASCII type name,
    [_format_type_idempotent]) and when, having a model and an empty
    parameter list, its model expands to no Parameter and it is nullable or
    has a truthy default or the default [{}].  No default is offered to
    [n] when there is no callable, or when [_validate_kwargness] accepts
    [n] and the default it returns is falsy, or [n] has a default already,
    or the type of [n] is Base64. *)
Theorem renormalization_returns_settled_results {E : External}
        (p n : Param) (func : option signature) :
  _initialize_parameter p func = Ok n ->
  _initialize_parameter n func = Ok n
  <-> Forall (fun q => settled q = true) (parameter_tree n)
      /\ offers_no_default func n = true.
Proof.
  intros Hn. apply (renormalization_at_node p n func Hn).
  intros l children _. apply flat_for_each_Forall. intros a bs _.
  apply generate_from_renormalization.
Qed.

Lemma renormalization_returns_settled_results_witness :
  exists n,
    _initialize_parameter (E := sample_external) sample_nested_parameter
      (Some [mkSig "outer" POSITIONAL_OR_KEYWORD (Some (VInt 3))]) = Ok n
    /\ default n = VInt 3
    /\ _initialize_parameter (E := sample_external) n
         (Some [mkSig "outer" POSITIONAL_OR_KEYWORD (Some (VInt 3))]) = Ok n.
Proof.
  eexists. split; [vm_compute; reflexivity|]. split; [reflexivity|].
  match goal with
  | |- _initialize_parameter ?n ?func = _ =>
      assert (H : _initialize_parameter (E := sample_external)
                    sample_nested_parameter func = Ok n)
        by (vm_compute; reflexivity);
      apply (proj2 (renormalization_returns_settled_results
                      (E := sample_external) _ _ _ H))
  end.
  split; [repeat constructor|reflexivity].
Defined.

(* ===================================================================== *)
(** * The two layers on a sample                                          *)
(* ===================================================================== *)

(** On the annotated [echo], the two layers compute the same Command: the
    same name and one Parameter with the same attributes. *)
Lemma layers_agree_on_sample :
  exists cmd p h1 c o,
    parse_client (E := sample_external) [a_method sample_echo] = Ok [cmd]
    /\ cmd_parameters cmd = [p]
    /\ Store.parse_client (E := sample_external) 10 [0] sample_store
       = (Ok [2], h1)
    /\ h1 !! 2 = Some (Store.OCommand c)
    /\ cmd_parameters c = [1]
    /\ h1 !! 1 = Some (Store.OParameter o)
    /\ cmd_name c = cmd_name cmd
    /\ scalar_view o = scalar_view p.
Proof.
  do 5 eexists. split; [vm_compute; reflexivity|].
  split; [reflexivity|]. split; [vm_compute; reflexivity|].
  split; [reflexivity|]. split; [reflexivity|]. split; [reflexivity|].
  split; reflexivity.
Qed.

(* ===================================================================== *)
(** * Object layer: what the decorators do to a function                  *)
(* ===================================================================== *)

Module StoreFacts.
Import Store.
Local Open Scope store_scope.

Lemma read_at (h : store) l o : h !! l = Some o -> read l h = (Ok o, h).
Proof. unfold read. intros ->. reflexivity. Qed.

Lemma update_function_at (h : store) l f g :
  h !! l = Some (OFunction f) ->
  update_function l g h = (Ok tt, <[l := OFunction (g f)]> h).
Proof.
  intros Hl. unfold update_function, get_function, bind.
  rewrite (read_at _ _ _ Hl). reflexivity.
Qed.

(** C10: applied to a function object, [command] and [parameter] return
    that same object.  After [command], the function has the same name,
    docstring, signature, code and [parameters] attribute, its [_command]
    attribute is a new Command object built from the arguments, and
    nothing else in the store has changed; after [parameter], the function
    has the same name, docstring, signature, code and [_command] attribute,
    its [parameters] attribute is the list it had (the empty list when it
    had none) followed by one new Parameter object built from the
    arguments, and nothing else in the store has changed. *)
Theorem decorators_return_the_function
        (h : store) (_wrapped : loc) (f : FunctionObj) :
  h !! _wrapped = Some (OFunction f) ->
  (forall description parameters command_type output_type schema form
          template icon_name hidden,
      command _wrapped description parameters command_type output_type
              schema form template icon_name hidden h
      = (Ok _wrapped,
         <[_wrapped :=
             OFunction (mkMethod (fn_name f) (fn_doc f) (fn_signature f)
                                 (fn_code f) (Some (length h))
                                 (fn_parameters f))]> h
         ++ [OCommand (mkCommand None description parameters command_type
                                 output_type schema form template icon_name
                                 hidden)]))
  /\ (forall kwargs,
        parameter _wrapped kwargs h
        = (Ok _wrapped,
           <[_wrapped :=
               OFunction (mkMethod (fn_name f) (fn_doc f) (fn_signature f)
                                   (fn_code f) (fn_command f)
                                   (Some (match fn_parameters f with
                                          | Some declared => declared
                                          | None => []
                                          end ++ [length h])))]> h
           ++ [OParameter kwargs])).
Proof.
  intros Hf. pose proof (lookup_lt_Some _ _ _ Hf) as Hlt. split.
  - intros. unfold command, bind, alloc.
    rewrite (update_function_at _ _ f) by (rewrite lookup_app_l; assumption).
    rewrite insert_app_l by exact Hlt. reflexivity.
  - intros. unfold parameter, bind, alloc.
    rewrite (update_function_at _ _ f) by exact Hf.
    rewrite length_insert.
    erewrite update_function_at.
    2:{ rewrite lookup_app_l by (rewrite length_insert; exact Hlt).
        apply list_lookup_insert_eq. exact Hlt. }
    rewrite insert_app_l by (rewrite length_insert; exact Hlt).
    rewrite list_insert_insert_eq. reflexivity.
Qed.

Lemma decorators_return_the_function_witness :
  command 0 None [] (Some "ACTION") (Some "STRING") VNone VNone VNone None
          false [OFunction sample_function]
  = (Ok 0,
     [OFunction (mkMethod "echo" None [mkSig "x" POSITIONAL_OR_KEYWORD None]
                          7 (Some 1) None);
      OCommand (mkCommand None None [] (Some "ACTION") (Some "STRING")
                          VNone VNone VNone None false)])
  /\ parameter 0 (new_ParameterRec [] None (Some "x") None)
               [OFunction sample_function]
     = (Ok 0,
        [OFunction (mkMethod "echo" None
                             [mkSig "x" POSITIONAL_OR_KEYWORD None] 7 None
                             (Some [1]));
         OParameter (new_ParameterRec [] None (Some "x") None)]).
Proof.
  destruct (decorators_return_the_function
              [OFunction sample_function] 0 sample_function eq_refl)
    as [Hcommand Hparameter].
  split; [apply Hcommand|apply Hparameter].
Defined.

(* ===================================================================== *)
(** * Object layer: compilation works in place                            *)
(* ===================================================================== *)




















Section ObjectCompiler.
Context {E : External}.




























(** ** Objects that are updated in place *)






















(** ** Objects that a compilation leaves alone *)

















(** ** Commands that a compilation leaves alone *)






(** ** The loop of [parse_client], one attribute at a time *)





End ObjectCompiler.




End StoreFacts.

(* ===================================================================== *)
(** * Canonical type tags                                                 *)
(* ===================================================================== *)

Module TypeTagFacts.
Import PyStr.

Lemma to_upper_to_lower c :
  is_upper c = true -> to_upper (to_lower c) = c.
Proof. PyStrFacts.by_cases_on_char c. Qed.

Lemma to_lower_of_lower c : is_upper c = false -> to_lower c = c.
Proof. unfold to_lower. intros ->. reflexivity. Qed.

Lemma is_upper_to_lower c : is_upper (to_lower c) = false.
Proof. PyStrFacts.by_cases_on_char c. Qed.

Lemma is_lower_to_lower c :
  is_lower (to_lower c) = is_lower c || is_upper c.
Proof. PyStrFacts.by_cases_on_char c. Qed.

(** [title] only looks at the letters, not at their case. *)
Lemma title_from_lower b s : title_from b (lower s) = title_from b s.
Proof.
  revert b; induction s as [|c s IH]; intros b; cbn [lower title_from];
    [reflexivity|].
  rewrite is_lower_to_lower, is_upper_to_lower.
  destruct (is_lower c) eqn:Hl; cbn [orb].
  - rewrite (to_lower_of_lower c (PyStrFacts.lower_not_upper c Hl)), IH.
    reflexivity.
  - destruct (is_upper c) eqn:Hu.
    + rewrite (to_upper_to_lower c Hu), IH. reflexivity.
    + rewrite (to_lower_of_lower c Hu), IH. reflexivity.
Qed.

Lemma truthy_lower s : truthy (lower s) = truthy s.
Proof. destruct s; reflexivity. Qed.

End TypeTagFacts.

Lemma _format_type_truthy {E : External} (t : pytype) :
  PyStr.is_ascii (str_of_type t) = true ->
  PyStr.truthy (_format_type t) = true.
Proof.
  intros Ha. rewrite (_format_type_on_ascii t Ha).
  repeat match goal with
         | |- context [if is_class ?x ?c then _ else _] =>
             destruct (is_class x c); [reflexivity|]
         end.
  destruct (String.eqb _ "file"); [reflexivity|].
  destruct (String.eqb _ "datetime"); [reflexivity|].
  destruct (type_truthy t) eqn:Ht; cbn [negb]; [|reflexivity].
  rewrite PyStrFacts.title_truthy.
  destruct t as [|c|s]; [discriminate|reflexivity|exact Ht].
Qed.

(** X1: for an ASCII type name, the tag [_format_type] returns is never
    empty and is a fixed point: formatting it again gives the same tag. *)
Theorem format_type_canonical {E : External} (t : pytype) :
  PyStr.is_ascii (str_of_type t) = true ->
  PyStr.truthy (_format_type t) = true
  /\ _format_type (TStr (_format_type t)) = _format_type t.
Proof.
  intros Ha.
  split; [apply _format_type_truthy, Ha|apply _format_type_idempotent, Ha].
Qed.

Lemma format_type_canonical_witness :
  _format_type (E := sample_external) (TStr "my type") = "My Type"
  /\ _format_type (E := sample_external)
       (TStr (_format_type (E := sample_external) (TStr "my type")))
     = _format_type (E := sample_external) (TStr "my type").
Proof.
  split; [reflexivity|].
  exact (proj2 (format_type_canonical (E := sample_external)
                  (TStr "my type") eq_refl)).
Defined.

(** X2: on ASCII strings, [_format_type] ignores case: two type names that
    differ only in the case of their letters get the same tag. *)
Theorem format_type_ignores_case {E : External} (s1 s2 : string) :
  PyStr.is_ascii s1 = true ->
  PyStr.is_ascii s2 = true ->
  PyStr.lower s1 = PyStr.lower s2 ->
  _format_type (TStr s1) = _format_type (TStr s2).
Proof.
  intros Ha1 Ha2 Heq.
  rewrite (_format_type_on_ascii (TStr s1) Ha1).
  rewrite (_format_type_on_ascii (TStr s2) Ha2).
  rewrite !is_class_TStr.
  cbn [str_of_type type_truthy]. rewrite Heq.
  rewrite <- (TypeTagFacts.truthy_lower s1), <- (TypeTagFacts.truthy_lower s2).
  unfold PyStr.title.
  rewrite <- (TypeTagFacts.title_from_lower false s1).
  rewrite <- (TypeTagFacts.title_from_lower false s2).
  rewrite Heq. reflexivity.
Qed.

Lemma format_type_ignores_case_witness :
  _format_type (E := sample_external) (TStr "dateTime") = "DateTime"
  /\ _format_type (E := sample_external) (TStr "dateTime")
     = _format_type (E := sample_external) (TStr "DATETIME").
Proof.
  split; [reflexivity|].
  apply (format_type_ignores_case (E := sample_external)
           "dateTime" "DATETIME"); reflexivity.
Defined.

(* ===================================================================== *)
(** * The Choices resolver                                                *)
(* ===================================================================== *)

Section ChoicesFacts.
Context {E : External}.

Lemma in_strs_literal (s : string) (t : list string) :
  in_strs (VStr s) t = true <-> In s t.
Proof.
  unfold in_strs. rewrite existsb_exists. cbn [eq_str]. split.
  - intros (x & Hin & Heq). apply String.eqb_eq in Heq. subst. exact Hin.
  - intros Hin. exists s. split; [exact Hin|apply String.eqb_refl].
Qed.

Lemma determine_display_values v d :
  determine_display v = Ok d -> d = VStr "select" \/ d = VStr "typeahead".
Proof.
  unfold determine_display. destruct (is_string v).
  - intros [= <-]. right. reflexivity.
  - destruct (len v) as [n|]; [|discriminate]. cbn [rbind].
    intros [= <-]. destruct (n <=? 50)%nat; auto.
Qed.

Lemma determine_type_values v :
  In (determine_type v) [VStr "static"; VStr "url"; VStr "command"].
Proof.
  destruct v; cbn; auto. destruct (PyStr.startswith s "http"); auto.
Qed.

(** What the mapping branch returns. *)
Lemma choices_of_dict_inv d value display choice_type strict :
  choices_of_dict d = Ok (value, display, choice_type, strict) ->
  value = Dict.get d "value"
  /\ truthy value = true
  /\ in_strs display Choices_DISPLAYS = true
  /\ strict = Dict.get_default d "strict" (VBool true)
  /\ ((Dict.get d "type" = VNone /\ choice_type = determine_type value)
      \/ (choice_type = Dict.get d "type"
          /\ in_strs choice_type Choices_TYPES = true
          /\ (eq_str choice_type "command" = true ->
              is_string value || is_dict value = true)
          /\ (eq_str choice_type "url" = true -> is_string value = true)
          /\ (eq_str choice_type "static" = true ->
              is_list value || is_dict value = true))).
Proof.
  unfold choices_of_dict.
  destruct (truthy (Dict.get d "value")) eqn:Hv; cbn [negb]; [|discriminate].
  destruct (determine_display _) as [inferred|]; [|discriminate].
  cbn [rbind].
  destruct (is_None (Dict.get d "type")) eqn:Hnone; cbn [rbind].
  - destruct (in_strs _ Choices_DISPLAYS) eqn:Hd; cbn [negb]; [|discriminate].
    intros [= <- <- <- <-]. repeat split; try assumption.
    left. split; [|reflexivity]. destruct (Dict.get d "type"); try discriminate.
    reflexivity.
  - destruct (in_strs (Dict.get d "type") Choices_TYPES) eqn:Ht; cbn [negb];
      [|discriminate].
    destruct (_ || _) eqn:Hshape; [discriminate|]. cbn [rbind].
    destruct (in_strs _ Choices_DISPLAYS) eqn:Hd; cbn [negb]; [|discriminate].
    intros [= <- <- <- <-]. repeat split; try assumption.
    right. apply orb_false_iff in Hshape as [Hshape Hstatic].
    apply orb_false_iff in Hshape as [Hcommand Hurl].
    repeat split; try reflexivity; try assumption.
    + intros H. rewrite H in Hcommand. cbn in Hcommand.
      apply negb_false_iff in Hcommand. exact Hcommand.
    + intros H. rewrite H in Hurl. cbn in Hurl.
      apply negb_false_iff in Hurl. exact Hurl.
    + intros H. rewrite H in Hstatic. cbn in Hstatic.
      apply negb_false_iff in Hstatic. exact Hstatic.
Qed.

End ChoicesFacts.

(** X3: a non-empty list of choices resolves, without the grammar being
    consulted, to static choices with empty details and strict checking;
    they are displayed as a select up to 50 entries and as a typeahead
    beyond. *)
Theorem list_choices_are_static {E : External} (l : list pyval) :
  l <> [] ->
  _format_choices (RawChoices (VList l))
  = Ok (Some (mkChoices (VStr "static")
                        (VStr (if (length l <=? 50)%nat
                               then "select" else "typeahead"))
                        (VList l) (VBool true) (VDict []))).
Proof.
  destruct l as [|x l]; [contradiction|]. intros _. reflexivity.
Qed.

Lemma list_choices_are_static_witness :
  _format_choices (E := sample_external)
    (RawChoices (VList (repeat (VStr "a") 51)))
  = Ok (Some (mkChoices (VStr "static") (VStr "typeahead")
                        (VList (repeat (VStr "a") 51)) (VBool true)
                        (VDict []))).
Proof.
  apply (list_choices_are_static (E := sample_external)
           (repeat (VStr "a") 51)).
  discriminate.
Defined.

(** X4: a non-empty string of choices is a URL when it starts with [http]
    and a command otherwise; it is parsed with the matching grammar, shown
    as a typeahead and strict; a parse error becomes a PluginParamError and
    any other exception of the parser escapes. *)
Theorem string_choices_follow_the_grammar {E : External} (s : string) :
  s <> "" ->
  _format_choices (RawChoices (VStr s))
  = match parse (VStr s)
                (if PyStr.startswith s "http" then as_url else as_func) with
    | Parsed details =>
        Ok (Some (mkChoices
                    (VStr (if PyStr.startswith s "http"
                           then "url" else "command"))
                    (VStr "typeahead") (VStr s) (VBool true) details))
    | ParseError =>
        Raise (PluginParamError
                 "Invalid choices definition - Unable to parse")
    | ParseRaises e => Raise e
    end.
Proof.
  intros Hs. unfold _format_choices.
  assert (truthy (VStr s) = true) as -> by (destruct s; [contradiction|reflexivity]).
  cbn [negb determine_display is_string rbind determine_type].
  unfold choices_details_of.
  destruct (PyStr.startswith s "http"); cbn [eq_str String.eqb Ascii.eqb
    Bool.eqb andb is_string rbind]; unfold try_parse;
    destruct (parse _ _); reflexivity.
Qed.

Lemma string_choices_follow_the_grammar_witness :
  _format_choices (E := sample_external) (RawChoices (VStr "http://host/c"))
  = Ok (Some (mkChoices (VStr "url") (VStr "typeahead")
                        (VStr "http://host/c") (VBool true)
                        (VDict [("raw", VStr "http://host/c")]))).
Proof.
  rewrite (string_choices_follow_the_grammar (E := sample_external)
             "http://host/c") by discriminate.
  reflexivity.
Defined.

(** X5: whatever the raw specification, a resolved Choices has a display
    that is select, typeahead or one of the supported display tags, a type
    that is static, url, command or one of the supported type tags, and a
    non-empty value, with one exception: for a truthy iterable that yields
    nothing (an exhausted iterator, an empty generator) the value is the
    empty list. *)
Theorem resolved_choices_are_well_formed {E : External}
        (raw : choices_attr) (c : Choices) :
  _format_choices raw = Ok (Some c) ->
  (truthy (choices_value c) = true
   \/ (raw = IterableChoices true [] /\ choices_value c = VList []))
  /\ (In (choices_display c) [VStr "select"; VStr "typeahead"]
      \/ in_strs (choices_display c) Choices_DISPLAYS = true)
  /\ (In (choices_type c) [VStr "static"; VStr "url"; VStr "command"]
      \/ in_strs (choices_type c) Choices_TYPES = true).
Proof.
  unfold _format_choices. destruct raw as [v|truth elements|]; [| |discriminate].
  - destruct (truthy v) eqn:Hv; cbn [negb]; [|discriminate].
    destruct v as [| | |s|l|d]; try discriminate.
    + destruct (determine_display (VStr s)) as [display|] eqn:Hd;
        [|discriminate]. cbn [rbind].
      destruct (choices_details_of _ _ _); [|discriminate].
      intros [= <-]. cbn [choices_value choices_display choices_type].
      split; [left; exact Hv|].
      split; [left|left; exact (determine_type_values (VStr s))].
      destruct (determine_display_values _ _ Hd) as [-> | ->]; cbn; auto.
    + destruct (determine_display (VList l)) as [display|] eqn:Hd;
        [|discriminate]. cbn [rbind].
      destruct (choices_details_of _ _ _); [|discriminate].
      intros [= <-]. cbn [choices_value choices_display choices_type].
      split; [left; exact Hv|].
      split; [left|left; exact (determine_type_values (VList l))].
      destruct (determine_display_values _ _ Hd) as [-> | ->]; cbn; auto.
    + destruct (choices_of_dict d) as [[[[value display] choice_type] strict]|]
        eqn:Hdict; [|discriminate]. cbn [rbind].
      destruct (choices_details_of _ _ _); [|discriminate].
      intros [= <-]. cbn [choices_value choices_display choices_type].
      apply choices_of_dict_inv in Hdict
        as (_ & Hvalue & Hdisplay & _ & [[_ ->] | (_ & Htype & _)]).
      * split; [left; exact Hvalue|]. split; [right; exact Hdisplay|].
        left. apply determine_type_values.
      * split; [left; exact Hvalue|]. split; right; assumption.
  - destruct truth; cbn [negb]; [|discriminate].
    destruct (determine_display (VList elements)) as [display|] eqn:Hd;
      [|discriminate]. cbn [rbind].
    destruct (choices_details_of _ _ _); [|discriminate].
    intros [= <-]. cbn [choices_value choices_display choices_type].
    split; [destruct elements; [right; split; reflexivity|left; reflexivity]|].
    split; [left|left; exact (determine_type_values (VList elements))].
    destruct (determine_display_values _ _ Hd) as [-> | ->]; cbn; auto.
Qed.

Lemma resolved_choices_are_well_formed_witness :
  exists c,
    _format_choices (E := sample_external) (IterableChoices true [VInt 1])
    = Ok (Some c)
    /\ (truthy (choices_value c) = true
        \/ (IterableChoices true [VInt 1] = IterableChoices true []
            /\ choices_value c = VList [])).
Proof.
  eexists. split; [reflexivity|].
  eapply (resolved_choices_are_well_formed (E := sample_external)
            (IterableChoices true [VInt 1])).
  reflexivity.
Defined.

(** X6: the default display of a choices mapping is computed from the
    value even when the mapping gives a display, so a non-empty value
    without a length (a number, [True]) makes resolution end in a
    [TypeError], whatever else the mapping holds. *)
Theorem unsized_choices_value_raises_type_error {E : External} (d : Dict.t) :
  truthy (Dict.get d "value") = true ->
  len (Dict.get d "value") = Raise TypeError ->
  _format_choices (RawChoices (VDict d)) = Raise TypeError.
Proof.
  intros Hv Hlen. unfold _format_choices.
  assert (truthy (VDict d) = true) as ->
      by (destruct d; [discriminate Hv|reflexivity]).
  cbn [negb]. unfold choices_of_dict. rewrite Hv. cbn [negb].
  unfold determine_display. rewrite Hlen.
  destruct (Dict.get d "value"); try discriminate; reflexivity.
Qed.

Lemma unsized_choices_value_raises_type_error_witness :
  _format_choices (E := sample_external)
    (RawChoices (VDict sample_choices_unsized)) = Raise TypeError.
Proof.
  apply (unsized_choices_value_raises_type_error (E := sample_external)
           sample_choices_unsized); reflexivity.
Defined.

(** X7: a choices mapping of declared type command whose value is a
    mapping without the entry [command] passes the validation of type,
    shape and display and then fails with a [KeyError], not with a
    PluginParamError. *)
Theorem command_mapping_without_command_raises_key_error
        {E : External} (d v : Dict.t) :
  Dict.get d "type" = VStr "command" ->
  In "command" Choices_TYPES ->
  Dict.get d "value" = VDict v ->
  v <> [] ->
  Dict.lookup v "command" = None ->
  in_strs (Dict.get_default d "display"
             (VStr (if (length v <=? 50)%nat then "select" else "typeahead")))
          Choices_DISPLAYS = true ->
  _format_choices (RawChoices (VDict d)) = Raise (KeyError "command").
Proof.
  intros Htype Hin Hvalue Hv Hlookup Hdisplay. unfold _format_choices.
  assert (truthy (VDict d) = true) as ->.
  { destruct d; [discriminate Hvalue|reflexivity]. }
  cbn [negb]. unfold choices_of_dict. rewrite Hvalue, Htype.
  assert (truthy (VDict v) = true) as ->
      by (destruct v; [contradiction|reflexivity]).
  cbn [negb determine_display is_string len rbind is_None].
  rewrite (proj2 (in_strs_literal "command" Choices_TYPES) Hin).
  cbn [negb eq_str is_string is_dict is_list orb andb].
  replace (String.eqb "command" "url") with false by reflexivity.
  replace (String.eqb "command" "static") with false by reflexivity.
  rewrite String.eqb_refl. cbn [negb orb andb rbind]. rewrite Hdisplay.
  cbn [negb rbind]. unfold choices_details_of.
  cbn [eq_str is_string getitem]. rewrite String.eqb_refl, Hlookup.
  reflexivity.
Qed.

Lemma command_mapping_without_command_raises_key_error_witness :
  _format_choices (E := sample_external)
    (RawChoices (VDict sample_choices_command_mapping))
  = Raise (KeyError "command").
Proof.
  apply (command_mapping_without_command_raises_key_error
           (E := sample_external) sample_choices_command_mapping
           [("x", VInt 1)]); try reflexivity.
  - right. right. left. reflexivity.
  - discriminate.
Defined.

(** X8: when a choices mapping declares its type and resolves, the type is
    one of the supported tags and the value has a shape the type allows: a
    string or a mapping for command, a string for url, a list or a mapping
    for static. *)
Theorem declared_choices_type_fits_value {E : External}
        (d : Dict.t) (c : Choices) :
  Dict.get d "type" <> VNone ->
  _format_choices (RawChoices (VDict d)) = Ok (Some c) ->
  choices_type c = Dict.get d "type"
  /\ in_strs (choices_type c) Choices_TYPES = true
  /\ (choices_type c = VStr "command" ->
      is_string (choices_value c) || is_dict (choices_value c) = true)
  /\ (choices_type c = VStr "url" -> is_string (choices_value c) = true)
  /\ (choices_type c = VStr "static" ->
      is_list (choices_value c) || is_dict (choices_value c) = true).
Proof.
  intros Htype. unfold _format_choices.
  destruct (truthy (VDict d)); cbn [negb]; [|discriminate].
  destruct (choices_of_dict d) as [[[[value display] choice_type] strict]|]
    eqn:Hdict; [|discriminate]. cbn [rbind].
  destruct (choices_details_of _ _ _); [|discriminate].
  intros [= <-]. cbn [choices_value choices_type].
  apply choices_of_dict_inv in Hdict
    as (_ & _ & _ & _ & [[Hnone _] | (-> & Hin & Hc & Hu & Hs)]);
    [contradiction|].
  split; [reflexivity|]. split; [exact Hin|].
  repeat split; intros Heq; rewrite Heq in *; auto.
Qed.

Lemma declared_choices_type_fits_value_witness :
  exists c,
    _format_choices (E := sample_external)
      (RawChoices (VDict [("type", VStr "url"); ("value", VStr "http://h")]))
    = Ok (Some c)
    /\ choices_type c = VStr "url"
    /\ is_string (choices_value c) = true.
Proof.
  eexists. split; [reflexivity|].
  destruct (declared_choices_type_fits_value (E := sample_external)
              [("type", VStr "url"); ("value", VStr "http://h")] _
              ltac:(discriminate) eq_refl) as (H1 & _ & _ & H2 & _).
  split; [exact H1|apply H2; reflexivity].
Defined.

(* ===================================================================== *)
(** * Validation against the signature                                    *)
(* ===================================================================== *)

Lemma scan_signature_has_kwargs sig k acc hk :
  snd (scan_signature sig k acc hk)
  = hk || existsb (fun a => is_var_keyword (sig_kind a)) sig.
Proof.
  revert acc hk. induction sig as [|a sig IH]; intros acc hk; cbn.
  - rewrite orb_false_r. reflexivity.
  - rewrite IH. destruct (is_var_keyword (sig_kind a)); cbn.
    + rewrite orb_true_r. reflexivity.
    + reflexivity.
Qed.

Lemma scan_signature_no_key sig acc hk :
  fst (scan_signature sig None acc hk) = acc.
Proof.
  revert acc hk. induction sig as [|a sig IH]; intros acc hk; cbn;
    [reflexivity|apply IH].
Qed.

Lemma scan_signature_absent sig k acc hk :
  (forall a, In a sig -> sig_name a <> k) ->
  fst (scan_signature sig (Some k) acc hk) = acc.
Proof.
  revert acc hk. induction sig as [|a sig IH]; intros acc hk Hno; cbn;
    [reflexivity|].
  assert (String.eqb (sig_name a) k = false) as ->.
  { apply String.eqb_neq, Hno. left. reflexivity. }
  apply IH. intros a' Hin. apply Hno. right. exact Hin.
Qed.

Lemma scan_signature_found sig a acc hk :
  List.NoDup (map sig_name sig) ->
  In a sig ->
  fst (scan_signature sig (Some (sig_name a)) acc hk) = Some a.
Proof.
  revert acc hk. induction sig as [|b sig IH]; intros acc hk Hnd Hin;
    [destruct Hin|].
  cbn [map] in Hnd. inversion Hnd as [|x l Hnotin Hnd']; subst.
  cbn [scan_signature]. destruct Hin as [-> | Hin].
  - rewrite String.eqb_refl. apply scan_signature_absent.
    intros a' Hin' Heq. apply Hnotin. rewrite <- Heq.
    apply in_map. exact Hin'.
  - destruct (String.eqb (sig_name b) (sig_name a)) eqn:Hb.
    + apply String.eqb_eq in Hb. exfalso. apply Hnotin. rewrite Hb.
      apply in_map. exact Hin.
    + apply IH; assumption.
Qed.

(** In a signature without a formal parameter named like the Parameter. *)
Lemma _validate_kwargness_absent {PL MR} sig (p : ParameterRec PL MR) :
  (forall a, In a sig -> key p <> Some (sig_name a)) ->
  _validate_kwargness sig p
  = if match is_kwarg p with Some false => true | _ => false end then
      Raise (PluginParamError
               "Parameter was not not marked as part of kwargs and wasn't found in the method signature (should is_kwarg be True?)")
    else if negb (existsb (fun a => is_var_keyword (sig_kind a)) sig) then
      Raise (PluginParamError
               "Parameter was declared as a kwarg (is_kwarg=True) but the method signature does not declare a **kwargs parameter")
    else Ok VNone.
Proof.
  intros Hno. unfold _validate_kwargness.
  pose proof (scan_signature_has_kwargs sig (key p) None false) as Hk.
  assert (fst (scan_signature sig (key p) None false) = None) as Hf.
  { destruct (key p) as [k|]; [|apply scan_signature_no_key].
    apply scan_signature_absent. intros a Hin Heq. apply (Hno a Hin).
    rewrite Heq. reflexivity. }
  destruct (scan_signature sig (key p) None false) as [found has_kwargs].
  cbn in Hk, Hf. subst. reflexivity.
Qed.

(** In a signature with a formal parameter named like the Parameter. *)
Lemma _validate_kwargness_present {PL MR} sig (p : ParameterRec PL MR) a :
  List.NoDup (map sig_name sig) ->
  In a sig ->
  key p = Some (sig_name a) ->
  _validate_kwargness sig p
  = if match is_kwarg p with Some true => true | _ => false end then
      Raise (PluginParamError
               "Parameter was marked as part of kwargs but was found in the method signature (should is_kwarg be False?)")
    else if is_positional_only (sig_kind a) then
      Raise (PluginParamError
               "Sorry, positional-only type parameters are not supported")
    else Ok (default_or_None a).
Proof.
  intros Hnd Hin Hkey. unfold _validate_kwargness. rewrite Hkey.
  pose proof (scan_signature_found sig a None false Hnd Hin) as Hf.
  destruct (scan_signature sig (Some (sig_name a)) None false)
    as [found has_kwargs].
  cbn in Hf. subst found. unfold default_or_None.
  destruct (sig_default a); reflexivity.
Qed.

(** X9: for a signature with distinct names, [_validate_kwargness]
    returns exactly in two situations: the key names a formal parameter
    that is not positional-only and the Parameter is not marked as a kwarg,
    and it returns that formal parameter's default ([None] without one); or
    no formal parameter has the key, the Parameter is not marked as not a
    kwarg, the signature declares a [**kwargs], and it returns [None].  In
    every other situation it raises a PluginParamError. *)
Theorem validate_kwargness_accepts_exactly {PL MR}
        (sig : signature) (p : ParameterRec PL MR) :
  List.NoDup (map sig_name sig) ->
  (forall d,
      _validate_kwargness sig p = Ok d <->
      (exists a, In a sig /\ key p = Some (sig_name a)
                 /\ is_kwarg p <> Some true
                 /\ sig_kind a <> POSITIONAL_ONLY
                 /\ d = default_or_None a)
      \/ ((forall a, In a sig -> key p <> Some (sig_name a))
          /\ is_kwarg p <> Some false
          /\ (exists a, In a sig /\ sig_kind a = VAR_KEYWORD)
          /\ d = VNone))
  /\ only_schema_errors (_validate_kwargness sig p).
Proof.
  intros Hnd.
  assert (Hcases :
    (exists a, In a sig /\ key p = Some (sig_name a))
    \/ (forall a, In a sig -> key p <> Some (sig_name a))).
  { clear Hnd. induction sig as [|b sig IH].
    - right. intros a [].
    - destruct IH as [(a & Hin & Hk) | Hno].
      + left. exists a. split; [right; exact Hin|exact Hk].
      + destruct (key p) as [k|] eqn:Hkey.
        * destruct (String.eqb k (sig_name b)) eqn:Hb.
          -- apply String.eqb_eq in Hb. left. exists b. subst.
             split; [left; reflexivity|reflexivity].
          -- right. intros a [<- | Hin]; [|apply Hno, Hin].
             intros [= Heq]. rewrite Heq, String.eqb_refl in Hb.
             discriminate.
        * right. intros a _. discriminate. }
  assert (Hvk : forall b,
             existsb (fun a => is_var_keyword (sig_kind a)) sig = b ->
             (b = true <-> exists a, In a sig /\ sig_kind a = VAR_KEYWORD)).
  { intros b <-. rewrite existsb_exists. split.
    - intros (a & Hin & Hk). exists a. split; [exact Hin|].
      destruct (sig_kind a); try discriminate. reflexivity.
    - intros (a & Hin & Hk). exists a. split; [exact Hin|].
      rewrite Hk. reflexivity. }
  destruct Hcases as [(a & Hin & Hkey) | Hno].
  - rewrite (_validate_kwargness_present sig p a Hnd Hin Hkey). split.
    + intros d. split.
      * intros H. left. exists a.
        destruct (is_kwarg p) as [[|]|]; try discriminate;
          destruct (sig_kind a) eqn:Hkind; try discriminate;
          injection H as <-; repeat split; auto; discriminate.
      * intros [(a' & Hin' & Hkey' & Hkw & Hkind & ->) | (Hno & _)].
        -- assert (a' = a) as ->.
           { rewrite Hkey in Hkey'. injection Hkey' as Hname.
             pose proof (scan_signature_found sig a None false Hnd Hin) as H1.
             pose proof (scan_signature_found sig a' None false Hnd Hin')
               as H2.
             rewrite <- Hname in H2. congruence. }
           destruct (is_kwarg p) as [[|]|]; try contradiction;
             destruct (sig_kind a); try contradiction; reflexivity.
        -- exfalso. exact (Hno a Hin Hkey).
    + destruct (is_kwarg p) as [[|]|]; cbn; auto;
        destruct (is_positional_only (sig_kind a)); cbn; auto.
  - rewrite (_validate_kwargness_absent sig p Hno).
    specialize (Hvk _ eq_refl). split.
    + intros d. split.
      * intros H. right.
        destruct (is_kwarg p) as [[|]|]; try discriminate;
          destruct (existsb _ sig); try discriminate;
          injection H as <-; repeat split; auto; try discriminate;
          apply Hvk; reflexivity.
      * intros [(a & Hin & Hkey & _) | (_ & Hkw & Hex & ->)].
        -- exfalso. exact (Hno a Hin Hkey).
        -- apply Hvk in Hex. rewrite Hex.
           destruct (is_kwarg p) as [[|]|]; try contradiction; reflexivity.
    + destruct (is_kwarg p) as [[|]|]; cbn; auto;
        destruct (existsb _ sig); cbn; auto.
Qed.

Lemma validate_kwargness_accepts_exactly_witness :
  _validate_kwargness sample_signature_kwargs
    (new_Parameter (Some "b") None) = Ok (VInt 5)
  /\ _validate_kwargness sample_signature_kwargs
       (new_Parameter (Some "extra") (Some true)) = Ok VNone.
Proof.
  assert (Hnd : List.NoDup (map sig_name sample_signature_kwargs)).
  { repeat constructor; cbn; intuition discriminate. }
  split.
  - apply (validate_kwargness_accepts_exactly sample_signature_kwargs
             (new_Parameter (Some "b") None) Hnd).
    left. eexists. split; [right; left; reflexivity|].
    repeat split; discriminate.
  - apply (validate_kwargness_accepts_exactly sample_signature_kwargs
             (new_Parameter (Some "extra") (Some true)) Hnd).
    right. split.
    + intros a [<- | [<- | [<- | []]]]; discriminate.
    + repeat split; try discriminate.
      eexists. split; [right; right; left; reflexivity|reflexivity].
Defined.

(* ===================================================================== *)
(** * Every Parameter of a normalized tree                               *)
(* ===================================================================== *)

(** X10: every Parameter of a normalized tree, at any depth, has a key, a
    type that is a string, namely a tag that [_format_type] produced, and
    choices that are absent or resolved; no raw choices specification and
    no type object is left anywhere. *)
Theorem normalized_tree_is_resolved {E : External}
        (p n : Param) (func : option signature) :
  _initialize_parameter p func = Ok n ->
  Forall (fun q => resolved_node q /\ formatted_tag q) (parameter_tree n).
Proof.
  apply _initialize_parameter_tree_wide.
  intros generate q f r H. split.
  - eapply initialize_body_resolved_node, H.
  - eapply initialize_body_formatted_tag, H.
Qed.

Lemma normalized_tree_is_resolved_witness :
  exists n,
    _initialize_parameter (E := sample_external) sample_spliced_parameter None
    = Ok n
    /\ length (parameter_tree n) = 3
    /\ Forall (fun q => resolved_node q
                         /\ formatted_tag (E := sample_external) q)
               (parameter_tree n).
Proof.
  eexists. split; [vm_compute; reflexivity|]. split; [reflexivity|].
  apply (normalized_tree_is_resolved (E := sample_external)
           sample_spliced_parameter _ None).
  vm_compute. reflexivity.
Defined.

(** X11: in a normalized tree, every Parameter of type Bytes carries the
    type information [{storage: gridfs}] and every Parameter of type Base64
    has no default. *)
Theorem normalized_tree_is_file_safe {E : External}
        (p n : Param) (func : option signature) :
  _initialize_parameter p func = Ok n ->
  Forall file_safe_node (parameter_tree n).
Proof.
  apply _initialize_parameter_tree_wide.
  intros generate q f r. apply initialize_body_file_safe_node.
Qed.

Lemma normalized_tree_is_file_safe_witness :
  exists n f g,
    _initialize_parameter (E := sample_external) sample_spliced_parameter None
    = Ok n
    /\ parameter_tree n = [n; f; g]
    /\ type f = TStr "Bytes" /\ type_info f = gridfs
    /\ type g = TStr "Base64" /\ default g = VNone.
Proof.
  eexists; eexists; eexists. split; [vm_compute; reflexivity|].
  split; [reflexivity|].
  pose proof (normalized_tree_is_file_safe (E := sample_external)
                sample_spliced_parameter _ None eq_refl) as Hall.
  apply List.Forall_cons_iff in Hall as [_ Hall].
  apply List.Forall_cons_iff in Hall as [[Hf _] Hall].
  apply List.Forall_cons_iff in Hall as [[_ Hg] _].
  split; [reflexivity|]. split; [apply Hf; reflexivity|].
  split; [reflexivity|apply Hg; reflexivity].
Defined.

(** X12: normalization only assigns the type, the choices, the default,
    the type information and the nested parameters of a Parameter: its key,
    multi, display name, optional flag, description, nullable flag, bounds,
    regex, form input type, kwarg flag and model are returned as given. *)
Theorem normalization_keeps_declaration {E : External}
        (p n : Param) (func : option signature) :
  _initialize_parameter p func = Ok n -> same_declaration p n.
Proof. apply initialize_body_declaration. Qed.

Lemma normalization_keeps_declaration_witness :
  exists n,
    _initialize_parameter (E := sample_external) sample_spliced_parameter None
    = Ok n
    /\ same_declaration sample_spliced_parameter n.
Proof.
  eexists. split; [vm_compute; reflexivity|].
  apply (normalization_keeps_declaration (E := sample_external) _ _ None).
  vm_compute. reflexivity.
Defined.

(* ===================================================================== *)
(** * Nested expansion keeps the order of the declarations                *)
(* ===================================================================== *)

Lemma flat_for_each_Forall2 {A B C} (f : A -> result (list B))
      (g : A -> list C) (R : C -> B -> Prop) (l : list A) (r : list B) :
  Forall (fun a => forall bs, f a = Ok bs -> Forall2 R (g a) bs) l ->
  flat_for_each f l = Ok r ->
  Forall2 R (flat_map g l) r.
Proof.
  intros Hl. revert r. induction Hl as [|a l Ha _ IH]; intros r; cbn.
  - intros [= <-]. constructor.
  - destruct (f a) as [bs|] eqn:Hfa; [|discriminate]. cbn [rbind].
    destruct (flat_for_each f l) as [rest|]; [|discriminate].
    intros [= <-]. apply Forall2_app; [apply Ha; reflexivity|].
    apply IH. reflexivity.
Qed.

Section Splicing.
Context {E : External}.

Lemma generate_from_spliced (it : pitem) :
  forall qs, generate_from it = Ok qs ->
             Forall2 same_declaration (spliced it) qs.
Proof.
  induction it as [p _ _|ps IH|v] using pitem_tree_ind;
    intros qs; cbn [generate_from spliced].
  - destruct (initialize_body _ p None) as [n|] eqn:Hn; [|discriminate].
    intros [= <-]. constructor; [|constructor].
    eapply initialize_body_declaration, Hn.
  - apply flat_for_each_Forall2. exact IH.
  - discriminate.
Qed.

Lemma _generate_nested_params_no_foreign (l : list pitem) qs :
  _generate_nested_params l = Ok qs -> forall v, ~ In (ItemOther v) l.
Proof.
  unfold _generate_nested_params. revert qs.
  induction l as [|it l IH]; intros qs Hqs v; [intros []|].
  cbn [flat_for_each] in Hqs.
  destruct (generate_from it) as [bs|] eqn:Hit; [|discriminate].
  cbn [rbind] in Hqs.
  destruct (flat_for_each generate_from l) as [rest|]; [|discriminate].
  intros [-> | Hin]; [discriminate Hit|].
  exact (IH rest eq_refl v Hin).
Qed.

End Splicing.

(** X13: when the expansion of a nested list succeeds, the list holds no
    foreign object, and the Parameters it returns are the declared ones in
    their order, the contents of legacy model objects spliced in where the
    model stood: as many, and each with the key and the other declared
    attributes of its declaration. *)
Theorem nested_expansion_keeps_order {E : External}
        (parameter_list : list pitem) (qs : list Param) :
  _generate_nested_params parameter_list = Ok qs ->
  Forall2 same_declaration (flat_map spliced parameter_list) qs
  /\ parameter_keys qs = parameter_keys (flat_map spliced parameter_list)
  /\ forall v, ~ In (ItemOther v) parameter_list.
Proof.
  intros Hqs.
  assert (Forall2 same_declaration (flat_map spliced parameter_list) qs)
    as Hall.
  { revert Hqs. apply flat_for_each_Forall2.
    apply List.Forall_forall. intros it _. apply generate_from_spliced. }
  split; [exact Hall|]. split.
  - clear Hqs. unfold parameter_keys.
    induction Hall as [|p q ps qs' Hpq _ IH]; [reflexivity|].
    cbn [map]. destruct Hpq as (-> & _). rewrite IH. reflexivity.
  - eapply _generate_nested_params_no_foreign, Hqs.
Qed.

Lemma nested_expansion_keeps_order_witness :
  exists qs,
    _generate_nested_params (E := sample_external)
      (parameters sample_spliced_parameter) = Ok qs
    /\ parameter_keys qs = [Some "f"; Some "g"].
Proof.
  eexists. split; [vm_compute; reflexivity|].
  destruct (nested_expansion_keeps_order (E := sample_external)
              (parameters sample_spliced_parameter) _ eq_refl)
    as (_ & Hkeys & _).
  exact Hkeys.
Defined.

(* ===================================================================== *)
(** * Where the default of a normalized Parameter comes from              *)
(* ===================================================================== *)

Section Defaults.
Context {E : External}.

(** The nested steps keep a default that is truthy. *)
Lemma nested_steps_truthy_default generate nested nested_model (q n : Param) :
  truthy (default q) = true ->
  nested_steps generate nested nested_model q = Ok n ->
  default n = default q.
Proof.
  intros Ht. unfold nested_steps.
  destruct nested as [|it nested]; [destruct nested_model as [m|]|].
  - destruct (generate m) as [children|]; [|discriminate]. cbn [rbind].
    fields. rewrite Ht, andb_false_r. intros [= <-]. reflexivity.
  - intros [= <-]. reflexivity.
  - destruct (generate _) as [children|]; [|discriminate].
    intros [= <-]. reflexivity.
Qed.

(** The default after the scalar steps, for a type other than Base64. *)
Lemma scalar_steps_default (p q : Param) func :
  _format_type (type p) <> "Base64" ->
  scalar_steps p func = Ok q ->
  default q = default p
  \/ (default p = VNone
      /\ exists sig, func = Some sig
                     /\ _validate_kwargness sig p = Ok (default q)
                     /\ truthy (default q) = true).
Proof.
  intros H64. apply String.eqb_neq in H64.
  unfold scalar_steps.
  destruct (key p) eqn:Hkey; [|discriminate]. expose.
  destruct (_format_choices (choices p)) as [formatted|]; [|discriminate].
  expose. destruct func as [sig|]; expose.
  - erewrite _validate_kwargness_reads by (fields; reflexivity).
    destruct (_validate_kwargness sig p) as [d|] eqn:Hd; [|discriminate].
    expose.
    destruct (truthy d) eqn:Ht; cbn [andb]; expose;
      [destruct (is_None (default p)) eqn:Hnone; expose|];
      (destruct (String.eqb (_format_type (type p)) "Bytes"); expose;
       rewrite H64; intros [= <-]; fields; auto).
    all: right; split;
      [destruct (default p); try discriminate; reflexivity|];
      exists sig; auto.
  - destruct (String.eqb (_format_type (type p)) "Bytes"); expose;
      rewrite H64; intros [= <-]; fields; auto.
Qed.

End Defaults.

(** X14: for a Parameter whose type is not Base64, a truthy explicit
    default survives normalization unchanged, and when no default is given
    a truthy default of the matching formal parameter becomes the default,
    whether or not the Parameter has nested parameters or a model. *)
Theorem default_resolution_order {E : External}
        (p n : Param) (func : option signature) :
  _format_type (type p) <> "Base64" ->
  _initialize_parameter p func = Ok n ->
  (truthy (default p) = true -> default n = default p)
  /\ (forall sig d,
         func = Some sig ->
         default p = VNone ->
         _validate_kwargness sig p = Ok d ->
         truthy d = true ->
         default n = d).
Proof.
  intros H64. unfold _initialize_parameter. rewrite initialize_body_steps.
  destruct (scalar_steps p func) as [q|] eqn:Hq; [|discriminate].
  cbn [rbind]. intros Hn.
  pose proof (scalar_steps_default _ _ _ H64 Hq) as Hdefault.
  split.
  - intros Ht.
    assert (default q = default p) as Heq.
    { destruct Hdefault as [Heq | (Hnone & _)]; [exact Heq|].
      rewrite Hnone in Ht. discriminate. }
    rewrite <- Heq in *. eapply nested_steps_truthy_default; eassumption.
  - intros sig d -> Hnone Hd Ht.
    assert (default q = d) as Heq.
    { apply String.eqb_neq in H64. revert Hq. unfold scalar_steps.
      destruct (key p); [|discriminate]. expose.
      destruct (_format_choices (choices p)); [|discriminate]. expose.
      erewrite _validate_kwargness_reads by (fields; reflexivity).
      rewrite Hd. expose. rewrite Ht, Hnone. cbn [is_None andb]. expose.
      destruct (String.eqb (_format_type (type p)) "Bytes"); expose;
        rewrite H64; intros [= <-]; reflexivity. }
    rewrite <- Heq in *. eapply nested_steps_truthy_default; eassumption.
Qed.

Lemma default_resolution_order_witness :
  (exists n,
      _initialize_parameter (E := sample_external) sample_parameter_n9
        (Some sample_signature_n3) = Ok n
      /\ default n = VInt 9)
  /\ (exists n,
        _initialize_parameter (E := sample_external) sample_parameter_n
          (Some sample_signature_n3) = Ok n
        /\ default n = VInt 3).
Proof.
  split; eexists; (split; [vm_compute; reflexivity|]).
  - apply (default_resolution_order (E := sample_external)
             sample_parameter_n9 _ (Some sample_signature_n3));
      [discriminate|reflexivity|reflexivity].
  - eapply (default_resolution_order (E := sample_external)
              sample_parameter_n _ (Some sample_signature_n3));
      try reflexivity. discriminate.
Defined.

(** X15: a model-backed Parameter without nested parameters of its own,
    not nullable, whose default is falsy and which adopts no truthy default
    from its callable, gets a synthesized default: a mapping in which a key
    is bound exactly when some normalized child of the model with that key
    has a truthy default, and then to the default of the last such child. *)
Theorem model_default_is_synthesized {E : External}
        (p n : Param) (func : option signature) (m : list pitem) :
  parameters p = [] ->
  model p = Some m ->
  flag_truthy (nullable p) = false ->
  truthy (default p) = false ->
  (forall sig d, func = Some sig -> _validate_kwargness sig p = Ok d ->
                 truthy d = false) ->
  _initialize_parameter p func = Ok n ->
  exists children entries,
    _generate_nested_params m = Ok children
    /\ parameters n = map ItemParameter children
    /\ default n = VDict entries
    /\ forall k,
        Dict.lookup entries k
        = default <$> find (fun c => has_key k c && truthy (default c))
                           (rev children).
Proof.
  intros Hps Hm Hnullable Hfalsy Hfunc.
  unfold _initialize_parameter. rewrite initialize_body_steps.
  destruct (scalar_steps p func) as [q|] eqn:Hq; [|discriminate].
  cbn [rbind]. intros Hn.
  assert (truthy (default q) = false) as Hq_default.
  { revert Hq. unfold scalar_steps.
    destruct (key p); [|discriminate]. expose.
    destruct (_format_choices (choices p)); [|discriminate]. expose.
    destruct func as [sig|]; expose.
    - erewrite _validate_kwargness_reads by (fields; reflexivity).
      destruct (_validate_kwargness sig p) as [d|] eqn:Hd; [|discriminate].
      expose. rewrite (Hfunc sig d eq_refl Hd). cbn [andb]. expose.
      destruct (String.eqb _ "Bytes"); expose;
        destruct (String.eqb _ "Base64"); intros [= <-]; fields;
        (exact Hfalsy || reflexivity).
    - destruct (String.eqb _ "Bytes"); expose;
        destruct (String.eqb _ "Base64"); intros [= <-]; fields;
        (exact Hfalsy || reflexivity). }
  destruct (scalar_steps_frame _ _ _ Hq) as (_ & _ & _ & Hnull & _).
  rewrite Hps, Hm in Hn. cbn [nested_steps] in Hn.
  destruct (_generate_nested_params m) as [children|]; [|discriminate].
  cbn [rbind] in Hn. fields. rewrite Hnull, Hnullable, Hq_default in Hn.
  cbn [negb andb] in Hn. injection Hn as <-.
  destruct (model_default_lookup children "") as (entries & Hentries & _).
  exists children, entries. split; [reflexivity|]. split; [reflexivity|].
  split; [exact Hentries|]. intros k.
  destruct (model_default_lookup children k) as (entries' & Hentries' & Hk).
  rewrite Hentries in Hentries'. injection Hentries' as <-. exact Hk.
Qed.

Lemma model_default_is_synthesized_witness :
  exists n entries,
    _initialize_parameter (E := sample_external) sample_model_parameter None
    = Ok n
    /\ default n = VDict entries
    /\ Dict.lookup entries "x" = Some (VInt 1)
    /\ Dict.lookup entries "y" = None.
Proof.
  destruct (model_default_is_synthesized (E := sample_external)
              sample_model_parameter
              (match _initialize_parameter (E := sample_external)
                       sample_model_parameter None with
               | Ok n => n
               | Raise _ => sample_model_parameter
               end) None sample_model eq_refl eq_refl eq_refl eq_refl
              ltac:(discriminate) ltac:(vm_compute; reflexivity))
    as (children & entries & _ & _ & Hdefault & _).
  eexists; exists entries. split; [vm_compute; reflexivity|].
  split; [exact Hdefault|].
  vm_compute in Hdefault. injection Hdefault as <-.
  split; reflexivity.
Defined.

(* ===================================================================== *)
(** * The parameter list of a merged Command                              *)
(* ===================================================================== *)

Lemma marked_from_refl (ps : list Param) : Forall2 marked_from ps ps.
Proof. induction ps; constructor; [left; reflexivity|assumption]. Qed.

Lemma marked_from_trans (p q r : Param) :
  marked_from p q -> marked_from q r -> marked_from p r.
Proof.
  intros [-> | ->] [-> | ->]; unfold marked_from; auto.
  right. apply require_twice.
Qed.

Lemma Forall2_marked_from_trans (ps qs rs : list Param) :
  Forall2 marked_from ps qs -> Forall2 marked_from qs rs ->
  Forall2 marked_from ps rs.
Proof.
  intros H. revert rs. induction H as [|p q ps qs Hpq _ IH]; intros rs Hrs.
  - inversion Hrs. constructor.
  - inversion Hrs as [|q' r qs' rs' Hqr Hrest]; subst.
    constructor; [eapply marked_from_trans; eassumption|apply IH, Hrest].
Qed.

Lemma mark_required_marked name (ps : list Param) :
  Forall2 marked_from ps (mark_required name ps).
Proof.
  induction ps as [|p ps IH]; cbn; [constructor|].
  destruct (has_key name p).
  - destruct (optional p) eqn:Hopt; constructor;
      try apply marked_from_refl.
    + left. reflexivity.
    + right. unfold require. rewrite Hopt. reflexivity.
  - constructor; [left; reflexivity|exact IH].
Qed.

Lemma marked_from_keys (ps qs : list Param) :
  Forall2 marked_from ps qs -> map key qs = map key ps.
Proof.
  induction 1 as [|p q ps qs [-> | ->] _ IH]; cbn; [reflexivity| |];
    rewrite ?require_key, IH; reflexivity.
Qed.

Lemma in_parameter_keys_app name (ps qs : list Param) :
  in_parameter_keys name (ps ++ qs)
  = in_parameter_keys name ps || in_parameter_keys name qs.
Proof. unfold in_parameter_keys. apply existsb_app. Qed.

(** The merged list: the declared Parameters, marked, followed by one
    synthesized Parameter for each uncovered formal parameter. *)
Lemma merge_signature_shape (sig : signature) :
  forall ps : list Param,
    List.NoDup (map sig_name sig) ->
    exists marked,
      merge_signature ps sig = marked ++ map synthesized (uncovered ps sig)
      /\ Forall2 marked_from ps marked.
Proof.
  induction sig as [|arg sig IH]; intros ps Hnd.
  - exists ps. split; [cbn; rewrite app_nil_r; reflexivity|].
    apply marked_from_refl.
  - cbn [map] in Hnd. inversion Hnd as [|x l Hnotin Hnd']; subst.
    cbn [merge_signature fold_left].
    change (fold_left merge_formal sig (merge_formal ps arg))
      with (merge_signature (merge_formal ps arg) sig).
    destruct (IH (merge_formal ps arg) Hnd') as (marked & Heq & Hmarked).
    unfold uncovered in *. cbn [map List.filter]. unfold merge_formal in *.
    destruct (in_parameter_keys (sig_name arg) ps) eqn:Hin; cbn [negb] in *.
    + exists marked. split.
      * rewrite Heq. f_equal. f_equal. apply List.filter_ext. intros name.
        f_equal. apply in_parameter_keys_map_key, mark_required_keys.
      * eapply Forall2_marked_from_trans;
          [apply mark_required_marked|exact Hmarked].
    + apply Forall2_app_inv_l in Hmarked
        as (m1 & m2 & Hm1 & Hm2 & ->).
      inversion Hm2 as [|p q ps' qs' Hpq Hnil]; subst.
      inversion Hnil; subst.
      assert (q = synthesized (sig_name arg)) as ->.
      { destruct Hpq as [-> | ->]; reflexivity. }
      exists m1. split; [|exact Hm1].
      rewrite Heq, <- app_assoc. cbn [app map]. f_equal. f_equal. f_equal.
      apply List.filter_ext_in. intros name Hname. f_equal.
      rewrite in_parameter_keys_app. cbn. rewrite orb_false_r.
      assert (String.eqb (sig_name arg) name = false) as ->.
      { apply String.eqb_neq. intros Heq'. apply Hnotin.
        rewrite Heq'. exact Hname. }
      apply orb_false_r.
Qed.

Lemma merge_signature_keeps_keys sig (ps : list Param) k :
  In k (parameter_keys ps) -> In k (parameter_keys (merge_signature ps sig)).
Proof.
  revert ps. induction sig as [|arg sig IH]; intros ps Hin; [exact Hin|].
  cbn [merge_signature fold_left]. apply IH.
  rewrite merge_formal_keys. apply in_or_app. left. exact Hin.
Qed.

Lemma merge_signature_covers sig (ps : list Param) arg :
  In arg sig ->
  In (Some (sig_name arg)) (parameter_keys (merge_signature ps sig)).
Proof.
  revert ps. induction sig as [|b sig IH]; intros ps Hin; [destruct Hin|].
  cbn [merge_signature fold_left]. destruct Hin as [-> | Hin].
  - apply merge_signature_keeps_keys. rewrite merge_formal_keys.
    destruct (in_parameter_keys (sig_name arg) ps) eqn:Hk.
    + rewrite app_nil_r. apply in_parameter_keys_In, Hk.
    + apply in_or_app. right. left. reflexivity.
  - apply IH, Hin.
Qed.

(** X16: every formal parameter of the callable, the variadic ones
    included, is the key of some Parameter of the initialized Command. *)
Theorem every_formal_parameter_is_covered {E : External}
        (method : Method) (cmd : Command) (arg : InspectParameter) :
  _initialize_command method = Ok cmd ->
  In arg (fn_signature method) ->
  In (Some (sig_name arg)) (parameter_keys (cmd_parameters cmd)).
Proof.
  intros Hcmd Hin. rewrite (_initialize_command_parameters _ _ Hcmd).
  apply merge_signature_covers, Hin.
Qed.

Lemma every_formal_parameter_is_covered_witness :
  exists cmd,
    _initialize_command (E := sample_external) sample_bare_method = Ok cmd
    /\ In (Some "kwargs") (parameter_keys (cmd_parameters cmd)).
Proof.
  eexists. split; [reflexivity|].
  apply (every_formal_parameter_is_covered (E := sample_external)
           sample_bare_method _ (mkSig "kwargs" VAR_KEYWORD None) eq_refl).
  right. right. right. left. reflexivity.
Defined.

(** X17: the parameter list of the initialized Command is the declared
    Parameters in their order, each as declared or with its unset optional
    flag set to false, followed by one [Parameter(key=name,
    optional=False)] for each formal parameter whose name is no declared
    key, in the order of the signature. *)
Theorem merged_parameters_declared_then_synthesized {E : External}
        (method : Method) (cmd : Command) :
  List.NoDup (map sig_name (fn_signature method)) ->
  _initialize_command method = Ok cmd ->
  exists marked,
    cmd_parameters cmd
    = marked ++ map synthesized
                    (uncovered (declared_parameters method)
                               (fn_signature method))
    /\ Forall2 marked_from (declared_parameters method) marked.
Proof.
  intros Hnd Hcmd. rewrite (_initialize_command_parameters _ _ Hcmd).
  apply merge_signature_shape, Hnd.
Qed.

Lemma merged_parameters_declared_then_synthesized_witness :
  List.NoDup (map sig_name (fn_signature sample_method))
  /\ exists marked,
      [set_optional (Some false) (new_Parameter (Some "b") None);
       synthesized "a"]
      = marked ++ map synthesized
                      (uncovered (declared_parameters sample_method)
                                 (fn_signature sample_method))
      /\ Forall2 marked_from (declared_parameters sample_method) marked.
Proof.
  assert (Hnd : List.NoDup (map sig_name (fn_signature sample_method))).
  { repeat constructor; cbn; intuition discriminate. }
  split; [exact Hnd|].
  exact (merged_parameters_declared_then_synthesized
           (E := sample_external) sample_method _ Hnd eq_refl).
Defined.

(* ===================================================================== *)
(** * Display definitions: schema, form and template                      *)
(* ===================================================================== *)

Section DisplayFacts.
Context {E : External}.

Lemma resolve_one_only_schema_errors k v :
  only_schema_errors (resolve_one k v).
Proof.
  destruct v; cbn; try exact I.
  - destruct (resolve_string k s); exact I.
  - destruct (is_form k); exact I.
  - destruct (negb (is_template k)); exact I.
Qed.

Lemma _resolve_display_modifiers_only_schema_errors schema form template :
  only_schema_errors (_resolve_display_modifiers schema form template).
Proof.
  unfold _resolve_display_modifiers.
  pose proof (resolve_one_only_schema_errors schema_key schema) as Hs.
  pose proof (resolve_one_only_schema_errors form_key form) as Hf.
  pose proof (resolve_one_only_schema_errors template_key template) as Ht.
  destruct (resolve_one schema_key schema); [|exact Hs].
  destruct (resolve_one form_key form); [|exact Hf].
  destruct (resolve_one template_key template); [|exact Ht].
  exact I.
Qed.

End DisplayFacts.

Lemma resolve_one_structured {E1 E2 : External} k v r :
  is_string v = false ->
  resolve_one (E := E1) k v = Ok r ->
  is_string r = false /\ resolve_one (E := E2) k r = Ok r.
Proof.
  intros Hstr. destruct v; cbn in Hstr |- *; try discriminate.
  - intros [= <-]. split; reflexivity.
  - destruct k; cbn; try discriminate. intros [= <-]. split; reflexivity.
  - destruct k; cbn; try discriminate; intros [= <-]; split; reflexivity.
Qed.

Lemma _initialize_command_outcome {E : External} (method : Method) :
  only_schema_errors (_initialize_command method)
  /\ (cmd_schema (attached_command method) = VNone ->
      cmd_form (attached_command method) = VNone ->
      cmd_template (attached_command method) = VNone ->
      exists cmd, _initialize_command method = Ok cmd).
Proof.
  unfold _initialize_command, attached_command.
  cbn [set_cmd_name set_cmd_description cmd_schema cmd_form cmd_template].
  split.
  - pose proof (_resolve_display_modifiers_only_schema_errors
                  (cmd_schema match fn_command method with
                              | Some cmd => cmd | None => new_Command [] end)
                  (cmd_form match fn_command method with
                            | Some cmd => cmd | None => new_Command [] end)
                  (cmd_template match fn_command method with
                                | Some cmd => cmd | None => new_Command [] end))
      as H.
    destruct (_resolve_display_modifiers _ _ _) as [[[s f] t]|e];
      [exact I|exact H].
  - intros -> -> ->. cbn. eexists. reflexivity.
Qed.


(** X19: a schema, form or template that is not a string is resolved
    without reading a file or a URL, the result is again not a string, and
    resolving the result once more returns it unchanged. *)
Theorem structured_display_definitions_are_stable {E1 E2 : External}
        (schema form template s f t : pyval) :
  is_string schema = false ->
  is_string form = false ->
  is_string template = false ->
  _resolve_display_modifiers (E := E1) schema form template = Ok (s, f, t) ->
  _resolve_display_modifiers (E := E2) schema form template = Ok (s, f, t)
  /\ (is_string s = false /\ is_string f = false /\ is_string t = false)
  /\ _resolve_display_modifiers (E := E2) s f t = Ok (s, f, t).
Proof.
  intros Hs Hf Ht. unfold _resolve_display_modifiers.
  destruct (resolve_one (E := E1) schema_key schema) as [s'|] eqn:Hrs;
    [|discriminate].
  destruct (resolve_one (E := E1) form_key form) as [f'|] eqn:Hrf;
    [|discriminate].
  destruct (resolve_one (E := E1) template_key template) as [t'|] eqn:Hrt;
    [|discriminate].
  cbn [rbind]. intros [= <- <- <-].
  destruct (resolve_one_structured (E2 := E2) _ _ _ Hs Hrs) as [Hs1 Hs2].
  destruct (resolve_one_structured (E2 := E2) _ _ _ Hf Hrf) as [Hf1 Hf2].
  destruct (resolve_one_structured (E2 := E2) _ _ _ Ht Hrt) as [Ht1 Ht2].
  assert (forall k v r, is_string v = false ->
                        resolve_one (E := E1) k v = Ok r ->
                        resolve_one (E := E2) k v = Ok r) as Hsame.
  { intros k v r Hv. destruct v; cbn in Hv |- *; try discriminate; auto. }
  rewrite (Hsame _ _ _ Hs Hrs), (Hsame _ _ _ Hf Hrf), (Hsame _ _ _ Ht Hrt).
  rewrite Hs2, Hf2, Ht2. repeat split; assumption.
Qed.

Lemma structured_display_definitions_are_stable_witness :
  is_string (VDict [("type", VStr "fieldset");
                    ("items", VList [VStr "key"])]) = false
  /\ _resolve_display_modifiers (E := sample_external)
       (VDict [("type", VStr "object")])
       (VDict [("type", VStr "fieldset"); ("items", VList [VStr "key"])])
       VNone
     = Ok (VDict [("type", VStr "object")],
           VDict [("type", VStr "fieldset"); ("items", VList [VStr "key"])],
           VNone).
Proof.
  destruct (structured_display_definitions_are_stable
              (E1 := sample_external) (E2 := sample_external)
              (VDict [("type", VStr "object")]) (VList [VStr "key"]) VNone
              _ _ _ eq_refl eq_refl eq_refl eq_refl)
    as (_ & (_ & Hform & _) & Hagain).
  split; [exact Hform|exact Hagain].
Defined.

(** X20: a string that starts with none of [http], [/] and [.] is kept as
    it is when given as the template, and is refused with a
    PluginParamError when given as the schema or as the form: these two
    cannot be given inline as text. *)
Theorem inline_text_is_a_template_only {E : External}
        (text : string) (schema form template : pyval) :
  inline_text text = true ->
  _resolve_display_modifiers VNone VNone (VStr text)
  = Ok (VNone, VNone, VStr text)
  /\ _resolve_display_modifiers (VStr text) form template
     = Raise (PluginParamError "Error reading definition")
  /\ (forall s, resolve_one schema_key schema = Ok s ->
                _resolve_display_modifiers schema (VStr text) template
                = Raise (PluginParamError "Error reading definition")).
Proof.
  unfold inline_text. intros H.
  apply andb_prop in H as [H Hdot]. apply andb_prop in H as [Hhttp Hslash].
  apply negb_true_iff in Hdot, Hhttp, Hslash.
  unfold _resolve_display_modifiers, resolve_one, resolve_string.
  rewrite Hdot, Hhttp, Hslash. cbn. repeat split.
  intros s Hs. unfold resolve_one, resolve_string in Hs. rewrite Hs.
  reflexivity.
Qed.

Lemma inline_text_is_a_template_only_witness :
  _resolve_display_modifiers (E := sample_external) VNone VNone
                             (VStr "<html/>")
  = Ok (VNone, VNone, VStr "<html/>").
Proof.
  exact (proj1 (inline_text_is_a_template_only (E := sample_external)
                  "<html/>" VNone VNone VNone eq_refl)).
Defined.

(* ===================================================================== *)
(** * Name and description of a Command                                   *)
(* ===================================================================== *)

Lemma first_line_single (s : string) :
  ~ In "010"%char (list_ascii_of_string (PyStr.first_line s)).
Proof.
  induction s as [|c s IH]; cbn; [tauto|].
  destruct (Ascii.eqb c "010") eqn:Hc; cbn; [tauto|].
  intros [Heq | Hin]; [|exact (IH Hin)].
  subst c. discriminate Hc.
Qed.

(** The first line is what comes before the first line feed, or all of
    the string when there is none. *)
Lemma first_line_split (s : string) :
  s = PyStr.first_line s
  \/ exists rest, s = String.append (PyStr.first_line s) (String "010" rest).
Proof.
  induction s as [|c s IH]; cbn; [left; reflexivity|].
  destruct (Ascii.eqb c "010") eqn:Hc.
  - apply Ascii.eqb_eq in Hc. subst c. right. exists s. reflexivity.
  - destruct IH as [IH | [rest IH]].
    + left. f_equal. exact IH.
    + right. exists rest.
      change (String c s
              = String c (String.append (PyStr.first_line s)
                                        (String "010" rest))).
      f_equal. exact IH.
Qed.

(** X21: the initialized Command is named after the method.  Its
    description is the one given to the decorator when that is not empty;
    otherwise it is the first line of the docstring, that is the docstring
    up to its first line feed, or all of it when it holds none; and it is
    absent when the docstring is absent or empty. *)
Theorem command_name_and_description {E : External}
        (method : Method) (cmd : Command) :
  _initialize_command method = Ok cmd ->
  cmd_name cmd = Some (fn_name method)
  /\ match cmd_description (attached_command method) with
     | Some (String c given) => cmd_description cmd = Some (String c given)
     | _ =>
         match fn_doc method with
         | Some (String c doc) =>
             exists line,
               cmd_description cmd = Some line
               /\ ~ In "010"%char (list_ascii_of_string line)
               /\ (String c doc = line
                   \/ exists rest,
                       String c doc = String.append line (String "010" rest))
         | _ => cmd_description cmd = None
         end
     end.
Proof.
  unfold _initialize_command, attached_command.
  destruct (_resolve_display_modifiers _ _ _) as [[[s f] t]|]; [|discriminate].
  cbn [rbind]. intros [= <-]. cbn. split; [reflexivity|].
  assert (Hdoc : match fn_doc method with
                 | Some (String c doc) =>
                     exists line,
                       _function_docstring method = Some line
                       /\ ~ In "010"%char (list_ascii_of_string line)
                       /\ (String c doc = line
                           \/ exists rest,
                               String c doc
                               = String.append line (String "010" rest))
                 | _ => _function_docstring method = None
                 end).
  { unfold _function_docstring.
    destruct (fn_doc method) as [[|c doc]|]; try reflexivity.
    cbn [PyStr.truthy]. eexists. split; [reflexivity|].
    split; [apply first_line_single|apply first_line_split]. }
  destruct (fn_command method) as [attached|]; cbn.
  - destruct (cmd_description attached) as [[|c given]|]; cbn;
      [exact Hdoc|reflexivity|exact Hdoc].
  - exact Hdoc.
Qed.

Lemma command_name_and_description_witness :
  exists cmd,
    _initialize_command (E := sample_external) sample_bare_method = Ok cmd
    /\ cmd_name cmd = Some "run"
    /\ exists line,
        cmd_description cmd = Some line
        /\ ~ In "010"%char (list_ascii_of_string line)
        /\ ("Run it.
Second line." = line
            \/ exists rest, "Run it.
Second line." = String.append line (String "010" rest)).
Proof.
  eexists. split; [reflexivity|].
  exact (command_name_and_description (E := sample_external)
           sample_bare_method _ eq_refl).
Defined.

(* ===================================================================== *)
(** * Methods compiled from their signature alone                       *)
(* ===================================================================== *)

Section ClientFacts.
Context {E : External}.

Lemma for_each_map_Ok {A B C} (f : B -> result C) (g : A -> B) (h : A -> C)
      (l : list A) :
  (forall a, In a l -> f (g a) = Ok (h a)) ->
  for_each f (map g l) = Ok (map h l).
Proof.
  induction l as [|a l IH]; intros Hl; cbn; [reflexivity|].
  rewrite (Hl a (or_introl eq_refl)). cbn [rbind].
  rewrite IH; [reflexivity|]. intros a' Hin. apply Hl. right. exact Hin.
Qed.

Lemma _initialize_parameter_synthesized sig arg :
  List.NoDup (map sig_name sig) ->
  In arg sig ->
  sig_kind arg <> POSITIONAL_ONLY ->
  _initialize_parameter (synthesized (sig_name arg)) (Some sig)
  = Ok (compiled_formal arg).
Proof.
  intros Hnd Hin Hkind.
  unfold _initialize_parameter, initialize_body, synthesized, new_Parameter,
    new_ParameterRec, compiled_formal.
  cbn -[_validate_kwargness].
  erewrite (_validate_kwargness_present sig _ arg Hnd Hin);
    [|reflexivity].
  cbn. destruct (sig_kind arg); try contradiction; cbn;
    destruct (truthy (default_or_None arg)); reflexivity.
Qed.

End ClientFacts.

Lemma uncovered_nil (sig : signature) :
  uncovered [] sig = map sig_name sig.
Proof.
  unfold uncovered. induction (map sig_name sig) as [|name l IH];
    [reflexivity|].
  cbn. f_equal. exact IH.
Qed.

(* ===================================================================== *)
(** * Object layer: what [parse_client] emits                             *)
(* ===================================================================== *)

Module StoreClientFacts.
Import Store StoreFacts.
Local Open Scope store_scope.



End StoreClientFacts.

(** X23: a method that carries metadata but declares no Parameter and no
    display definition compiles to a Command with exactly one Parameter
    for each formal parameter of its signature, [*args] and [**kwargs]
    included, in the order of the signature: keyed by the name, of type
    Any, not optional, with the default of the formal parameter when that
    default is truthy. *)
Theorem undeclared_method_compiles_its_signature {E : External}
        (method : Method) :
  is_Some_b (fn_command method) || is_Some_b (fn_parameters method) = true ->
  declared_parameters method = [] ->
  cmd_schema (attached_command method) = VNone ->
  cmd_form (attached_command method) = VNone ->
  cmd_template (attached_command method) = VNone ->
  List.NoDup (map sig_name (fn_signature method)) ->
  (forall arg, In arg (fn_signature method) ->
               sig_kind arg <> POSITIONAL_ONLY) ->
  exists cmd,
    parse_attribute (a_method method) = Ok [cmd]
    /\ cmd_parameters cmd = map compiled_formal (fn_signature method).
Proof.
  intros Hmeta Hdecl Hs Hf Ht Hnd Hkind.
  destruct (proj2 (_initialize_command_outcome method) Hs Hf Ht)
    as (cmd0 & Hcmd0).
  pose proof (_initialize_command_parameters _ _ Hcmd0) as Hps.
  destruct (merge_signature_shape (fn_signature method)
              (declared_parameters method) Hnd)
    as (marked & Hshape & Hmarked).
  rewrite Hdecl in Hshape, Hmarked, Hps. inversion Hmarked; subst marked.
  rewrite uncovered_nil, map_map in Hshape. cbn [app] in Hshape.
  rewrite Hshape in Hps.
  cbn [parse_attribute]. rewrite Hmeta, Hcmd0. cbn [rbind]. rewrite Hps.
  rewrite (for_each_map_Ok _ _ compiled_formal).
  - cbn [rbind]. eexists. split; reflexivity.
  - intros arg Hin.
    apply _initialize_parameter_synthesized; [exact Hnd|exact Hin|].
    apply Hkind, Hin.
Qed.

Lemma undeclared_method_compiles_its_signature_witness :
  exists cmd,
    parse_attribute (E := sample_external) (a_method sample_bare_method)
    = Ok [cmd]
    /\ cmd_parameters cmd
       = map compiled_formal (fn_signature sample_bare_method).
Proof.
  apply (undeclared_method_compiles_its_signature (E := sample_external)
           sample_bare_method); try reflexivity.
  - repeat constructor; cbn; intuition discriminate.
  - intros arg Hin. cbn in Hin.
    destruct Hin as [<- | [<- | [<- | [<- | []]]]]; discriminate.
Defined.

(* ===================================================================== *)
(** * Object layer: the [parameters] decorator                            *)
(* ===================================================================== *)

Module StoreDecoratorFacts.
Import Store StoreDecorators.
Local Open Scope store_scope.

Lemma parameter_at (h : store) f fo kwargs :
  h !! f = Some (OFunction fo) ->
  parameter f kwargs h = (Ok f, annotated_with h f fo [kwargs]).
Proof.
  intros Hf. pose proof (lookup_lt_Some _ _ _ Hf) as Hlt.
  unfold parameter, bind, alloc, annotated_with.
  rewrite (StoreFacts.update_function_at _ _ fo) by exact Hf.
  rewrite length_insert.
  erewrite StoreFacts.update_function_at.
  2:{ rewrite lookup_app_l by (rewrite length_insert; exact Hlt).
      apply list_lookup_insert_eq. exact Hlt. }
  rewrite insert_app_l by (rewrite length_insert; exact Hlt).
  rewrite list_insert_insert_eq. reflexivity.
Qed.

Lemma parameter_cases (h : store) f kwargs :
  parameter f kwargs h
  = match h !! f with
    | Some (OFunction fo) => (Ok f, annotated_with h f fo [kwargs])
    | Some _ => (Raise (AttributeError "not a function"), h)
    | None => (Raise (AttributeError "no such object"), h)
    end.
Proof.
  destruct (h !! f) as [o|] eqn:Hf.
  - destruct o; try (apply parameter_at; exact Hf);
      unfold parameter, update_function, get_function, bind, read;
      rewrite Hf; reflexivity.
  - unfold parameter, update_function, get_function, bind, read.
    rewrite Hf. reflexivity.
Qed.

Lemma annotated_with_step (h : store) f fo k k' l :
  h !! f = Some (OFunction fo) ->
  annotated_with (annotated_with h f fo [k]) f
    (set_fn_parameters (Some (attached_parameters fo ++ [length h])) fo)
    (k' :: l)
  = annotated_with h f fo (k :: k' :: l).
Proof.
  intros Hf. pose proof (lookup_lt_Some _ _ _ Hf) as Hlt.
  unfold annotated_with.
  rewrite insert_app_l by (rewrite length_insert; exact Hlt).
  rewrite list_insert_insert_eq, <- app_assoc.
  rewrite length_app, length_insert. cbn [length map app seq].
  unfold attached_parameters at 1. cbn [set_fn_parameters fn_parameters].
  rewrite <- app_assoc. cbn [app].
  replace (length h + 1) with (S (length h)) by lia.
  reflexivity.
Qed.

Lemma annotated_with_lookup (h : store) f fo k :
  h !! f = Some (OFunction fo) ->
  annotated_with h f fo [k] !! f
  = Some (OFunction
            (set_fn_parameters
               (Some (attached_parameters fo ++ [length h])) fo)).
Proof.
  intros Hf. pose proof (lookup_lt_Some _ _ _ Hf) as Hlt.
  unfold annotated_with.
  rewrite lookup_app_l by (rewrite length_insert; exact Hlt).
  apply list_lookup_insert_eq. exact Hlt.
Qed.

(** The loop of [parameters] over mappings. *)
Lemma attach_all (l : list ParameterObj) :
  forall (h : store) f fo k,
    h !! f = Some (OFunction fo) ->
    for_ (map mapping (k :: l))
         (fun param =>
            match param with
            | mapping kwargs => let* _ := parameter f kwargs in ret tt
            | unusable _ => raise TypeError
            end) h
    = (Ok tt, annotated_with h f fo (k :: l)).
Proof.
  induction l as [|k' l IH]; intros h f fo k Hf.
  - cbn [map for_]. unfold bind. rewrite (parameter_at _ _ _ _ Hf).
    reflexivity.
  - rewrite <- annotated_with_step by exact Hf.
    rewrite <- (IH _ _ _ k' (annotated_with_lookup _ _ _ k Hf)).
    change (map mapping (k :: k' :: l))
      with (mapping k :: map mapping (k' :: l)).
    cbn [for_]. unfold bind at 1 2. rewrite (parameter_at _ _ _ _ Hf).
    reflexivity.
Qed.

Lemma for_app {A} (l1 l2 : list A) body (h : store) :
  for_ (l1 ++ l2) body h = bind (for_ l1 body) (fun _ => for_ l2 body) h.
Proof.
  revert h. induction l1 as [|a l1 IH]; intros h; cbn [app for_].
  - reflexivity.
  - unfold bind. destruct (body a h) as [[[]|e] h1]; [|reflexivity].
    rewrite IH. reflexivity.
Qed.

(** X24: applied to a function object and a non-empty list of mappings,
    [parameters] returns that same object after creating one Parameter
    object per mapping, at fresh locations in the order of the list, and
    appending them in that order to the list in the [parameters]
    attribute; every other object of the store is left as it was. *)
Theorem parameters_attaches_in_list_order
        (h : store) (f : loc) (fo : FunctionObj)
        (kwargs : ParameterObj) (more : list ParameterObj) :
  h !! f = Some (OFunction fo) ->
  parameters (Some (map mapping (kwargs :: more))) f h
  = (Ok f, annotated_with h f fo (kwargs :: more)).
Proof.
  intros Hf. unfold parameters. unfold bind at 1. unfold except_TypeError.
  rewrite (attach_all more h f fo kwargs Hf). reflexivity.
Qed.

Lemma parameters_attaches_in_list_order_witness :
  parameters
    (Some [mapping (new_ParameterRec [] None (Some "x") None);
           mapping (new_ParameterRec [] None (Some "y") None)])
    0 [OFunction sample_function]
  = (Ok 0,
     [OFunction (set_fn_parameters (Some [1; 2]) sample_function);
      OParameter (new_ParameterRec [] None (Some "x") None);
      OParameter (new_ParameterRec [] None (Some "y") None)]).
Proof.
  exact (parameters_attaches_in_list_order
           [OFunction sample_function] 0 sample_function
           (new_ParameterRec [] None (Some "x") None)
           [new_ParameterRec [] None (Some "y") None] eq_refl).
Defined.

Lemma bind_apply {A B} (m : M A) (k : A -> M B) (h : store) :
  bind m k h
  = match m h with
    | (Ok a, h') => k a h'
    | (Raise e, h') => (Raise e, h')
    end.
Proof. reflexivity. Qed.

Lemma stacked_as_loop (annotations : list ParameterObj) f (h : store) :
  stacked annotations f h
  = bind (for_ (map mapping (rev annotations))
               (fun param =>
                  match param with
                  | mapping kwargs => let* _ := parameter f kwargs in ret tt
                  | unusable _ => raise TypeError
                  end))
         (fun _ => ret f) h.
Proof.
  revert h. induction annotations as [|k below IH]; intros h.
  - reflexivity.
  - cbn [stacked rev]. rewrite map_app.
    rewrite (bind_apply (stacked below f)), IH.
    rewrite (bind_apply (for_ (_ ++ _) _)), for_app.
    rewrite !(bind_apply (for_ _ _)).
    destruct (for_ _ _ h) as [[[]|e] h1]; [|reflexivity].
    cbn [map for_ ret]. rewrite !bind_apply, parameter_cases.
    destruct (h1 !! f) as [[]|]; reflexivity.
Qed.

Lemma loop_never_raises_TypeError (l : list ParameterObj) f (h : store) :
  forall h', for_ (map mapping l)
                  (fun param =>
                     match param with
                     | mapping kwargs =>
                         let* _ := parameter f kwargs in ret tt
                     | unusable _ => raise TypeError
                     end) h
             <> (Raise TypeError, h').
Proof.
  revert h. induction l as [|k l IH]; intros h h'; cbn [map for_].
  - discriminate.
  - unfold bind at 1 2. rewrite parameter_cases.
    destruct (h !! f) as [[]|]; try discriminate. cbn [ret]. apply IH.
Qed.

(** X25: [@parameters(l)] does what the [@parameter] decorators of the
    mappings of [l] do when they are stacked in the reverse order: the
    first mapping of the list is the decorator next to the function. *)
Theorem parameters_is_reversed_stacking
        (l : list ParameterObj) (f : loc) (h : store) :
  parameters (Some (map mapping l)) f h = stacked (rev l) f h.
Proof.
  rewrite stacked_as_loop, rev_involutive.
  unfold parameters. rewrite !(bind_apply (except_TypeError _ _)).
  rewrite (bind_apply (for_ _ _)). unfold except_TypeError.
  pose proof (loop_never_raises_TypeError l f h) as Hno.
  destruct (for_ _ _ h) as [[[]|e] h1]; [reflexivity|].
  destruct e; try reflexivity. exfalso. exact (Hno h1 eq_refl).
Qed.

(** X26: when the list holds something that is no mapping, or cannot be
    iterated at all, [parameters] raises a PluginParamError; the Parameters
    of the mappings before the offending element are attached to the
    function all the same. *)
Theorem parameters_failure_keeps_earlier_annotations
        (h : store) (f : loc) (fo : FunctionObj)
        (before : list ParameterObj) (v : pyval) (rest : list annotation) :
  h !! f = Some (OFunction fo) ->
  parameters None f h
  = (Raise (PluginParamError
              "@parameters arg must be an iterable of dictionaries"), h)
  /\ exists h',
      parameters (Some (map mapping before)) f h = (Ok f, h')
      /\ parameters (Some (map mapping before ++ unusable v :: rest)) f h
         = (Raise (PluginParamError
                     "@parameters arg must be an iterable of dictionaries"),
            h').
Proof.
  intros Hf. split; [reflexivity|].
  destruct before as [|k before].
  - exists h. split; reflexivity.
  - exists (annotated_with h f fo (k :: before)).
    unfold parameters. rewrite !(bind_apply (except_TypeError _ _)).
    unfold except_TypeError.
    change (map mapping (k :: before) ++ unusable v :: rest)
      with (map mapping (k :: before) ++ [unusable v] ++ rest).
    rewrite for_app, bind_apply.
    rewrite (attach_all before h f fo k Hf).
    split; reflexivity.
Qed.

Lemma parameters_failure_keeps_earlier_annotations_witness :
  exists h',
    parameters (Some [mapping (new_ParameterRec [] None (Some "x") None)])
               0 [OFunction sample_function]
    = (Ok 0, h')
    /\ parameters (Some [mapping (new_ParameterRec [] None (Some "x") None);
                         unusable (VStr "y")])
                  0 [OFunction sample_function]
       = (Raise (PluginParamError
                   "@parameters arg must be an iterable of dictionaries"),
          h').
Proof.
  exact (proj2 (parameters_failure_keeps_earlier_annotations
                  [OFunction sample_function] 0 sample_function
                  [new_ParameterRec [] None (Some "x") None]
                  (VStr "y") [] eq_refl)).
Defined.

End StoreDecoratorFacts.

(* ===================================================================== *)
(** * Object layer: Parameters that contain themselves                    *)
(* ===================================================================== *)

Module StoreCycleFacts.
Import Store StoreCycles.
Local Open Scope store_scope.

Section Cycles.
Context {E : External}.
Variable param : loc.

Lemma refers_get (h : store) :
  refers_to_itself h param ->
  exists p,
    get_parameter param h = (Ok p, h)
    /\ key p <> None
    /\ choices p = RawChoices VNone
    /\ ((exists rest, parameters p = param :: rest)
        \/ (parameters p = []
            /\ exists mdl rest,
                model p = Some mdl
                /\ h !! mdl = Some (OModel (param :: rest)))).
Proof.
  intros (p & Hp & Hrest). exists p. split; [|exact Hrest].
  unfold get_parameter, bind. rewrite (StoreFacts.read_at _ _ _ Hp).
  reflexivity.
Qed.

Lemma refers_update (h : store) (g : ParameterObj -> ParameterObj) :
  (forall p, choices p = RawChoices VNone ->
             key (g p) = key p /\ choices (g p) = RawChoices VNone
             /\ parameters (g p) = parameters p /\ model (g p) = model p) ->
  refers_to_itself h param ->
  exists h1,
    update_parameter param g h = (Ok tt, h1)
    /\ refers_to_itself h1 param
    /\ forall l, l <> param -> h1 !! l = h !! l.
Proof.
  intros Hg (p & Hp & Hkey & Hch & Hself).
  destruct (Hg p Hch) as (Hk & Hc & Hps & Hm).
  pose proof (lookup_lt_Some _ _ _ Hp) as Hlt.
  exists (<[param := OParameter (g p)]> h). split; [|split].
  - unfold update_parameter, get_parameter, bind.
    rewrite (StoreFacts.read_at _ _ _ Hp). reflexivity.
  - exists (g p). split; [apply list_lookup_insert_eq; exact Hlt|].
    rewrite Hk, Hps, Hm. repeat split; try assumption.
    destruct Hself as [Hnested | (Hnil & mdl & rest & Hmdl & Hlist)];
      [left; exact Hnested|right].
    split; [exact Hnil|]. exists mdl, rest. split; [exact Hmdl|].
    rewrite list_lookup_insert_ne; [exact Hlist|].
    intros <-. rewrite Hp in Hlist. discriminate.
  - intros l Hne. apply list_lookup_insert_ne. congruence.
Qed.

Ltac update_step H h1 H1 Hframe :=
  rewrite StoreDecoratorFacts.bind_apply;
  match goal with
  | |- context [update_parameter param ?g ?h] =>
      let Hu := fresh "Hu" in
      destruct (refers_update h g ltac:(intros ? ?; cbn; auto) H)
        as (h1 & Hu & H1 & Hframe);
      rewrite Hu; clear Hu
  end.

Ltac get_step H p Hrest :=
  let Hget := fresh "Hget" in
  destruct (refers_get _ H) as (p & Hget & Hrest);
  rewrite StoreDecoratorFacts.bind_apply, Hget; clear Hget.

Lemma descent (depth : nat) :
  forall h : store,
    refers_to_itself h param ->
    fst (_initialize_parameter depth param None h) = Raise RecursionError
    /\ forall ps,
        fst (_generate_nested_params depth (param :: ps) h)
        = Raise RecursionError.
Proof.
  induction depth as [|depth IH]; intros h Hself; [split; reflexivity|].
  split.
  - cbn [_initialize_parameter].
    get_step Hself p Hrest. destruct Hrest as (Hkey & _).
    destruct (key p) as [k|]; [clear Hkey p|contradiction].
    update_step Hself h1 Hself1 Hframe1.
    get_step Hself1 p Hrest. destruct Hrest as (_ & Hch & _).
    rewrite Hch. clear Hch p.
    rewrite StoreDecoratorFacts.bind_apply.
    replace (lift (_format_choices (RawChoices VNone)) h1)
      with (@Ok (option Choices) None, h1) by reflexivity.
    cbn [choices_attr_of].
    update_step Hself1 h2 Hself2 Hframe2.
    rewrite StoreDecoratorFacts.bind_apply. cbn [ret].
    get_step Hself2 p Hrest. clear Hrest.
    assert (exists h3,
               (if type_is (type p) "Bytes"
                then update_parameter param
                       (set_type_info (VDict [("storage", VStr "gridfs")]))
                else ret tt) h2 = (Ok tt, h3)
               /\ refers_to_itself h3 param) as (h3 & Hstep & Hself3).
    { destruct (type_is (type p) "Bytes").
      - destruct (refers_update h2
                    (set_type_info (VDict [("storage", VStr "gridfs")]))
                    ltac:(intros ? ?; cbn; auto) Hself2)
          as (h3 & Hu & H3 & _).
        exists h3. split; assumption.
      - exists h2. split; [reflexivity|exact Hself2]. }
    rewrite StoreDecoratorFacts.bind_apply, Hstep. clear Hstep p.
    get_step Hself3 p Hrest. clear Hrest.
    assert (exists h4,
               (if type_is (type p) "Base64"
                then update_parameter param (set_default VNone)
                else ret tt) h3 = (Ok tt, h4)
               /\ refers_to_itself h4 param) as (h4 & Hstep & Hself4).
    { destruct (type_is (type p) "Base64").
      - destruct (refers_update h3 (set_default VNone)
                    ltac:(intros ? ?; cbn; auto) Hself3)
          as (h4 & Hu & H4 & _).
        exists h4. split; assumption.
      - exists h3. split; [reflexivity|exact Hself3]. }
    rewrite StoreDecoratorFacts.bind_apply, Hstep. clear Hstep p.
    get_step Hself4 p Hrest. destruct Hrest as (_ & _ & Hlinks).
    destruct Hlinks as [(rest & Hnested)
                       | (Hnil & mdl & rest & Hmdl & Hlist)].
    + rewrite Hnested.
      update_step Hself4 h5 Hself5 Hframe5.
      rewrite StoreDecoratorFacts.bind_apply.
      destruct (IH _ Hself5) as [_ Hgen]. specialize (Hgen rest).
      destruct (_generate_nested_params depth (param :: rest) h5)
        as [[children|e] h6]; cbn in Hgen; [discriminate|].
      cbn. injection Hgen as ->. reflexivity.
    + rewrite Hnil, Hmdl.
      update_step Hself4 h5 Hself5 Hframe5.
      assert (h5 !! mdl = Some (OModel (param :: rest))) as Hlist5.
      { rewrite Hframe5; [exact Hlist|].
        intros ->. destruct Hself4 as (p4 & Hp4 & _).
        rewrite Hp4 in Hlist. discriminate. }
      rewrite StoreDecoratorFacts.bind_apply.
      unfold model_parameters at 1.
      rewrite StoreDecoratorFacts.bind_apply,
        (StoreFacts.read_at _ _ _ Hlist5).
      cbn [ret]. rewrite StoreDecoratorFacts.bind_apply.
      destruct (IH _ Hself5) as [_ Hgen]. specialize (Hgen rest).
      destruct (_generate_nested_params depth (param :: rest) h5)
        as [[children|e] h6]; cbn in Hgen; [discriminate|].
      cbn. injection Hgen as ->. reflexivity.
  - intros ps. cbn [_generate_nested_params collect].
    destruct Hself as (p & Hp & Hrest).
    rewrite StoreDecoratorFacts.bind_apply.
    rewrite StoreDecoratorFacts.bind_apply,
      (StoreFacts.read_at _ _ _ Hp).
    rewrite StoreDecoratorFacts.bind_apply.
    assert (refers_to_itself h param) as Hself by (exists p; auto).
    destruct (IH _ Hself) as [Hinit _].
    destruct (_initialize_parameter depth param None h)
      as [[initialized|e] h1]; cbn in Hinit; [discriminate|].
    cbn. injection Hinit as ->. reflexivity.
Qed.

End Cycles.

(** X27: a Parameter without choices that is an element of its own
    expansion, through its nested parameter list or through the parameter
    list of its model, is never normalized: whatever the recursion limit,
    [_initialize_parameter] ends in a RecursionError. *)
Theorem self_referring_parameter_exhausts_recursion {E : External}
        (h : store) (param : loc) (depth : nat) :
  refers_to_itself h param ->
  fst (_initialize_parameter depth param None h) = Raise RecursionError.
Proof. intros Hself. apply (descent param depth h Hself). Qed.

Lemma self_referring_parameter_exhausts_recursion_witness :
  fst (_initialize_parameter (E := sample_external) 9 1 None
         sample_recursive_model_store)
  = Raise RecursionError.
Proof.
  apply (self_referring_parameter_exhausts_recursion
           (E := sample_external) sample_recursive_model_store 1 9).
  eexists. split; [reflexivity|]. split; [discriminate|].
  split; [reflexivity|]. right. split; [reflexivity|].
  exists 0, []. split; reflexivity.
Defined.

End StoreCycleFacts.
